(** * DefectAugment: a shallow embedding of gunpowder's defect augmentation node

    The development follows [gunpowder/nodes/defect_augment.py] and
    [gunpowder/volume_spec.py]; the prediction node of
    [gunpowder/torch/nodes/predict.py] comes after it, in a module of its
    own.  Python exceptions are values of [error]
    threaded through a result monad; the two global random generators
    ([random] and [np.random]) are explicit streams with a read position;
    numpy arrays are nested lists that carry their shape; floating-point
    numbers are idealised as rationals, with one more value for what is not
    finite.  The functions of skimage, scipy and numpy the node calls are
    an interface with a model of their documented behaviour; the classes
    of gunpowder the node uses and that are not among the sources (Roi,
    Coordinate, BatchRequest, Batch, BatchFilter) are modelled from the
    description of the node. *)

From Stdlib Require Import ZArith QArith Qround String DecimalString Lia Lqa.
From stdpp Require Import base option list gmap strings.

Local Open Scope Z_scope.

(** ** Python exceptions and the result monad *)

Inductive error : Type :=
  | AssertionError (msg : string)
  | ValueError (msg : string)
  | IndexError
  | KeyError (key : string)
  | TypeError
  | AttributeError
  | RuntimeError
  | ZeroDivisionError.

Inductive result (A : Type) : Type :=
  | Ok (a : A)
  | Err (e : error).
Arguments Ok {A} a.
Arguments Err {A} e.

#[export] Instance result_ret : MRet result := @Ok.
#[export] Instance result_bind : MBind result := λ A B f m,
  match m with Ok a => f a | Err e => Err e end.

(** [assert cond, msg] *)
Definition py_assert (cond : bool) (msg : string) : result unit :=
  if cond then Ok tt else Err (AssertionError msg).

(** ["%i" % n] for a non-negative count. *)
Definition format_i (n : nat) : string := NilEmpty.string_of_uint (Nat.to_uint n).

(** Indexing a Python sequence of length [n] with a possibly negative
    index. *)
Definition py_index (n : nat) (i : Z) : result nat :=
  if (0 <=? i) && (i <? Z.of_nat n) then Ok (Z.to_nat i)
  else if (- Z.of_nat n <=? i) && (i <? 0) then Ok (Z.to_nat (Z.of_nat n + i))
  else Err IndexError.

Definition tuple_get {A} (t : list A) (i : Z) : result A :=
  k ← py_index (length t) i;
  match t !! k with Some a => Ok a | None => Err IndexError end.

(** ** Coordinates and regions of interest *)

Definition Coordinate := list Z.

Record Roi := mkRoi { roi_offset : Coordinate; roi_shape : Coordinate }.

Definition roi_dims (r : Roi) : nat := length (roi_shape r).
Definition get_shape (r : Roi) : Coordinate := roi_shape r.

(** Modelled from the spec: [Coordinate.__div__] of gunpowder/coordinate.py,
    which is not part of the sources at hand.  The spec divides an extent
    by a voxel size per axis; on Python integers that is floor division,
    which fails on a zero divisor and on tuples of different lengths. *)
Fixpoint coordinate_div (a b : Coordinate) : result Coordinate :=
  match a, b with
  | [], [] => Ok []
  | x :: a', y :: b' =>
      if y =? 0 then Err ZeroDivisionError
      else q ← coordinate_div a' b'; Ok (x / y :: q)
  | _, _ => Err (AssertionError "")
  end.

(** Modelled from the spec: [Roi.__div__] of gunpowder/roi.py (absent):
    offset and shape are both divided, per axis. *)
Definition roi_div (r : Roi) (v : Coordinate) : result Roi :=
  o ← coordinate_div (roi_offset r) v;
  s ← coordinate_div (roi_shape r) v;
  Ok (mkRoi o s).

Fixpoint coordinate_zip (f : Z → Z → Z) (a b : Coordinate) : result Coordinate :=
  match a, b with
  | [], [] => Ok []
  | x :: a', y :: b' => q ← coordinate_zip f a' b'; Ok (f x y :: q)
  | _, _ => Err (AssertionError "")
  end.

(** Modelled from the spec: [Roi.grow(amount_neg, amount_pos)] of
    gunpowder/roi.py (absent).  The spec grows a region "before and
    after": the offset moves back by [amount_neg] and the shape gains both
    amounts; the amounts must have the dimension of the region. *)
Definition roi_grow (r : Roi) (amount_neg amount_pos : Coordinate) : result Roi :=
  o ← coordinate_zip Z.sub (roi_offset r) amount_neg;
  s1 ← coordinate_zip Z.add (roi_shape r) amount_neg;
  s ← coordinate_zip Z.add s1 amount_pos;
  Ok (mkRoi o s).

(** ** VolumeSpec (gunpowder/volume_spec.py) *)

Inductive dtype := UInt8 | Float32 | Float64.

#[export] Instance dtype_eq_dec : EqDecision dtype.
Proof. solve_decision. Defined.

Record VolumeSpec := mkVolumeSpec {
  roi : option Roi;
  voxel_size : option Coordinate;
  interpolatable : option bool;
  spec_dtype : option dtype
}.

(** [VolumeSpec.__init__]: every attribute defaults to [None]. *)
Definition VolumeSpec_init : VolumeSpec := mkVolumeSpec None None None None.

(** [VolumeSpec.copy] is a deep copy; values are immutable here. *)
Definition VolumeSpec_copy (s : VolumeSpec) : VolumeSpec := s.

Definition set_roi (s : VolumeSpec) (r : Roi) : VolumeSpec :=
  mkVolumeSpec (Some r) (voxel_size s) (interpolatable s) (spec_dtype s).

(** Volume types are the keys of requests and batches. *)
Definition VolumeType := string.
Definition RAW : VolumeType := "RAW".
Definition ALPHA_MASK : VolumeType := "ALPHA_MASK".

(** A request maps volume types to specs. *)
Abbreviation BatchRequest := (gmap string VolumeSpec).

Definition request_get (request : BatchRequest) (k : VolumeType) : result VolumeSpec :=
  match request !! k with Some s => Ok s | None => Err (KeyError k) end.

(** ** Random sources

    [random.random()] and [np.random.randint] read two global generators.
    A run is determined by the two streams of values they deliver and by how
    far each has been read. *)

Record Entropy := mkEntropy {
  py_stream : nat → Q;     (* successive values of random.random(), in [0,1) *)
  np_stream : nat → nat    (* successive raw values of the numpy generator *)
}.

Record RngPos := mkRngPos { py_pos : nat; np_pos : nat }.

Definition random_random (E : Entropy) (p : RngPos) : Q * RngPos :=
  (py_stream E (py_pos p), mkRngPos (S (py_pos p)) (np_pos p)).

(** [np.random.randint(low, high)]: an integer of the half-open interval
    [low, high); [ValueError] when the interval is empty. *)
Definition randint_value (low high : Z) (raw : nat) : Z :=
  low + Z.of_nat raw mod (high - low).

Definition np_random_randint (E : Entropy) (low high : Z) (p : RngPos)
  : result (Z * RngPos) :=
  if low <? high
  then Ok (randint_value low high (np_stream E (np_pos p)),
           mkRngPos (py_pos p) (S (np_pos p)))
  else Err (ValueError "low >= high").

(** ** numpy arrays

    A two-dimensional array is its shape and its rows; the shape is kept
    apart because an array with no rows still has a width. *)

Record array2 (A : Type) := mkArray2 { shape2 : nat * nat; rows2 : list (list A) }.
Arguments mkArray2 {A} shape2 rows2.
Arguments shape2 {A} a.
Arguments rows2 {A} a.

Definition tab2 {A} (h w : nat) (f : nat → nat → A) : array2 A :=
  mkArray2 (h, w) ((λ i, (λ j, f i j) <$> seq 0 w) <$> seq 0 h).

Definition lookup2 {A} (a : array2 A) (i j : nat) : option A :=
  rows2 a !! i ≫= (.!! j).

Definition get2 {A} (d : A) (a : array2 A) (i j : nat) : A :=
  default d (lookup2 a i j).

Definition amap2 {A B} (f : A → B) (a : array2 A) : array2 B :=
  mkArray2 (shape2 a) ((λ row : list A, f <$> row) <$> rows2 a).

(** [a.reshape(-1)]: the elements in C order. *)
Definition ravel2 {A} (a : array2 A) : list A := concat (rows2 a).

(** [np.zeros(shape, dtype)] for a shape given as Python integers. *)
Definition np_zeros {A} (zero : A) (n0 n1 : Z) : result (array2 A) :=
  if (n0 <? 0) || (n1 <? 0)
  then Err (ValueError "negative dimensions are not allowed")
  else Ok (tab2 (Z.to_nat n0) (Z.to_nat n1) (λ _ _, zero)).

(** [a[i, j]] with Python's negative indices. *)
Definition index2 {A} (a : array2 A) (i j : Z) : result A :=
  i' ← py_index (fst (shape2 a)) i;
  j' ← py_index (snd (shape2 a)) j;
  match lookup2 a i' j' with Some v => Ok v | None => Err IndexError end.

Definition set2 {A} (a : array2 A) (i j : nat) (v : A) : array2 A :=
  mkArray2 (shape2 a) (alter (λ row, <[j := v]> row) i (rows2 a)).

(** [a[rr, cc] = v]: one write per index pair. *)
Fixpoint set_pixels {A} (a : array2 A) (pts : list (Z * Z)) (v : A)
  : result (array2 A) :=
  match pts with
  | [] => Ok a
  | (r, c) :: pts' =>
      i ← py_index (fst (shape2 a)) r;
      j ← py_index (snd (shape2 a)) c;
      set_pixels (set2 a i j v) pts' v
  end.

(** The length two operands of lengths [a] and [b] broadcast to. *)
Definition broadcast_dim (a b : nat) : option nat :=
  if decide (a = b) then Some a
  else if decide (a = 1%nat) then Some b
  else if decide (b = 1%nat) then Some a
  else None.

(** The index an operand of length [n] is read at for result index [i]. *)
Definition broadcast_ix (n i : nat) : nat := if decide (n = 1%nat) then 0%nat else i.

(** [f(a, b)] elementwise, with numpy's broadcasting of the two shapes. *)
Definition broadcast2 {A B C} (f : A → B → C) (da : A) (db : B)
    (a : array2 A) (b : array2 B) : result (array2 C) :=
  let '(ha, wa) := shape2 a in
  let '(hb, wb) := shape2 b in
  match broadcast_dim ha hb, broadcast_dim wa wb with
  | Some h, Some w =>
      Ok (tab2 h w (λ i j,
            f (get2 da a (broadcast_ix ha i) (broadcast_ix wa j))
              (get2 db b (broadcast_ix hb i) (broadcast_ix wb j))))
  | _, _ => Err (ValueError "operands could not be broadcast together")
  end.

(** ** Floating-point values

    Finite floats are rationals; [None] is a value that is not finite (the
    result of dividing by zero and whatever is computed from it). *)

Definition float := option Q.

Definition fnum (q : Q) : float := Some q.
Definition fadd (a b : float) : float := x ← a; y ← b; Some (x + y)%Q.
Definition fmul (a b : float) : float := x ← a; y ← b; Some (x * y)%Q.
Definition fneg (a : float) : float := x ← a; Some (- x)%Q.
Definition fdiv (a b : float) : float :=
  x ← a; y ← b; if Qeq_bool y 0 then None else Some (x / y)%Q.

(** Equality of floats up to the representation of rationals. *)
Definition feq (a b : float) : Prop :=
  match a, b with
  | Some x, Some y => (x == y)%Q
  | None, None => True
  | _, _ => False
  end.

(** ** The image-processing libraries

    [skimage.draw.line], [scipy.ndimage.label], [np.linalg.norm] and
    [scipy.ndimage.binary_dilation] are third-party functions.  The node is
    written against this interface; [scipy_lib] below is the model of the
    documented behaviour of the real functions. *)

Record GeomLib := mkGeomLib {
  draw_line : Z → Z → Z → Z → list (Z * Z);     (* the pairs of (rr, cc) *)
  nd_label : array2 bool → array2 nat * nat;      (* labels and their number *)
  linalg_norm : Q → Q → Q;                        (* norm of a 2-vector *)
  binary_dilation : nat → array2 bool → array2 bool  (* iterations, input *)
}.

(** [skimage.draw.line(r0, c0, r1, c1)] is Bresenham's algorithm.  The
    inner [while d >= 0] of the library runs [d / (2*dc) + 1] times when
    [d >= 0], and not at all otherwise. *)
Fixpoint line_loop (n : nat) (steep : bool) (sr sc dr dc r c d : Z) : list (Z * Z) :=
  match n with
  | O => []
  | S n' =>
      let pt := if steep then (c, r) else (r, c) in
      let k := if 0 <=? d then d / (2 * dc) + 1 else 0 in
      let r' := r + k * sr in
      let d' := d - k * (2 * dc) in
      pt :: line_loop n' steep sr sc dr dc r' (c + sc) (d' + 2 * dr)
  end.

Definition skimage_line (r0 c0 r1 c1 : Z) : list (Z * Z) :=
  let dr := Z.abs (r1 - r0) in
  let dc := Z.abs (c1 - c0) in
  let sc := if 0 <? c1 - c0 then 1 else -1 in
  let sr := if 0 <? r1 - r0 then 1 else -1 in
  let steep := dc <? dr in
  let '(r, c, dr', dc', sr', sc') :=
    if steep then (c0, r0, dc, dr, sc, sr) else (r0, c0, dr, dc, sr, sc) in
  line_loop (Z.to_nat dc') steep sr' sc' dr' dc' r c (2 * dr' - dc') ++ [(r1, c1)].

(** [scipy.ndimage.label] with its default structuring element: two
    foreground pixels are connected when they share an edge; components are
    numbered from 1 in the order a row-by-row scan meets them; 0 is the
    background.  A component is filled from its first pixel with a work
    list; a pixel is labelled once and pushes at most four neighbours, so
    [4 * h * w + 1] steps empty the list. *)
Definition neighbours4 (i j : nat) : list (nat * nat) :=
  (if decide (i = 0%nat) then [] else [(Nat.pred i, j)]) ++
  (if decide (j = 0%nat) then [] else [(i, Nat.pred j)]) ++
  [(S i, j); (i, S j)].

Fixpoint flood (fuel : nat) (fg : array2 bool) (lab : nat)
    (work : list (nat * nat)) (labels : array2 nat) : array2 nat :=
  match fuel with
  | O => labels
  | S fuel' =>
      match work with
      | [] => labels
      | (i, j) :: work' =>
          if get2 false fg i j && bool_decide (get2 1%nat labels i j = 0%nat)
          then flood fuel' fg lab (neighbours4 i j ++ work') (set2 labels i j lab)
          else flood fuel' fg lab work' labels
      end
  end.

Definition positions (h w : nat) : list (nat * nat) :=
  i ← seq 0 h; (λ j, (i, j)) <$> seq 0 w.

Definition ndimage_label (fg : array2 bool) : array2 nat * nat :=
  let '(h, w) := shape2 fg in
  foldl (λ '(labels, n) '(i, j),
           if get2 false fg i j && bool_decide (get2 1%nat labels i j = 0%nat)
           then (flood (4 * h * w + 1) fg (S n) [(i, j)] labels, S n)
           else (labels, n))
        (tab2 h w (λ _ _, 0%nat), 0%nat) (positions h w).

(** [scipy.ndimage.binary_dilation] with its default structuring element (a
    pixel and the four pixels sharing an edge with it) and border value 0,
    applied [iterations] times. *)
Definition dilate_once (m : array2 bool) : array2 bool :=
  let '(h, w) := shape2 m in
  tab2 h w (λ i j,
    get2 false m i j
    || (bool_decide (i ≠ 0%nat) && get2 false m (Nat.pred i) j)
    || get2 false m (S i) j
    || (bool_decide (j ≠ 0%nat) && get2 false m i (Nat.pred j))
    || get2 false m i (S j)).

Definition ndimage_binary_dilation (iterations : nat) (m : array2 bool) : array2 bool :=
  Nat.iter iterations dilate_once m.

(** [np.linalg.norm] on a vector with integer entries, to 24 binary digits
    after the point. *)
Definition np_linalg_norm (a b : Q) : Q :=
  let v := (a * a + b * b)%Q in
  Z.sqrt (Qfloor (v * inject_Z (2 ^ 48))) # (2 ^ 24).

Definition scipy_lib : GeomLib :=
  mkGeomLib skimage_line ndimage_label np_linalg_norm ndimage_binary_dilation.

(** [scipy.ndimage.map_coordinates(input, (rows, cols), mode='constant',
    order=order)] on a two-dimensional input: one sample per coordinate
    pair, 0 outside the input. *)
Definition Resampler := array2 Q → list float → list float → nat → list Q.

(** Order 0 reads the nearest pixel; a coordinate that is not finite reads
    as one outside the input. *)
Definition nearest_sample (a : array2 Q) (cy cx : float) : Q :=
  match cy, cx with
  | Some y, Some x =>
      let i := Qfloor (y + (1 # 2)) in
      let j := Qfloor (x + (1 # 2)) in
      let '(h, w) := shape2 a in
      if (0 <=? i) && (i <? Z.of_nat h) && (0 <=? j) && (j <? Z.of_nat w)
      then get2 0%Q a (Z.to_nat i) (Z.to_nat j)
      else 0%Q
  | _, _ => 0%Q
  end.

Definition nearest_resample (a : array2 Q) (ys xs : list float) : list Q :=
  zip_with (nearest_sample a) ys xs.

(** The resampler of scipy: nearest-pixel for order 0; the spline
    evaluation of the higher orders is left to [spline]. *)
Definition ndimage_map_coordinates (spline : Resampler) : Resampler :=
  λ a ys xs order,
    if decide (order = 0%nat) then nearest_resample a ys xs else spline a ys xs order.

(** ** The node *)

(** [r < t] on floats. *)
Definition Qltb (x y : Q) : bool := negb (Qle_bool y x).

(** The per-slice transformation prepared for a deformed slice. *)
Record Transform := mkTransform {
  flow_x : list float;
  flow_y : list float;
  line_mask : array2 bool
}.

(** A Python [dict] with integer keys, in insertion order. *)
Fixpoint dict_set {V} (d : list (nat * V)) (k : nat) (v : V) : list (nat * V) :=
  match d with
  | [] => [(k, v)]
  | (k', v') :: d' =>
      if decide (k' = k) then (k, v) :: d' else (k', v') :: dict_set d' k v
  end.

Fixpoint dict_get {V} (d : list (nat * V)) (k : nat) : option V :=
  match d with
  | [] => None
  | (k', v') :: d' => if decide (k' = k) then Some v' else dict_get d' k
  end.

Definition dict_values {V} (d : list (nat * V)) : list V := snd <$> d.

(** Three-dimensional arrays of numbers. *)
Record array3 := mkArray3 { shape3 : nat * nat * nat; planes : list (list (list Q)) }.

Definition tab3 (d h w : nat) (f : nat → nat → nat → Q) : array3 :=
  mkArray3 (d, h, w)
    ((λ i, (λ j, (λ k, f i j k) <$> seq 0 w) <$> seq 0 h) <$> seq 0 d).

Definition lookup3 (a : array3) (i j k : nat) : option Q :=
  pl ← planes a !! i; row ← (pl : list (list Q)) !! j; (row : list Q) !! k.

Definition get3 (a : array3) (i j k : nat) : Q := default 0%Q (lookup3 a i j k).

(** Rewrite every element in place, by its index and old value. *)
Definition update3 (a : array3) (f : nat → nat → nat → Q → Q) : array3 :=
  mkArray3 (shape3 a)
    (imap (λ i pl, imap (λ j row, imap (λ k v, f i j k v) row) pl) (planes a)).

(** The section selector of [process]: [slice(c, c+1)] along [axis] and
    [slice(None, None)] along the other axes. *)
Definition sel_len (n c : nat) : nat := if decide (c < n)%nat then 1%nat else 0%nat.

Definition section_shape (axis c : nat) (sh : nat * nat * nat) : nat * nat * nat :=
  let '(d, h, w) := sh in
  (if decide (axis = 0%nat) then sel_len d c else d,
   if decide (axis = 1%nat) then sel_len h c else h,
   if decide (axis = 2%nat) then sel_len w c else w).

Definition in_section (axis c i j k : nat) : bool :=
  bool_decide (axis = 0%nat → i = c) && bool_decide (axis = 1%nat → j = c)
  && bool_decide (axis = 2%nat → k = c).

(** The length of an array along an axis. *)
Definition axis_extent (sh : nat * nat * nat) (axis : nat) : nat :=
  let '(d, h, w) := sh in
  match axis with 0%nat => d | 1%nat => h | 2%nat => w | _ => 0%nat end.

(** [a[section_selector]] *)
Definition get_section (a : array3) (axis c : nat) : array3 :=
  let '(d, h, w) := section_shape axis c (shape3 a) in
  tab3 d h w (λ i j k,
    get3 a (if decide (axis = 0%nat) then c else i)
           (if decide (axis = 1%nat) then c else j)
           (if decide (axis = 2%nat) then c else k)).

(** [a[section_selector].mean()] *)
Definition section_mean (a : array3) (axis c : nat) : Q :=
  let section := concat (concat (planes (get_section a axis c))) in
  (foldr Qplus 0 section / inject_Z (Z.of_nat (length section)))%Q.

(** What a value becomes when it is stored in an array of the given type. *)
Definition cast (dt : dtype) (q : Q) : Q :=
  match dt with
  | UInt8 => inject_Z ((if Qle_bool 0 q then Qfloor q else Qceiling q) mod 256)
  | Float32 | Float64 => q
  end.

Definition broadcastable (v t : nat) : bool := bool_decide (v = t ∨ v = 1%nat).

(** [a[section_selector] = v] for an array [v], broadcast to the section. *)
Definition assign_section (dt : dtype) (a : array3) (axis c : nat) (v : array3)
  : result array3 :=
  let '(v0, v1, v2) := shape3 v in
  let '(t0, t1, t2) := section_shape axis c (shape3 a) in
  if broadcastable v0 t0 && broadcastable v1 t1 && broadcastable v2 t2 then
    Ok (update3 a (λ i j k old,
          if in_section axis c i j k then
            cast dt (get3 v (broadcast_ix v0 (if decide (axis = 0%nat) then 0%nat else i))
                            (broadcast_ix v1 (if decide (axis = 1%nat) then 0%nat else j))
                            (broadcast_ix v2 (if decide (axis = 2%nat) then 0%nat else k)))
          else old))
  else Err (ValueError "could not broadcast input array")%string.

(** [a.squeeze()] when the result is two-dimensional. *)
Definition squeeze2 (a : array3) : option (array2 Q) :=
  let '(d, h, w) := shape3 a in
  match decide (d = 1%nat), decide (h = 1%nat), decide (w = 1%nat) with
  | left _, right _, right _ => Some (mkArray2 (h, w) (default [] (planes a !! 0%nat)))
  | right _, left _, right _ =>
      Some (mkArray2 (d, w) ((λ pl : list (list Q), default [] (pl !! 0%nat)) <$> planes a))
  | right _, right _, left _ =>
      Some (mkArray2 (d, h)
              ((λ pl : list (list Q), (λ row : list Q, default 0%Q (row !! 0%nat)) <$> pl)
                 <$> planes a))
  | _, _, _ => None
  end.

(** [l.reshape(shape)] *)
Definition reshape2 (sh : nat * nat) (l : list Q) : result (array2 Q) :=
  let '(h, w) := sh in
  if decide (length l = (h * w)%nat)
  then Ok (tab2 h w (λ i j, default 0%Q (l !! (i * w + j)%nat)))
  else Err (ValueError "cannot reshape array")%string.

(** [a[mask] = 0.] *)
Definition zero_under (mask : array2 bool) (a : array2 Q) : result (array2 Q) :=
  if decide (shape2 mask = shape2 a)
  then Ok (tab2 (fst (shape2 a)) (snd (shape2 a))
             (λ i j, if get2 false mask i j then 0%Q else get2 0%Q a i j))
  else Err IndexError.

(** A two-dimensional array seen as one plane. *)
Definition as_plane (a : array2 Q) : array3 :=
  mkArray3 (1%nat, fst (shape2 a), snd (shape2 a)) [rows2 a].

(** [f(a, b)] elementwise on three-dimensional arrays, with broadcasting. *)
Definition broadcast3 (f : Q → Q → Q) (a b : array3) : result array3 :=
  let '(a0, a1, a2) := shape3 a in
  let '(b0, b1, b2) := shape3 b in
  match broadcast_dim a0 b0, broadcast_dim a1 b1, broadcast_dim a2 b2 with
  | Some d, Some h, Some w =>
      Ok (tab3 d h w (λ i j k,
            f (get3 a (broadcast_ix a0 i) (broadcast_ix a1 j) (broadcast_ix a2 k))
              (get3 b (broadcast_ix b0 i) (broadcast_ix b1 j) (broadcast_ix b2 k))))
  | _, _, _ => Err (ValueError "operands could not be broadcast together")%string
  end.

Definition elements3 (a : array3) : list Q := concat (concat (planes a)).

(** The bounds of [slice(start, stop)] on an axis of length [n]. *)
Definition slice_bound (n : nat) (x : Z) : nat :=
  if x <? 0 then Z.to_nat (Z.max (Z.of_nat n + x) 0) else Z.to_nat (Z.min x (Z.of_nat n)).

Definition py_slice {A} (start stop : Z) (l : list A) : list A :=
  let a := slice_bound (length l) start in
  let b := slice_bound (length l) stop in
  take (b - a)%nat (drop a l).

Definition slice_len (start stop : Z) (n : nat) : nat :=
  (slice_bound n stop - slice_bound n start)%nat.

Record Volume := mkVolume {
  vol_spec : VolumeSpec;
  vol_dtype : dtype;
  vol_data : array3
}.

Abbreviation Batch := (gmap string Volume).

(** The provider of artifacts: its spec and its [request_batch]. *)
Record BatchProvider := mkBatchProvider {
  provider_spec : gmap string VolumeSpec;
  request_batch : gmap string VolumeSpec → result (gmap string Volume)
}.

(** The attributes set by [__init__], and [self.spec], the spec of the
    stream the node sits in. *)
Record DefectAugment := mkDefectAugment {
  prob_missing : Q;
  prob_low_contrast : Q;
  prob_artifact : Q;
  prob_deform : Q;
  contrast_scale : Q;
  artifact_source : option BatchProvider;
  deformation_strength : Z;
  axis : nat;
  spec : gmap string VolumeSpec
}.

(** [DefectAugment.__init__]: every argument has a default. *)
Definition DefectAugment_init (prob_missing prob_low_contrast prob_artifact
    prob_deform contrast_scale : option Q) (artifact_source : option BatchProvider)
    (deformation_strength : option Z) (axis : option nat)
    (spec : gmap string VolumeSpec) : DefectAugment :=
  mkDefectAugment
    (default (1 # 20)%Q prob_missing)
    (default (1 # 20)%Q prob_low_contrast)
    (default 0%Q prob_artifact)
    (default 0%Q prob_deform)
    (default (1 # 10)%Q contrast_scale)
    artifact_source
    (default 20 deformation_strength)
    (default 0%nat axis)
    spec.

(** The attributes [prepare] sets and [process] reads. *)
Record Plan := mkPlan {
  slice_to_augmentation : list (nat * string);
  deform_slice_transformations : list (nat * Transform)
}.

Section Node.

Variable L : GeomLib.
Variable E : Entropy.
Variable self : DefectAugment.

(** [DefectAugment.__prepare_deform_slice], in the three steps the
    method takes: the tear line and its mask, the two sides of the line,
    the flow fields. *)

Record TearLine := mkTearLine {
  fixed_x : bool;
  x0 : Z; y0 : Z; x1 : Z; y1 : Z;
  shape0 : Z; shape1 : Z;       (* the padded shape *)
  raster : array2 bool          (* the mask of the line, not yet dilated *)
}.

Definition draw_tear_line (slice_shape : list Z) (p : RngPos)
  : result (TearLine * RngPos) :=
  s0 ← tuple_get slice_shape 0;
  s1 ← tuple_get slice_shape 1;
  (* grow slice shape by 2 x deformation strength *)
  let shape0 := s0 + 2 * deformation_strength self in
  let shape1 := s1 + 2 * deformation_strength self in
  (* randomly choose fixed x or fixed y with p = 1/2 *)
  let '(r, p) := random_random E p in
  let fixed_x := Qltb r (1 # 2) in
  '(x0, y0, x1, y1, p) ←
    (if fixed_x then
       '(y0, p) ← np_random_randint E 1 (shape1 - 2) p;
       '(y1, p) ← np_random_randint E 1 (shape1 - 2) p;
       Ok (0, y0, shape0 - 1, y1, p)
     else
       '(x0, p) ← np_random_randint E 1 (shape0 - 2) p;
       '(x1, p) ← np_random_randint E 1 (shape0 - 2) p;
       Ok (x0, 0, x1, shape1 - 1, p));
  (* generate the mask of the line that should be blacked out *)
  zeros ← np_zeros false shape0 shape1;
  mask ← set_pixels zeros (draw_line L x0 y0 x1 y1) true;
  Ok (mkTearLine fixed_x x0 y0 x1 y1 shape0 shape1 mask, p).

(** The labels of the complement of the line, the label of the negative
    side and the label of the positive side. *)
Definition label_sides (tl : TearLine) : result (array2 nat * nat * nat) :=
  let '(components, n_components) := nd_label L (amap2 negb (raster tl)) in
  _ ← py_assert (bool_decide (n_components = 2%nat)) (format_i n_components);
  c_first ← index2 components 0 0;
  c_last ← index2 components (-1) (-1);
  let neg_val := if fixed_x tl then c_first else c_last in
  let pos_val := if fixed_x tl then c_last else c_first in
  Ok (components, neg_val, pos_val).

(** The unit vector of the line, turned by a quarter: [(normal_vector[0],
    normal_vector[1])]. *)
Definition normal_vector (tl : TearLine) : float * float :=
  let v0 := inject_Z (x1 tl - x0 tl) in
  let v1 := inject_Z (y1 tl - y0 tl) in
  let nrm := fnum (linalg_norm L v0 v1) in
  let line_vector0 := fdiv (fnum v0) nrm in
  let line_vector1 := fdiv (fnum v1) nrm in
  (fneg line_vector1, line_vector0).

(** [np.meshgrid(np.arange(shape[0]), np.arange(shape[1]))]: both outputs
    have [shape[1]] rows and [shape[0]] columns. *)
Definition meshgrid_x (tl : TearLine) : array2 float :=
  tab2 (Z.to_nat (shape1 tl)) (Z.to_nat (shape0 tl))
    (λ _ j, fnum (inject_Z (Z.of_nat j))).
Definition meshgrid_y (tl : TearLine) : array2 float :=
  tab2 (Z.to_nat (shape1 tl)) (Z.to_nat (shape0 tl))
    (λ i _, fnum (inject_Z (Z.of_nat i))).

(** A flow array of the padded shape: zero on the line, the strength
    times a component of the normal on the positive side, its opposite on
    the negative side (written last). *)
Definition displacement (tl : TearLine) (components : array2 nat)
    (neg_val pos_val : nat) (nv : float) : array2 float :=
  tab2 (Z.to_nat (shape0 tl)) (Z.to_nat (shape1 tl)) (λ i j,
    let c := get2 0%nat components i j in
    if decide (c = neg_val) then fmul (fnum (inject_Z (- deformation_strength self))) nv
    else if decide (c = pos_val) then fmul (fnum (inject_Z (deformation_strength self))) nv
    else fnum 0).

Definition flow_fields (tl : TearLine) (sides : array2 nat * nat * nat)
  : result Transform :=
  let '(components, neg_val, pos_val) := sides in
  let '(normal_vector0, normal_vector1) := normal_vector tl in
  (* generate the flow fields *)
  fx ← broadcast2 fadd (fnum 0) (fnum 0) (meshgrid_x tl)
         (displacement tl components neg_val pos_val normal_vector1);
  fy ← broadcast2 fadd (fnum 0) (fnum 0) (meshgrid_y tl)
         (displacement tl components neg_val pos_val normal_vector0);
  (* dilate the line mask *)
  Ok (mkTransform (ravel2 fx) (ravel2 fy) (binary_dilation L 10 (raster tl))).

Definition prepare_deform_slice (slice_shape : list Z) (p : RngPos)
  : result (Transform * RngPos) :=
  '(tl, p) ← draw_tear_line slice_shape p;
  sides ← label_sides tl;
  t ← flow_fields tl sides;
  Ok (t, p).

(** The cumulative thresholds of [prepare]. *)
Definition prob_missing_threshold : Q := prob_missing self.
Definition prob_low_contrast_threshold : Q :=
  (prob_missing_threshold + prob_low_contrast self)%Q.
Definition prob_artifact_threshold : Q :=
  (prob_low_contrast_threshold + prob_artifact self)%Q.
Definition prob_deform_slice : Q :=
  (prob_artifact_threshold + prob_deform self)%Q.

(** One iteration of the loop of [prepare] over the slice indices. *)
Definition prepare_slice (roi : Roi) (raw_voxel_size : Coordinate) (c : nat)
    (st : Plan * RngPos) : result (Plan * RngPos) :=
  let '(plan, p) := st in
  let '(r, p) := random_random E p in
  if Qltb r prob_missing_threshold then
    Ok (mkPlan (dict_set (slice_to_augmentation plan) c "zero_out")
               (deform_slice_transformations plan), p)
  else if Qltb r prob_low_contrast_threshold then
    Ok (mkPlan (dict_set (slice_to_augmentation plan) c "lower_contrast")
               (deform_slice_transformations plan), p)
  else if Qltb r prob_artifact_threshold then
    Ok (mkPlan (dict_set (slice_to_augmentation plan) c "artifact")
               (deform_slice_transformations plan), p)
  else if Qltb r prob_deform_slice then
    (* get the shape of a single slice *)
    voxels ← roi_div roi raw_voxel_size;
    let slice_shape := get_shape voxels in
    let slice_shape := take (axis self) slice_shape ++ drop (S (axis self)) slice_shape in
    '(t, p) ← prepare_deform_slice slice_shape p;
    Ok (mkPlan (dict_set (slice_to_augmentation plan) c "deformed_slice")
               (dict_set (deform_slice_transformations plan) c t), p)
  else Ok (plan, p).

Fixpoint prepare_loop (roi : Roi) (raw_voxel_size : Coordinate) (cs : list nat)
    (st : Plan * RngPos) : result (Plan * RngPos) :=
  match cs with
  | [] => Ok st
  | c :: cs' =>
      st' ← prepare_slice roi raw_voxel_size c st;
      prepare_loop roi raw_voxel_size cs' st'
  end.

(** [growth]: nothing along the cut axis, the strength in world units
    along the others. *)
Fixpoint growth_from (raw_voxel_size : Coordinate) (ds : list nat) : result Coordinate :=
  match ds with
  | [] => Ok []
  | d :: ds' =>
      g ← (if decide (d = axis self) then Ok 0
           else v ← tuple_get raw_voxel_size (Z.of_nat d);
                Ok (v * deformation_strength self));
      gs ← growth_from raw_voxel_size ds';
      Ok (g :: gs)
  end.

(** The second half of [prepare]: request a bigger upstream roi when a
    slice is deformed. *)
Definition expand_request (plan : Plan) (raw_voxel_size : Coordinate)
    (request : gmap string VolumeSpec) (spec_raw : VolumeSpec) (roi : Roi)
  : result (gmap string VolumeSpec) :=
  if bool_decide ("deformed_slice" ∈ dict_values (slice_to_augmentation plan)) then
    growth ← growth_from raw_voxel_size (seq 0 (roi_dims roi));
    source_roi ← roi_grow roi growth growth;
    Ok (<[RAW := set_roi spec_raw source_roi]> request)
  else Ok request.

(** [DefectAugment.prepare]: returns what the call leaves in [self], the
    request as mutated, and the position of the random sources. *)
Definition prepare (request : gmap string VolumeSpec) (p : RngPos)
  : result (Plan * gmap string VolumeSpec * RngPos) :=
  spec_raw ← request_get request RAW;
  self_spec_raw ← request_get (spec self) RAW;
  roi ← (match roi spec_raw with Some r => Ok r | None => Err TypeError end);
  raw_voxel_size ← (match voxel_size self_spec_raw with
                    | Some v => Ok v | None => Err TypeError end);
  voxels ← roi_div roi raw_voxel_size;
  n ← tuple_get (get_shape voxels) (Z.of_nat (axis self));
  '(plan, p) ← prepare_loop roi raw_voxel_size (seq 0 (Z.to_nat n)) (mkPlan [] [], p);
  request' ← expand_request plan raw_voxel_size request spec_raw roi;
  Ok (plan, request', p).

End Node.

Definition batch_get (batch : gmap string Volume) (k : VolumeType) : result Volume :=
  match batch !! k with Some v => Ok v | None => Err (KeyError k) end.

(** Modelled from the spec: [Batch.get_total_roi] of gunpowder/batch.py
    (absent).  The total region of a batch has the dimension of the regions
    of its volumes; it is read off the raw volume. *)
Definition get_total_roi_dims (batch : gmap string Volume) : result nat :=
  raw ← batch_get batch RAW;
  match roi (vol_spec raw) with
  | Some r => Ok (roi_dims r)
  | None => Err AttributeError
  end.

(** Modelled from the spec: [BatchRequest.add(volume_type, shape)] of
    gunpowder/batch_request.py (absent): a request for a region of the given
    shape. *)
Definition BatchRequest_add (request : gmap string VolumeSpec) (k : VolumeType)
    (shape : Coordinate) : gmap string VolumeSpec :=
  <[k := set_roi VolumeSpec_init (mkRoi ((λ _, 0) <$> shape) shape)]> request.

Definition shape_coordinate (sh : nat * nat * nat) : Coordinate :=
  let '(d, h, w) := sh in [Z.of_nat d; Z.of_nat h; Z.of_nat w].

(** The request [process] sends to the artifact source for a section: a
    RAW and an ALPHA_MASK region of the extent of the section. *)
Definition artifact_request_for (section_shape : nat * nat * nat)
    (raw_voxel_size alpha_voxel_size : option Coordinate)
  : result (gmap string VolumeSpec) :=
  rvs ← (match raw_voxel_size with Some v => Ok v | None => Err TypeError end);
  avs ← (match alpha_voxel_size with Some v => Ok v | None => Err TypeError end);
  raw_extent ← coordinate_zip Z.mul (shape_coordinate section_shape) rvs;
  alpha_extent ← coordinate_zip Z.mul (shape_coordinate section_shape) avs;
  Ok (BatchRequest_add (BatchRequest_add ∅ RAW raw_extent) ALPHA_MASK alpha_extent).

Section Process.

Variable map_coordinates : Resampler.
Variable self : DefectAugment.

Definition with_data (raw : Volume) (a : array3) : Volume :=
  mkVolume (vol_spec raw) (vol_dtype raw) a.

(** The body of the loop of [process] over the planned slices. *)
Definition process_slice (plan : Plan) (raw_voxel_size : option Coordinate) (c : nat)
    (augmentation_type : string) (raw : Volume) : result Volume :=
  let data := vol_data raw in
  let ax := axis self in
  if decide (augmentation_type = "zero_out") then
    Ok (with_data raw
          (update3 data (λ i j k v, if in_section ax c i j k then cast (vol_dtype raw) 0 else v)))
  else if decide (augmentation_type = "low_contrast") then
    let mean := section_mean data ax c in
    match vol_dtype raw with
    | UInt8 => Err TypeError      (* in-place float arithmetic on integers *)
    | _ =>
        Ok (with_data raw
              (update3 data (λ i j k v,
                 if in_section ax c i j k
                 then ((v - mean) * contrast_scale self + mean)%Q else v)))
    end
  else if decide (augmentation_type = "artifact") then
    let section := get_section data ax c in
    source ← (match artifact_source self with
              | Some src => Ok src | None => Err AttributeError end);
    alpha_spec ← request_get (provider_spec source) ALPHA_MASK;
    let alpha_voxel_size := voxel_size alpha_spec in
    _ ← py_assert (bool_decide (raw_voxel_size = alpha_voxel_size))
          "Can only alpha blend RAW with ALPHA_MASK if both have the same voxel size";
    artifact_request ← artifact_request_for (shape3 section) raw_voxel_size alpha_voxel_size;
    artifact_batch ← request_batch source artifact_request;
    artifact_alpha ← batch_get artifact_batch ALPHA_MASK;
    artifact_raw ← batch_get artifact_batch RAW;
    _ ← py_assert (bool_decide (vol_dtype artifact_raw = vol_dtype raw)) "";
    _ ← py_assert (bool_decide (vol_dtype artifact_alpha = Float32)) "";
    let alphas := elements3 (vol_data artifact_alpha) in
    _ ← (if decide (alphas = []) then Err (ValueError "zero-size array") else Ok tt);
    _ ← py_assert (forallb (λ a, Qle_bool 0 a) alphas) "";
    _ ← py_assert (forallb (λ a, Qle_bool a 1) alphas) "";
    let one_minus := update3 (vol_data artifact_alpha) (λ _ _ _ a, 1 - a)%Q in
    kept ← broadcast3 Qmult section one_minus;
    added ← broadcast3 Qmult (vol_data artifact_raw) (vol_data artifact_alpha);
    blend ← broadcast3 Qplus kept added;
    data' ← assign_section (vol_dtype raw) data ax c blend;
    Ok (with_data raw data')
  else if decide (augmentation_type = "deformed_slice") then
    let section3 := get_section data ax c in
    (* cubic if the spec is interpolatable, else nearest *)
    self_spec_raw ← request_get (spec self) RAW;
    let interpolation := if default false (interpolatable self_spec_raw) then 3%nat else 0%nat in
    (* load the deformation fields that were prepared for this slice *)
    t ← (match dict_get (deform_slice_transformations plan) c with
         | Some t => Ok t | None => Err (KeyError "") end);
    section ← (match squeeze2 section3 with
               | Some a => Ok a | None => Err RuntimeError end);
    (* apply the deformation fields *)
    let shape := shape2 section in
    section ← reshape2 shape
                (map_coordinates section (flow_y t) (flow_x t) interpolation);
    (* zero-out data below the line mask *)
    section ← zero_under (line_mask t) section;
    data' ← assign_section (vol_dtype raw) data ax c (as_plane section);
    Ok (with_data raw data')
  else Ok raw.

(** The loop of [process].  The volume is updated in place, so an
    exception leaves it as the slices before the failing one made it: the
    loop returns the volume together with the exception, if any. *)
Fixpoint process_loop (plan : Plan) (raw_voxel_size : option Coordinate)
    (items : list (nat * string)) (raw : Volume) : Volume * option error :=
  match items with
  | [] => (raw, None)
  | (c, augmentation_type) :: items' =>
      match process_slice plan raw_voxel_size c augmentation_type raw with
      | Ok raw' => process_loop plan raw_voxel_size items' raw'
      | Err e => (raw, Some e)
      end
  end.

(** [raw.data[crop]]: the cut axis whole, the other axes from
    [deformation_strength] to [-deformation_strength]. *)
Definition crop_axis {A} (d : nat) (l : list A) : list A :=
  if decide (d = axis self) then l
  else py_slice (deformation_strength self) (- deformation_strength self) l.

Definition crop_len (d n : nat) : nat :=
  if decide (d = axis self) then n
  else slice_len (deformation_strength self) (- deformation_strength self) n.

Definition crop (a : array3) : array3 :=
  let '(d, h, w) := shape3 a in
  mkArray3 (crop_len 0 d, crop_len 1 h, crop_len 2 w)
    ((λ pl : list (list Q), (λ row : list Q, crop_axis 2 row) <$> crop_axis 1 pl)
       <$> crop_axis 0 (planes a)).

(** The end of [process]: restore the original ROI and crop the data. *)
Definition restore (plan : Plan) (request : gmap string VolumeSpec) (raw : Volume)
  : result Volume :=
  if bool_decide ("deformed_slice" ∈ dict_values (slice_to_augmentation plan)) then
    request_raw ← request_get request RAW;
    let old_roi := roi request_raw in
    Ok (mkVolume
          (mkVolumeSpec old_roi (voxel_size (vol_spec raw))
             (interpolatable (vol_spec raw)) (spec_dtype (vol_spec raw)))
          (vol_dtype raw) (crop (vol_data raw)))
  else Ok raw.

(** [DefectAugment.process]: the batch as the call leaves it, and the
    exception it raises, if any. *)
Definition process (plan : Plan) (batch : gmap string Volume)
    (request : gmap string VolumeSpec) : gmap string Volume * option error :=
  match
    (dims ← get_total_roi_dims batch;
     _ ← py_assert (bool_decide (dims = 3%nat)) "defectaugment works on 3d batches only";
     raw ← batch_get batch RAW;
     self_spec_raw ← request_get (spec self) RAW;
     Ok (raw, voxel_size self_spec_raw))
  with
  | Err e => (batch, Some e)
  | Ok (raw, raw_voxel_size) =>
      match process_loop plan raw_voxel_size (slice_to_augmentation plan) raw with
      | (raw, Some e) => (<[RAW := raw]> batch, Some e)
      | (raw, None) =>
          match restore plan request raw with
          | Ok raw => (<[RAW := raw]> batch, None)
          | Err e => (<[RAW := raw]> batch, Some e)
          end
      end
  end.

End Process.

(** Modelled from the spec: [BatchFilter.provide] of
    gunpowder/nodes/batch_filter.py (absent).  [prepare] works on a copy of
    the request, the copy goes upstream, and [process] is given the batch
    together with the request as it came in, so that "the original
    (pre-growth) ROI is retained". *)
Definition provide (L : GeomLib) (map_coordinates : Resampler) (E : Entropy)
    (self : DefectAugment)
    (upstream : gmap string VolumeSpec → result (gmap string Volume))
    (request : gmap string VolumeSpec) (p : RngPos)
  : result (gmap string Volume * RngPos) :=
  '(plan, upstream_request, p) ← prepare L E self request p;
  batch ← upstream upstream_request;
  match process map_coordinates self plan batch request with
  | (batch, None) => Ok (batch, p)
  | (_, Some e) => Err e
  end.

(** ** Notions used by the properties *)

(** The classification of a draw, as the description of the plan builder
    words it: the first of the four cumulative thresholds the draw is below
    decides the kind; no kind at or above the last one. *)
Definition kind_of_draw (self : DefectAugment) (r : Q) : option string :=
  if Qltb r (prob_missing_threshold self) then Some "zero_out"
  else if Qltb r (prob_low_contrast_threshold self) then Some "lower_contrast"
  else if Qltb r (prob_artifact_threshold self) then Some "artifact"
  else if Qltb r (prob_deform_slice self) then Some "deformed_slice"
  else None.

(** An array is well formed when its rows agree with its shape. *)
Definition wf2 {A} (a : array2 A) : Prop :=
  length (rows2 a) = fst (shape2 a) ∧
  Forall (λ row, length row = snd (shape2 a)) (rows2 a).

(** The violations of the data contract of [process], with the message of
    the assertion that catches each, the slices of the plan processed
    before it is caught, and the batch as it is at that moment.  A batch
    that is not three-dimensional is caught first.  An artifact whose RAW
    type differs from the type of the volume, whose alpha mask is not
    [float32], or whose alpha mask has a value outside [0, 1], is caught
    when the loop reaches the artifact slice, after the [earlier] slices
    have been processed. *)
Inductive ContractViolation (map_coordinates : Resampler) (self : DefectAugment)
    (plan : Plan) (batch : gmap string Volume)
  : string → list (nat * string) → gmap string Volume → Prop :=
  | not_three_dimensional dims :
      get_total_roi_dims batch = Ok dims → dims ≠ 3%nat →
      ContractViolation map_coordinates self plan batch
        "defectaugment works on 3d batches only" [] batch
  | bad_artifact raw sp earlier c later raw1 source alpha_spec request
        artifact_batch alpha art :
      get_total_roi_dims batch = Ok 3%nat →
      batch !! RAW = Some raw → spec self !! RAW = Some sp →
      slice_to_augmentation plan = earlier ++ (c, "artifact") :: later →
      process_loop map_coordinates self plan (voxel_size sp) earlier raw = (raw1, None) →
      artifact_source self = Some source →
      provider_spec source !! ALPHA_MASK = Some alpha_spec →
      voxel_size alpha_spec = voxel_size sp →
      artifact_request_for (shape3 (get_section (vol_data raw1) (axis self) c))
        (voxel_size sp) (voxel_size alpha_spec) = Ok request →
      request_batch source request = Ok artifact_batch →
      artifact_batch !! ALPHA_MASK = Some alpha →
      artifact_batch !! RAW = Some art →
      (vol_dtype art ≠ vol_dtype raw ∨ vol_dtype alpha ≠ Float32 ∨
       ∃ x, x ∈ elements3 (vol_data alpha) ∧ ((x < 0)%Q ∨ (1 < x)%Q)) →
      ContractViolation map_coordinates self plan batch "" earlier
        (<[RAW := raw1]> batch).

(** The number of slices a plan holds as deformed. *)
Definition deformed_count (plan : Plan) : nat :=
  length (filter (λ kv : nat * string, kv.2 = "deformed_slice")
            (slice_to_augmentation plan)).

(** The distance between two pixels, counted in steps along the rows and
    the columns. *)
Definition manhattan (i j i' j' : nat) : nat :=
  ((i - i') + (i' - i) + ((j - j') + (j' - j)))%nat.

(** The pixels set in a mask lie inside its shape. *)
Definition within (m : array2 bool) : Prop :=
  ∀ i j, get2 false m i j = true → (i < (shape2 m).1)%nat ∧ (j < (shape2 m).2)%nat.

(** How far the crop of [process] moves the origin along an axis. *)
Definition crop_offset (self : DefectAugment) (d : nat) : nat :=
  if decide (d = axis self) then 0%nat else Z.to_nat (deformation_strength self).


(** ** Concrete runs

    A stream of the node with unit voxels, an upstream source that serves
    any requested region with the values 1, 2, ... along the last axis, 10
    apart along the second axis and 100 apart along the first, and the
    random sources and node configurations the examples below run. *)

Module Demo.

Definition stream_spec : gmap string VolumeSpec :=
  {[ RAW := mkVolumeSpec None (Some [1; 1; 1]) (Some false) (Some Float32) ]}.

Definition ramp (d h w : nat) : array3 :=
  tab3 d h w (λ i j k, inject_Z (Z.of_nat (100 * i + 10 * j + k + 1))).

Definition upstream (request : gmap string VolumeSpec) : result (gmap string Volume) :=
  s ← request_get request RAW;
  match roi s with
  | Some (mkRoi o [d; h; w]) =>
      Ok {[ RAW := mkVolume
                     (mkVolumeSpec (Some (mkRoi o [d; h; w])) (Some [1; 1; 1])
                        (Some false) (Some Float32))
                     Float32 (ramp (Z.to_nat d) (Z.to_nat h) (Z.to_nat w)) ]}
  | _ => Err TypeError
  end.

Definition request (d h w : Z) : gmap string VolumeSpec :=
  {[ RAW := mkVolumeSpec (Some (mkRoi [0; 0; 0] [d; h; w])) None None None ]}.

Definition start : RngPos := mkRngPos 0 0.

(** [random.random()] delivers the listed values, then 9/10 for ever;
    the numpy generator delivers 0, 1, 2, ... *)
Definition entropy (draws : list Q) : Entropy :=
  mkEntropy (λ n, nth n draws (9 # 10)%Q) (λ n, n).

(** No spline evaluation: the runs below are on a stream that is not
    interpolatable, which is resampled with order 0. *)
Definition no_spline : Resampler := λ _ _ _ _, [].
Definition resampler : Resampler := ndimage_map_coordinates no_spline.

Definition node (pm pl pa pd : Q) (source : option BatchProvider) (strength : Z)
  : DefectAugment :=
  mkDefectAugment pm pl pa pd (1 # 10) source strength 0 stream_spec.

(** Every slice deformed. *)
Definition deforming (strength : Z) : DefectAugment := node 0 0 0 1 None strength.

(** One slice in five of each kind. *)
Definition mixed : DefectAugment := node (1 # 5) (1 # 5) (1 # 5) (1 # 5) None 1.
Definition mixed_entropy : Entropy := entropy [1 # 10; 7 # 10; 3 # 10; 9 # 10]%Q.

Definition mixed_prepared : Plan * gmap string VolumeSpec * RngPos :=
  Eval vm_compute in
    match prepare scipy_lib mixed_entropy mixed (request 3 4 4) start with
    | Ok x => x
    | Err _ => (mkPlan [] [], ∅, start)
    end.
Definition mixed_plan : Plan := mixed_prepared.1.1.

Definition mixed_batch : gmap string Volume :=
  match upstream mixed_prepared.1.2 with Ok b => b | Err _ => ∅ end.
Definition mixed_raw : Volume :=
  mkVolume
    (mkVolumeSpec (Some (mkRoi [0; -1; -1] [3; 6; 6])) (Some [1; 1; 1])
       (Some false) (Some Float32))
    Float32 (ramp 3 6 6).


(** An artifact source whose alpha mask holds the value 2. *)
Definition opaque_source : BatchProvider :=
  mkBatchProvider
    {[ ALPHA_MASK := mkVolumeSpec None (Some [1; 1; 1]) (Some false) (Some Float32) ]}
    (λ _, Ok {[ RAW := mkVolume VolumeSpec_init Float32 (tab3 1 2 2 (λ _ _ _, 7%Q));
                ALPHA_MASK := mkVolume VolumeSpec_init Float32
                                (tab3 1 2 2 (λ _ _ _, 2%Q)) ]}).

(** The first slice missing, the second an artifact. *)
Definition blending : DefectAugment :=
  node (1 # 2) 0 (1 # 2) 0 (Some opaque_source) 1.
Definition blending_plan : Plan :=
  mkPlan [(0%nat, "zero_out"); (1%nat, "artifact")] [].
Definition small_raw : Volume :=
  mkVolume
    (mkVolumeSpec (Some (mkRoi [0; 0; 0] [2; 2; 2])) (Some [1; 1; 1])
       (Some false) (Some Float32))
    Float32 (ramp 2 2 2).
Definition small_batch : gmap string Volume := {[ RAW := small_raw ]}.

(** The tear line and the sides the generator finds on a 6 x 6 slice
    without padding, with the orientation draw 1/4. *)
Definition fixed_x_entropy : Entropy := entropy [1 # 4]%Q.

Definition drawn : TearLine * RngPos :=
  Eval vm_compute in
    match draw_tear_line scipy_lib fixed_x_entropy (deforming 0) [6; 6] start with
    | Ok x => x
    | Err _ => (mkTearLine true 0 0 0 0 0 0 (mkArray2 (0%nat, 0%nat) []), start)
    end.

Definition drawn_sides : array2 nat * nat * nat :=
  Eval vm_compute in
    match label_sides scipy_lib drawn.1 with
    | Ok x => x
    | Err _ => (mkArray2 (0%nat, 0%nat) [], 0%nat, 0%nat)
    end.


(** [small_raw] once its first slice is zeroed. *)
Definition small_raw_zeroed : Volume :=
  Eval vm_compute in
    (process_loop resampler blending blending_plan (Some [1; 1; 1])
       [(0%nat, "zero_out")] small_raw).1.

Definition artifact_request : gmap string VolumeSpec :=
  BatchRequest_add (BatchRequest_add ∅ RAW [1; 2; 2]) ALPHA_MASK [1; 2; 2].

(** A node built with the default arguments, and draws that make its
    first slice missing and its second a low-contrast slice. *)
Definition default_node : DefectAugment :=
  DefectAugment_init None None None None None None None None stream_spec.
Definition default_entropy : Entropy := entropy [1 # 100; 7 # 100]%Q.

(** Every slice a low-contrast slice. *)
Definition low_contrast_only : DefectAugment := node 0 1 0 0 None 1.

(** What [process] leaves of the batch of the mixed run. *)
Definition mixed_result : gmap string Volume :=
  Eval vm_compute in (process resampler mixed mixed_plan mixed_batch (request 3 4 4)).1.
Definition mixed_out : Volume :=
  Eval vm_compute in
    match mixed_result !! RAW with Some raw => raw | None => mixed_raw end.

(** A resampler that reads the nearest pixel for every order. *)
Definition nearest_at_every_order : Resampler := λ a ys xs _, nearest_resample a ys xs.


(** The plan of [blending] on a node that has no artifact source. *)
Definition no_source : DefectAugment := node (1 # 2) 0 (1 # 2) 0 None 1.

(** A node that cuts along the second axis, with the transformation of
    the mixed run for its slice 1, on a volume of 6 x 3 x 6 voxels. *)
Definition sideways : DefectAugment :=
  mkDefectAugment 0 0 0 1 (1 # 10) None 1 1 stream_spec.
Definition sideways_plan : Plan :=
  mkPlan [(1%nat, "deformed_slice")] (deform_slice_transformations mixed_plan).
Definition sideways_raw : Volume :=
  mkVolume
    (mkVolumeSpec (Some (mkRoi [0; 0; 0] [6; 3; 6])) (Some [1; 1; 1])
       (Some false) (Some Float32))
    Float32 (ramp 6 3 6).
Definition sideways_batch : gmap string Volume := {[ RAW := sideways_raw ]}.

(** The transformation generated for a slice of 4 x 4 pixels with a
    strength of 1. *)
Definition torn : Transform * RngPos :=
  Eval vm_compute in
    match prepare_deform_slice scipy_lib fixed_x_entropy (deforming 1) [4; 4] start with
    | Ok x => x
    | Err _ => (mkTransform [] [] (mkArray2 (0%nat, 0%nat) []), start)
    end.

End Demo.

(** ** The prediction node (gunpowder/torch/nodes/predict.py) *)

Module Torch.

(** Arrays are named by keys. *)
Abbreviation ArrayKey := string.

(** Modelled from the spec: an array of a batch is "a dense N-dimensional
    numeric sample plus its VolumeSpec"; [Array(data, spec)] of
    gunpowder/array.py, which is not part of the sources at hand, pairs the
    two.  What the constructor requires of the pair is left open: see
    [array_check] below. *)
Record Array (D : Type) := mkArray { array_data : D; array_spec : VolumeSpec }.
Arguments mkArray {D} array_data array_spec.
Arguments array_data {D} a.
Arguments array_spec {D} a.

(** [spec.roi = roi], on a spec. *)
Definition assign_roi (s : VolumeSpec) (r : option Roi) : VolumeSpec :=
  mkVolumeSpec r (voxel_size s) (interpolatable s) (spec_dtype s).

(** The keys of [outputs]: the name of a layer of the model, or an index
    in the outputs of the model; a key of another type is used by
    neither branch of [get_outputs]. *)
Inductive OutputKey := KeyStr (name : string) | KeyInt (index : Z) | KeyOther.

(** What [model.forward] returns: a tuple, or anything else. *)
Inductive ModuleOut (T : Type) := OutTuple (outs : list T) | OutOther (out : T).
Arguments OutTuple {T} outs.
Arguments OutOther {T} out.

(** A Python [dict] with string keys, in insertion order. *)
Fixpoint odict_set {V} (d : list (string * V)) (k : string) (v : V) : list (string * V) :=
  match d with
  | [] => [(k, v)]
  | (k', v') :: d' =>
      if decide (k' = k) then (k, v) :: d' else (k', v') :: odict_set d' k v
  end.

Fixpoint odict_get {V} (d : list (string * V)) (k : string) : option V :=
  match d with
  | [] => None
  | (k', v') :: d' => if decide (k' = k) then Some v' else odict_get d' k
  end.

Section Predict.

(** Tensors, the data of arrays, models and their layers belong to torch
    and numpy. *)
Variables Tensor NdArray Model Layer : Type.
Context `{EqDecision Layer}.

(** What the node uses of torch, and of the constructor of [Array].  A
    forward pass is the sequence of the layers it runs, each with its
    output, and what the model returns or raises; a layer that runs calls
    the forward hooks registered on it. *)
Record TorchLib := mkTorchLib {
  (* torch.as_tensor(np.ascontiguousarray(data)).to(device=device) *)
  as_tensor : NdArray → option string → Tensor;
  (* tensor.detach().cpu().numpy() *)
  to_numpy : Tensor → NdArray;
  (* getattr(model, name), when it is a layer a hook can be registered on *)
  getattr_layer : Model → string → option Layer;
  (* model.forward, with the inputs passed by name *)
  forward : Model → list (string * Tensor) → list (Layer * Tensor) * result (ModuleOut Tensor);
  (* the exception Array(data, spec) raises, when it rejects the pair *)
  array_check : NdArray → VolumeSpec → option error
}.

Variable T : TorchLib.

(** The attributes of the node [predict] works with: those [__init__]
    sets, the hooks it has registered on the layers of the model, each
    with the key it saves under, and [self.spec], the spec of the arrays
    the node provides. *)
Record Predict := mkPredict {
  model : Model;
  inputs : list (string * ArrayKey);
  outputs : list (OutputKey * ArrayKey);
  device : option string;
  intermediate_layers : gmap string Tensor;
  hooks : list (Layer * string);
  spec : gmap string VolumeSpec
}.

Definition with_layers (self : Predict) (layers : gmap string Tensor) : Predict :=
  mkPredict (model self) (inputs self) (outputs self) (device self) layers
    (hooks self) (spec self).

Definition with_hooks (self : Predict) (hs : list (Layer * string)) : Predict :=
  mkPredict (model self) (inputs self) (outputs self) (device self)
    (intermediate_layers self) hs (spec self).

(** [register_hooks]: one hook on the layer of every key that is a
    string. *)
Fixpoint register_hooks_loop (m : Model) (keys : list OutputKey)
    (hs : list (Layer * string)) : result (list (Layer * string)) :=
  match keys with
  | [] => Ok hs
  | KeyStr key :: keys' =>
      match getattr_layer T m key with
      | Some layer => register_hooks_loop m keys' (hs ++ [(layer, key)])
      | None => Err AttributeError
      end
  | _ :: keys' => register_hooks_loop m keys' hs
  end.

Definition register_hooks (self : Predict) : result Predict :=
  hs ← register_hooks_loop (model self) (fst <$> outputs self) (hooks self);
  Ok (with_hooks self hs).

(** The end of [__init__]: no layer saved yet, and the hooks. *)
Definition Predict_init (model : Model) (inputs : list (string * ArrayKey))
    (outputs : list (OutputKey * ArrayKey)) (spec : gmap string VolumeSpec)
  : result Predict :=
  register_hooks (mkPredict model inputs outputs None ∅ [] spec).

(** [create_hook(key)]: the hook [save_layer] keeps the output of its
    layer under [key].  A layer that runs calls its hooks in the order
    of their registration. *)
Definition save_layer (key : string) (output : Tensor) (layers : gmap string Tensor)
  : gmap string Tensor :=
  <[key := output]> layers.

Definition call_hooks (hs : list (Layer * string)) (layer : Layer) (output : Tensor)
    (layers : gmap string Tensor) : gmap string Tensor :=
  foldl (λ acc '(l, key), if decide (l = layer) then save_layer key output acc else acc)
    layers hs.

Definition run_layers (hs : list (Layer * string)) (trace : list (Layer * Tensor))
    (layers : gmap string Tensor) : gmap string Tensor :=
  foldl (λ acc '(layer, output), call_hooks hs layer output acc) layers trace.

(** [get_inputs] *)
Fixpoint get_inputs_loop (dev : option string) (items : list (string * ArrayKey))
    (batch : gmap string (Array NdArray)) : result (list (string * Tensor)) :=
  match items with
  | [] => Ok []
  | (key, value) :: items' =>
      array ← (match batch !! value with
               | Some a => Ok a | None => Err (KeyError value) end);
      rest ← get_inputs_loop dev items' batch;
      Ok ((key, as_tensor T (array_data array) dev) :: rest)
  end.

Definition get_inputs (self : Predict) (batch : gmap string (Array NdArray))
  : result (list (string * Tensor)) :=
  get_inputs_loop (device self) (inputs self) batch.

(** [get_outputs] *)
Fixpoint get_outputs_loop (self : Predict) (module_outs : list Tensor)
    (request : gmap string VolumeSpec) (items : list (OutputKey * ArrayKey))
    (outputs : list (ArrayKey * Tensor)) : result (list (ArrayKey * Tensor)) :=
  match items with
  | [] => Ok outputs
  | (key, value) :: items' =>
      if decide (is_Some (request !! value)) then
        match key with
        | KeyStr name =>
            layer ← (match intermediate_layers self !! name with
                     | Some t => Ok t | None => Err (KeyError name) end);
            get_outputs_loop self module_outs request items' (odict_set outputs value layer)
        | KeyInt index =>
            out ← tuple_get module_outs index;
            get_outputs_loop self module_outs request items' (odict_set outputs value out)
        | KeyOther => get_outputs_loop self module_outs request items' outputs
        end
      else get_outputs_loop self module_outs request items' outputs
  end.

Definition get_outputs (self : Predict) (module_out : ModuleOut Tensor)
    (request : gmap string VolumeSpec) : result (list (ArrayKey * Tensor)) :=
  let module_outs :=
    match module_out with
    | OutTuple outs => outs
    | OutOther out => [out]       (* (module_out,) *)
    end in
  get_outputs_loop self module_outs request (outputs self) [].

(** [update_batch].  The arrays of the batch are replaced one by one: an
    exception leaves those already placed. *)
Fixpoint update_batch (self : Predict) (arrays : gmap string (Array NdArray))
    (request : gmap string VolumeSpec) (requested_outputs : list (ArrayKey * Tensor))
  : gmap string (Array NdArray) * option error :=
  match requested_outputs with
  | [] => (arrays, None)
  | (array_key, tensor) :: rest =>
      match
        (own ← request_get (spec self) array_key;
         let spec := VolumeSpec_copy own in
         requested ← request_get request array_key;
         Ok (assign_roi spec (roi requested)))
      with
      | Ok spec =>
          let data := to_numpy T tensor in
          match array_check T data spec with
          | None => update_batch self (<[array_key := mkArray data spec]> arrays) request rest
          | Some e => (arrays, Some e)
          end
      | Err e => (arrays, Some e)
      end
  end.

(** [predict]: the node and the batch as the call leaves them, and the
    exception it raises, if any. *)
Definition predict (self : Predict) (batch : gmap string (Array NdArray))
    (request : gmap string VolumeSpec)
  : Predict * gmap string (Array NdArray) * option error :=
  match get_inputs self batch with
  | Err e => (self, batch, Some e)
  | Ok ins =>
      let '(trace, out) := forward T (model self) ins in
      let self := with_layers self
                    (run_layers (hooks self) trace (intermediate_layers self)) in
      match out with
      | Err e => (self, batch, Some e)
      | Ok out =>
          match get_outputs self out request with
          | Err e => (self, batch, Some e)
          | Ok outs =>
              let '(batch, e) := update_batch self batch request outs in
              (self, batch, e)
          end
      end
  end.

(** *** Notions used by the properties *)

(** What an entry of [outputs] stands for: the tensor saved for a layer,
    or an output of the model. *)
Definition resolve (self : Predict) (module_outs : list Tensor) (key : OutputKey)
  : result (option Tensor) :=
  match key with
  | KeyStr name =>
      match intermediate_layers self !! name with
      | Some t => Ok (Some t)
      | None => Err (KeyError name)
      end
  | KeyInt index => t ← tuple_get module_outs index; Ok (Some t)
  | KeyOther => Ok None
  end.

(** The outputs of the model as a tuple. *)
Definition as_tuple (module_out : ModuleOut Tensor) : list Tensor :=
  match module_out with
  | OutTuple outs => outs
  | OutOther out => [out]
  end.

(** The last output of a layer in a forward pass, if the layer ran. *)
Definition last_output (layer : Layer) (trace : list (Layer * Tensor)) : option Tensor :=
  last (snd <$> filter (λ ev : Layer * Tensor, ev.1 = layer) trace).

(** The hook [register_hooks] registers for a key of [outputs]: the layer
    of the model that has the name, with the name. *)
Definition hook_of (m : Model) (key : OutputKey) : option (Layer * string) :=
  match key with
  | KeyStr name => (λ layer, (layer, name)) <$> getattr_layer T m name
  | _ => None
  end.

(** The hooks of the node are those [__init__] registers. *)
Definition initialised (self : Predict) : Prop :=
  register_hooks_loop (model self) (fst <$> outputs self) [] = Ok (hooks self).

End Predict.

Arguments mkTorchLib {Tensor NdArray Model Layer} _ _ _ _ _.
Arguments as_tensor {Tensor NdArray Model Layer} _ _ _.
Arguments to_numpy {Tensor NdArray Model Layer} _ _.
Arguments getattr_layer {Tensor NdArray Model Layer} _ _ _.
Arguments forward {Tensor NdArray Model Layer} _ _ _.
Arguments array_check {Tensor NdArray Model Layer} _ _ _.
Arguments mkPredict {Tensor Model Layer} _ _ _ _ _ _ _.
Arguments model {Tensor Model Layer} _.
Arguments inputs {Tensor Model Layer} _.
Arguments outputs {Tensor Model Layer} _.
Arguments device {Tensor Model Layer} _.
Arguments intermediate_layers {Tensor Model Layer} _.
Arguments hooks {Tensor Model Layer} _.
Arguments spec {Tensor Model Layer} _.
Arguments with_layers {Tensor Model Layer} _ _.
Arguments with_hooks {Tensor Model Layer} _ _.
Arguments register_hooks_loop {Tensor NdArray Model Layer} T m keys hs.
Arguments register_hooks {Tensor NdArray Model Layer} T self.
Arguments Predict_init {Tensor NdArray Model Layer} T model inputs outputs spec.
Arguments save_layer {Tensor} key output layers.
Arguments call_hooks {Tensor Layer _} hs layer output layers.
Arguments run_layers {Tensor Layer _} hs trace layers.
Arguments get_inputs_loop {Tensor NdArray Model Layer} T dev items batch.
Arguments get_inputs {Tensor NdArray Model Layer} T self batch.
Arguments get_outputs_loop {Tensor Model Layer} self module_outs request items outputs.
Arguments get_outputs {Tensor Model Layer} self module_out request.
Arguments update_batch {Tensor NdArray Model Layer} T self arrays request requested_outputs.
Arguments predict {Tensor NdArray Model Layer _} T self batch request.
Arguments resolve {Tensor Model Layer} self module_outs key.
Arguments as_tuple {Tensor} module_out.
Arguments last_output {Tensor Layer _} layer trace.
Arguments initialised {Tensor NdArray Model Layer} T self.
Arguments hook_of {Tensor NdArray Model Layer} T m key.

End Torch.

(** ** A run of the prediction node *)

Module TorchDemo.
Import Torch.

(** Tensors and array data are numbers; the model has one layer, "conv",
    which computes x + 1 from the input x, and returns the pair
    (2 x, 3 x). *)
Definition lib : TorchLib Z Z unit nat :=
  mkTorchLib
    (λ a _, a)
    (λ t, t)
    (λ _ name, if decide (name = "conv") then Some 0%nat else None)
    (λ _ ins, match odict_get ins "x" with
              | Some x => ([(0%nat, x + 1)], Ok (OutTuple [2 * x; 3 * x]))
              | None => ([], Err TypeError)
              end)
    (λ _ _, None).

Definition declared : VolumeSpec :=
  mkVolumeSpec None (Some [1; 1; 1]) (Some true) (Some Float32).

Definition node_spec : gmap string VolumeSpec :=
  <["FEATURES" := declared]> (<["PRED" := declared]> ∅).

Definition node_outputs : list (OutputKey * ArrayKey) :=
  [(KeyStr "conv", "FEATURES"); (KeyInt 0, "PRED")].

Definition node : Predict Z unit nat :=
  mkPredict tt [("x", "RAW")] node_outputs None ∅ [(0%nat, "conv")] node_spec.

Definition asked : VolumeSpec :=
  mkVolumeSpec (Some (mkRoi [0; 0; 0] [2; 2; 2])) None None None.

Definition request : gmap string VolumeSpec :=
  <["FEATURES" := asked]> (<["PRED" := asked]> ∅).

Definition batch : gmap string (Array Z) :=
  <["RAW" := mkArray 5 declared]> ∅.

Definition placed : Array Z :=
  mkArray 6 (mkVolumeSpec (Some (mkRoi [0; 0; 0] [2; 2; 2])) (Some [1; 1; 1]) (Some true)
               (Some Float32)).

(** The node and the batch after [predict]. *)
Definition ran : Predict Z unit nat := with_layers node (<["conv" := 6]> ∅).

Definition outs : list (ArrayKey * Z) := [("FEATURES", 6); ("PRED", 10)].

Definition predicted : gmap string (Array Z) :=
  <["PRED" := mkArray 10 (array_spec placed)]> (<["FEATURES" := placed]> batch).

End TorchDemo.

(** * Properties *)

(** ** The result monad *)

Lemma bind_Ok {A B} (m : result A) (k : A → result B) (b : B) :
  m ≫= k = Ok b → ∃ a, m = Ok a ∧ k a = Ok b.
Proof. destruct m as [a|e]; simpl; [eauto | discriminate]. Qed.

Lemma bind_Err {A B} (m : result A) (k : A → result B) (e : error) :
  m ≫= k = Err e → m = Err e ∨ ∃ a, m = Ok a ∧ k a = Err e.
Proof. destruct m as [a|e']; simpl; [eauto | intros [= ->]; auto]. Qed.

(** Split a successful sequence of binds into its steps. *)
Ltac ok_steps H :=
  repeat match type of H with
  | (?m ≫= ?k) = Ok _ =>
      let a := fresh "a" in let Ha := fresh "Hstep" in
      apply bind_Ok in H as (a & Ha & H); simpl in H
  | (let '(_, _) := ?x in _) = Ok _ => destruct x; simpl in H
  | Ok _ = Ok _ => injection H as H
  end.

(** The same, on every hypothesis. *)
Ltac ok_inv :=
  repeat match goal with
  | H : (_ ≫= _) = Ok _ |- _ =>
      let Ha := fresh "Hstep" in
      apply bind_Ok in H as (? & Ha & H); simpl in H
  | H : (let '(_, _) := ?x in _) = Ok _ |- _ => destruct x; simpl in H
  | H : Ok _ = Ok _ |- _ => injection H as H; subst
  | H : Err _ = Ok _ |- _ => discriminate H
  end.

(** ** Comparisons and dictionaries *)

Lemma Qltb_lt (x y : Q) : Qltb x y = true ↔ (x < y)%Q.
Proof.
  unfold Qltb. rewrite negb_true_iff, <- not_true_iff_false, Qle_bool_iff.
  split; [apply Qnot_le_lt | apply Qlt_not_le].
Qed.

Lemma Qltb_ge (x y : Q) : Qltb x y = false ↔ (y <= x)%Q.
Proof. unfold Qltb. rewrite negb_false_iff. apply Qle_bool_iff. Qed.

Lemma dict_get_set {V} (d : list (nat * V)) (k k' : nat) (v : V) :
  dict_get (dict_set d k v) k' = if decide (k = k') then Some v else dict_get d k'.
Proof.
  induction d as [|[k0 v0] d IH]; simpl.
  - repeat case_decide; congruence.
  - destruct (decide (k0 = k)) as [->|Hne]; simpl.
    + repeat case_decide; congruence.
    + rewrite IH. repeat case_decide; congruence.
Qed.

(** ** Coordinates *)

Lemma coordinate_div_lookup (a b q : Coordinate) (i : nat) :
  coordinate_div a b = Ok q →
  q !! i = (x ← a !! i; y ← b !! i; Some (x / y)).
Proof.
  revert b q i. induction a as [|x a IH]; intros [|y b] q i H; simpl in H; try discriminate.
  - injection H as <-. done.
  - destruct (y =? 0); [discriminate|]. ok_steps H. subst q.
    destruct i as [|i]; simpl; [done|]. by apply IH.
Qed.



Lemma py_index_nat (n i : nat) (k : nat) :
  py_index n (Z.of_nat i) = Ok k → k = i ∧ (i < n)%nat.
Proof.
  unfold py_index. intros H.
  destruct ((0 <=? Z.of_nat i) && (Z.of_nat i <? Z.of_nat n)) eqn:Hin.
  - injection H as <-. apply andb_true_iff in Hin as [_ Hlt%Z.ltb_lt]. lia.
  - destruct ((- Z.of_nat n <=? Z.of_nat i) && (Z.of_nat i <? 0)) eqn:Hneg; [|discriminate].
    apply andb_true_iff in Hneg as [_ Hlt%Z.ltb_lt]. lia.
Qed.

Lemma tuple_get_nat {A} (t : list A) (i : nat) (a : A) :
  tuple_get t (Z.of_nat i) = Ok a → t !! i = Some a.
Proof.
  unfold tuple_get. intros H. ok_steps H.
  apply py_index_nat in Hstep as [-> _].
  destruct (t !! i); [by injection H as -> | discriminate].
Qed.

Lemma tuple_get_lookup {A} (t : list A) (i : nat) (a : A) :
  t !! i = Some a → tuple_get t (Z.of_nat i) = Ok a.
Proof.
  intros H. pose proof (lookup_lt_Some _ _ _ H) as Hlt. unfold tuple_get, py_index.
  replace (0 <=? Z.of_nat i) with true by (symmetry; apply Z.leb_le; lia).
  replace (Z.of_nat i <? Z.of_nat (length t)) with true by (symmetry; apply Z.ltb_lt; lia).
  simpl. by rewrite Nat2Z.id, H.
Qed.

(** ** The slice plan *)

Section PlanProperties.

Variable L : GeomLib.
Variable E : Entropy.
Variable self : DefectAugment.

Lemma randint_py_pos low high p v p' :
  np_random_randint E low high p = Ok (v, p') → py_pos p' = py_pos p.
Proof.
  unfold np_random_randint. destruct (low <? high); [|discriminate].
  by intros [= <- <-].
Qed.

Lemma draw_tear_line_py_pos slice_shape p tl p' :
  draw_tear_line L E self slice_shape p = Ok (tl, p') → py_pos p' = S (py_pos p).
Proof.
  unfold draw_tear_line. intros H. ok_steps H.
  destruct (Qltb _ _); ok_inv;
    repeat match goal with
    | Hr : np_random_randint _ _ _ _ = Ok _ |- _ => apply randint_py_pos in Hr
    end; simpl in *; congruence.
Qed.

Lemma prepare_deform_slice_py_pos slice_shape p t p' :
  prepare_deform_slice L E self slice_shape p = Ok (t, p') → py_pos p' = S (py_pos p).
Proof.
  unfold prepare_deform_slice. intros H. ok_steps H.
  destruct a as [tl p1]. ok_steps H. simplify_eq.
  by eapply draw_tear_line_py_pos.
Qed.

(** One iteration reads the generator at its current position, and the
    kind it records is the classification of that draw. *)
Lemma prepare_slice_spec roi v c plan p plan' p' :
  prepare_slice L E self roi v c (plan, p) = Ok (plan', p') →
  (py_pos p < py_pos p')%nat ∧
  ∀ c', dict_get (slice_to_augmentation plan') c' =
        match kind_of_draw self (py_stream E (py_pos p)) with
        | Some k => if decide (c = c') then Some k
                    else dict_get (slice_to_augmentation plan) c'
        | None => dict_get (slice_to_augmentation plan) c'
        end.
Proof.
  unfold prepare_slice, kind_of_draw, random_random. intros H.
  repeat match type of H with
  | (if ?b then _ else _) = _ => destruct b eqn:?
  end.
  - injection H as <- <-. simpl. split; [lia|]. intros c'. apply dict_get_set.
  - injection H as <- <-. simpl. split; [lia|]. intros c'. apply dict_get_set.
  - injection H as <- <-. simpl. split; [lia|]. intros c'. apply dict_get_set.
  - ok_steps H. subst plan' p'.
    apply prepare_deform_slice_py_pos in Hstep0. simpl in *.
    split; [lia|]. intros c'. apply dict_get_set.
  - injection H as <- <-. simpl. split; [lia|]. done.
Qed.

Lemma prepare_loop_spec roi v cs : ∀ plan p plan' p',
  NoDup cs →
  prepare_loop L E self roi v cs (plan, p) = Ok (plan', p') →
  (py_pos p ≤ py_pos p')%nat ∧
  (∀ c, c ∉ cs →
     dict_get (slice_to_augmentation plan') c = dict_get (slice_to_augmentation plan) c) ∧
  ∃ pos : nat → nat,
    (∀ i j, (i < j < length cs)%nat → (pos i < pos j)%nat) ∧
    ∀ i c, cs !! i = Some c →
      (py_pos p ≤ pos i < py_pos p')%nat ∧
      dict_get (slice_to_augmentation plan') c =
        match kind_of_draw self (py_stream E (pos i)) with
        | Some k => Some k
        | None => dict_get (slice_to_augmentation plan) c
        end.
Proof.
  induction cs as [|c cs IH]; intros plan p plan' p' Hnd H; simpl in H.
  - injection H as <- <-. split; [lia|]. split; [done|].
    exists (λ _, 0%nat). split; [simpl; lia|]. intros i c; by rewrite lookup_nil.
  - apply bind_Ok in H as ([plan1 p1] & Hs & H).
    apply NoDup_cons in Hnd as [Hc Hnd].
    apply prepare_slice_spec in Hs as [Hlt Hget].
    destruct (IH _ _ _ _ Hnd H) as (Hle & Hframe & pos & Hmono & Hpos).
    split; [lia|]. split.
    + intros c' Hc'. apply not_elem_of_cons in Hc' as [Hne Hc'].
      rewrite (Hframe _ Hc'), Hget.
      destruct (kind_of_draw self _); [|done]. case_decide; congruence.
    + exists (λ i, match i with O => py_pos p | S i' => pos i' end). split.
      * intros [|i] [|j] Hij; simpl in Hij; try lia.
        -- assert (cs !! j = Some (default 0%nat (cs !! j))) as Hj.
           { destruct (cs !! j) eqn:Hl; [done|]. apply lookup_ge_None in Hl. lia. }
           destruct (Hpos _ _ Hj). lia.
        -- apply Hmono. lia.
      * intros [|i] c' Hi; simpl in Hi.
        -- injection Hi as <-. split; [lia|].
           rewrite (Hframe _ Hc), Hget. destruct (kind_of_draw self _); [|done].
           by rewrite decide_True.
        -- destruct (Hpos _ _ Hi) as [Hr Hd]. split; [lia|].
           rewrite Hd, Hget.
           assert (c ≠ c') by (intros ->; apply Hc; by eapply list_elem_of_lookup_2).
           destruct (kind_of_draw self (py_stream E (pos i))); [done|].
           destruct (kind_of_draw self _); [|done]. by rewrite decide_False.
Qed.



(** *** The keys of the plan, and the runs without a deformed slice *)

Lemma dict_set_keys {V} (d : list (nat * V)) (k : nat) (v : V) :
  (dict_set d k v).*1 = if decide (k ∈ d.*1) then d.*1 else d.*1 ++ [k].
Proof.
  induction d as [|[k0 v0] d IH]; csimpl; [done|].
  destruct (decide (k0 = k)) as [->|Hne]; csimpl.
  - rewrite decide_True by left. done.
  - rewrite IH. destruct (decide (k ∈ d.*1)) as [Hin|Hout].
    + rewrite decide_True by (by right). done.
    + rewrite decide_False; [done|]. intros [?|?]%elem_of_cons; congruence.
Qed.

Lemma dict_set_NoDup {V} (d : list (nat * V)) (k : nat) (v : V) :
  NoDup d.*1 → NoDup (dict_set d k v).*1.
Proof.
  intros Hnd. rewrite dict_set_keys. case_decide; [done|].
  apply NoDup_app. split_and!; [done| |apply NoDup_singleton].
  intros x Hx ->%list_elem_of_singleton. done.
Qed.

Lemma dict_set_values {V} (d : list (nat * V)) (k : nat) (v v' : V) :
  v' ∈ dict_values (dict_set d k v) → v' = v ∨ v' ∈ dict_values d.
Proof.
  unfold dict_values. induction d as [|[k0 v0] d IH]; csimpl.
  - intros ->%list_elem_of_singleton. by left.
  - destruct (decide (k0 = k)); csimpl.
    + intros [->|Hin]%elem_of_cons; [by left|]. right. by right.
    + intros [->|Hin]%elem_of_cons; [right; left|].
      destruct (IH Hin) as [->|Hd]; [by left|]. right. by right.
Qed.

(** The keys of a plan are distinct, and they are slice indices the loop
    has visited. *)
Lemma prepare_loop_keys roi v cs : ∀ plan p plan' p',
  prepare_loop L E self roi v cs (plan, p) = Ok (plan', p') →
  NoDup (slice_to_augmentation plan).*1 →
  NoDup (slice_to_augmentation plan').*1 ∧
  ∀ k, k ∈ (slice_to_augmentation plan').*1 →
    k ∈ (slice_to_augmentation plan).*1 ∨ k ∈ cs.
Proof.
  induction cs as [|c cs IH]; intros plan p plan' p' H Hnd; simpl in H.
  - injection H as <- <-. auto.
  - apply bind_Ok in H as ([plan1 p1] & Hs & H).
    assert (NoDup (slice_to_augmentation plan1).*1 ∧
            ∀ k, k ∈ (slice_to_augmentation plan1).*1 →
              k ∈ (slice_to_augmentation plan).*1 ∨ k = c) as [Hnd1 Hk1].
    { unfold prepare_slice, random_random in Hs.
      assert (∀ kind, NoDup (dict_set (slice_to_augmentation plan) c kind).*1 ∧
                ∀ k, k ∈ (dict_set (slice_to_augmentation plan) c (kind : string)).*1 →
                  k ∈ (slice_to_augmentation plan).*1 ∨ k = c) as Hset.
      { intros kind. split; [by apply dict_set_NoDup|].
        intros k. rewrite dict_set_keys. case_decide; [auto|].
        intros [? | ->%list_elem_of_singleton]%elem_of_app; auto. }
      repeat match type of Hs with
      | (if ?b then _ else _) = _ => destruct b
      end; ok_steps Hs; simplify_eq; simpl; auto. }
    destruct (IH _ _ _ _ H Hnd1) as [Hnd' Hk']. split; [done|].
    intros k Hk. destruct (Hk' k Hk) as [Hin|Hin]; [|right; by right].
    destruct (Hk1 k Hin) as [Hold|Heq]; [by left|]. subst k. right; left.
Qed.

Lemma prepare_plan_keys request p plan request' p' :
  prepare L E self request p = Ok (plan, request', p') →
  NoDup (slice_to_augmentation plan).*1.
Proof.
  unfold prepare. intros H. ok_steps H. subst.
  match goal with
  | Hl : prepare_loop _ _ _ _ _ _ _ = Ok _ |- _ =>
      apply prepare_loop_keys in Hl as [Hnd _]; [done|constructor]
  end.
Qed.

(** Without a draw in the interval of the deformed slices the loop calls
    no generator and always returns. *)
Lemma prepare_loop_total roi v cs : ∀ plan p,
  (∀ k, kind_of_draw self (py_stream E k) ≠ Some "deformed_slice") →
  "deformed_slice" ∉ dict_values (slice_to_augmentation plan) →
  ∃ plan' p', prepare_loop L E self roi v cs (plan, p) = Ok (plan', p') ∧
    "deformed_slice" ∉ dict_values (slice_to_augmentation plan').
Proof.
  induction cs as [|c cs IH]; intros plan p Hno Hplan; [simpl; eauto|].
  change (prepare_loop L E self roi v (c :: cs) (plan, p))
    with (prepare_slice L E self roi v c (plan, p) ≫= prepare_loop L E self roi v cs).
  assert (∃ plan1 p1, prepare_slice L E self roi v c (plan, p) = Ok (plan1, p1) ∧
            "deformed_slice" ∉ dict_values (slice_to_augmentation plan1))
    as (plan1 & p1 & -> & Hplan1).
  { specialize (Hno (py_pos p)). unfold kind_of_draw in Hno.
    unfold prepare_slice, random_random.
    repeat match goal with
    | |- context [if ?b then _ else _] => destruct b
    end; try done; eexists _, _; (split; [done|]); simpl; try done;
      intros [?|?]%dict_set_values; done. }
  simpl. by apply IH.
Qed.

Lemma prepare_total_without_deformed_slice request p spec_raw r sp v voxels extent :
  request !! RAW = Some spec_raw → roi spec_raw = Some r →
  spec self !! RAW = Some sp → voxel_size sp = Some v →
  roi_div r v = Ok voxels → roi_shape voxels !! axis self = Some extent →
  (∀ k, kind_of_draw self (py_stream E k) ≠ Some "deformed_slice") →
  ∃ plan p', prepare L E self request p = Ok (plan, request, p').
Proof.
  intros Hreq Hroi Hsp Hv Hdiv Hext Hno. unfold prepare, request_get.
  rewrite Hreq, Hsp. simpl. rewrite Hroi, Hv. simpl. rewrite Hdiv. simpl.
  unfold get_shape. rewrite (tuple_get_lookup _ _ _ Hext). simpl.
  destruct (prepare_loop_total r v (seq 0 (Z.to_nat extent)) (mkPlan [] []) p Hno)
    as (plan & p' & -> & Hplan); [apply not_elem_of_nil|].
  simpl. unfold expand_request. rewrite bool_decide_eq_false_2 by done. simpl. eauto.
Qed.

End PlanProperties.

(** ** The request expander *)

Section ExpanderProperties.

Variable L : GeomLib.
Variable E : Entropy.
Variable self : DefectAugment.



End ExpanderProperties.

(** ** Arrays *)

Lemma lookup2_tab2 {A} (h w : nat) (f : nat → nat → A) (i j : nat) :
  (i < h)%nat → (j < w)%nat → lookup2 (tab2 h w f) i j = Some (f i j).
Proof.
  intros Hi Hj. unfold lookup2, tab2. simpl.
  rewrite list_lookup_fmap, lookup_seq_lt by done. simpl.
  rewrite list_lookup_fmap, lookup_seq_lt by done. done.
Qed.

Lemma get2_tab2 {A} (d : A) (h w : nat) (f : nat → nat → A) (i j : nat) :
  (i < h)%nat → (j < w)%nat → get2 d (tab2 h w f) i j = f i j.
Proof. intros Hi Hj. unfold get2. by rewrite lookup2_tab2. Qed.

Lemma ravel2_tab2_length {A} (h w : nat) (f : nat → nat → A) :
  length (ravel2 (tab2 h w f)) = (h * w)%nat.
Proof.
  unfold ravel2, tab2. simpl. generalize 0%nat at 2 as a.
  induction h as [|h IH]; intros a; simpl; [done|].
  rewrite length_app, length_fmap, length_seq, IH. done.
Qed.

(** Two tabulated arrays that are related pointwise are related as
    sequences of elements. *)
Lemma ravel2_tab2_Forall2 {A B} (R : A → B → Prop) (h w : nat)
    (f : nat → nat → A) (g : nat → nat → B) :
  (∀ i j, (i < h)%nat → (j < w)%nat → R (f i j) (g i j)) →
  Forall2 R (ravel2 (tab2 h w f)) (ravel2 (tab2 h w g)).
Proof.
  intros Hfg. unfold ravel2, tab2. simpl.
  assert (∀ rows : list nat, Forall (λ i, (i < h)%nat) rows →
            Forall2 R (concat ((λ i, (λ j, f i j) <$> seq 0 w) <$> rows))
                      (concat ((λ i, (λ j, g i j) <$> seq 0 w) <$> rows))) as Hrows.
  { induction 1 as [|i rows Hi _ IH]; simpl; [constructor|].
    apply Forall2_app; [|done].
    apply Forall2_fmap, Forall_Forall2_diag, Forall_forall.
    intros j Hj%elem_of_seq. apply Hfg; [done|lia]. }
  apply Hrows, Forall_forall. intros i Hi%elem_of_seq. lia.
Qed.

Lemma broadcast_dim_same (n : nat) : broadcast_dim n n = Some n.
Proof. unfold broadcast_dim. by rewrite decide_True. Qed.

Lemma broadcast_dim_None (a b : nat) :
  broadcast_dim a b = None ↔ a ≠ b ∧ a ≠ 1%nat ∧ b ≠ 1%nat.
Proof.
  unfold broadcast_dim.
  repeat case_decide;
    (split; [intros ?; try discriminate; lia | intros (? & ? & ?); first [done | lia]]).
Qed.

Lemma broadcast_ix_lt (n i : nat) : (i < n)%nat → broadcast_ix n i = i.
Proof. unfold broadcast_ix. case_decide; lia. Qed.

Lemma zip_with_ravel2_tab2 {A B C} (f : A → B → C) (h w : nat)
    (F : nat → nat → A) (G : nat → nat → B) :
  zip_with f (ravel2 (tab2 h w F)) (ravel2 (tab2 h w G)) =
  ravel2 (tab2 h w (λ i j, f (F i j) (G i j))).
Proof.
  unfold ravel2, tab2. cbn [rows2]. generalize (seq 0 h) as rows.
  induction rows as [|i rows IH]; csimpl; [done|].
  rewrite zip_with_app by (by rewrite !length_fmap).
  rewrite IH. f_equal.
  generalize (seq 0 w) as cols. induction cols as [|j cols IHc]; csimpl; [done|].
  by rewrite IHc.
Qed.

Lemma ravel2_tab2_ext {A} (h w : nat) (f g : nat → nat → A) :
  (∀ i j, (i < h)%nat → (j < w)%nat → f i j = g i j) →
  ravel2 (tab2 h w f) = ravel2 (tab2 h w g).
Proof.
  intros Hfg. apply list_eq_Forall2. by apply ravel2_tab2_Forall2.
Qed.

Lemma tab2_get2 {A} (d : A) (a : array2 A) :
  wf2 a → tab2 (fst (shape2 a)) (snd (shape2 a)) (get2 d a) = a.
Proof.
  destruct a as [[h w] rows]. unfold wf2, tab2, get2, lookup2. simpl.
  intros [Hlen Hrows]. f_equal. subst h.
  apply list_eq. intros i. rewrite list_lookup_fmap.
  destruct (rows !! i) as [row|] eqn:Hi.
  - rewrite lookup_seq_lt by (by eapply lookup_lt_Some). simpl. f_equal.
    assert (length row = w) as Hw
      by (eapply Forall_forall in Hrows; [done|by eapply list_elem_of_lookup_2]).
    apply list_eq. intros j. rewrite list_lookup_fmap.
    destruct (row !! j) as [x|] eqn:Hj.
    + rewrite lookup_seq_lt by (rewrite <- Hw; by eapply lookup_lt_Some). simpl.
      rewrite Hi. simpl. by rewrite Hj.
    + rewrite lookup_seq_ge; [done|]. apply lookup_ge_None in Hj. lia.
  - rewrite lookup_seq_ge; [done|]. by apply lookup_ge_None in Hi.
Qed.

Lemma Qfloor_half (z : Z) (y : Q) : (y == inject_Z z)%Q → Qfloor (y + (1 # 2)) = z.
Proof.
  intros Hy. rewrite (Qfloor_comp _ (inject_Z z + (1 # 2))%Q) by (by rewrite Hy).
  unfold Qfloor, Qplus, inject_Z. simpl. Z.div_mod_to_equations. lia.
Qed.

(** Reading the nearest pixel at an integer position inside the array
    reads that pixel. *)
Lemma nearest_sample_at (a : array2 Q) (y x : float) (i j : nat) :
  feq y (fnum (inject_Z (Z.of_nat i))) → feq x (fnum (inject_Z (Z.of_nat j))) →
  (i < fst (shape2 a))%nat → (j < snd (shape2 a))%nat →
  nearest_sample a y x = get2 0%Q a i j.
Proof.
  intros Hy Hx Hi Hj. destruct y as [y|], x as [x|]; try done. simpl in Hy, Hx.
  unfold nearest_sample. rewrite (Qfloor_half _ _ Hy), (Qfloor_half _ _ Hx).
  destruct (shape2 a) as [h w]. simpl in Hi, Hj.
  rewrite !Nat2Z.id.
  replace (0 <=? Z.of_nat i) with true by (symmetry; apply Z.leb_le; lia).
  replace (Z.of_nat i <? Z.of_nat h) with true by (symmetry; apply Z.ltb_lt; lia).
  replace (0 <=? Z.of_nat j) with true by (symmetry; apply Z.leb_le; lia).
  replace (Z.of_nat j <? Z.of_nat w) with true by (symmetry; apply Z.ltb_lt; lia).
  done.
Qed.

(** Order 0 of the resampler, outside the array: the constant 0. *)
Lemma nearest_sample_outside (a : array2 Q) (y x : Q) :
  (y < - (1 # 2) ∨ inject_Z (Z.of_nat (shape2 a).1) - (1 # 2) <= y ∨
   x < - (1 # 2) ∨ inject_Z (Z.of_nat (shape2 a).2) - (1 # 2) <= x)%Q →
  nearest_sample a (Some y) (Some x) = 0%Q.
Proof.
  intros Hout. unfold nearest_sample. destruct (shape2 a) as [h w]. simpl in Hout.
  assert (∀ (q : Q) (n : nat),
            (q < - (1 # 2) ∨ inject_Z (Z.of_nat n) - (1 # 2) <= q)%Q →
            (0 <=? Qfloor (q + (1 # 2))) && (Qfloor (q + (1 # 2)) <? Z.of_nat n) = false)
    as Hdim.
  { intros q n [Hlow|Hhigh]; apply andb_false_iff.
    - left. apply Z.leb_gt.
      assert (Qfloor (q + (1 # 2)) < 0); [|lia].
      apply Z.lt_nge. intros Hge.
      assert (inject_Z 0 <= q + (1 # 2))%Q as Hq.
      { eapply Qle_trans; [|apply Qfloor_le]. by rewrite <- Zle_Qle. }
      change (inject_Z 0) with 0%Q in Hq. lra.
    - right. apply Z.ltb_ge.
      assert (inject_Z (Z.of_nat n) <= q + (1 # 2))%Q as Hq by lra.
      apply Qfloor_resp_le in Hq. by rewrite Qfloor_Z in Hq. }
  rewrite <- (andb_assoc _ (0 <=? Qfloor (x + (1 # 2)))).
  destruct Hout as [Hy|[Hy|[Hx|Hx]]].
  - rewrite (Hdim y h) by auto. done.
  - rewrite (Hdim y h) by auto. done.
  - rewrite (Hdim x w) by auto. by rewrite andb_false_r.
  - rewrite (Hdim x w) by auto. by rewrite andb_false_r.
Qed.

(** ** The flow-field generator *)

Section GeneratorProperties.

Variable L : GeomLib.
Variable E : Entropy.
Variable self : DefectAugment.

Lemma py_assert_Ok cond msg : py_assert cond msg = Ok tt ↔ cond = true.
Proof. destruct cond; simpl; split; congruence. Qed.

Lemma index2_error {A} (a : array2 A) i j e : index2 a i j = Err e → e = IndexError.
Proof.
  unfold index2, py_index. intros H.
  repeat match type of H with
  | context [if ?b then _ else _] => destruct b; simpl in H
  | context [match ?o with Some _ => _ | None => _ end] => destruct o; simpl in H
  end; congruence.
Qed.

Lemma broadcast2_error {A B C} (f : A → B → C) da db a b e :
  broadcast2 f da db a b = Err e →
  e = ValueError "operands could not be broadcast together".
Proof.
  unfold broadcast2. destruct (shape2 a) as [ha wa], (shape2 b) as [hb wb].
  destruct (broadcast_dim ha hb), (broadcast_dim wa wb); congruence.
Qed.

Lemma flow_fields_error tl sides e :
  flow_fields L self tl sides = Err e →
  e = ValueError "operands could not be broadcast together".
Proof.
  unfold flow_fields. destruct sides as [[components neg_val] pos_val].
  destruct (normal_vector L tl) as [nv0 nv1]. intros H.
  apply bind_Err in H as [H|(fx & _ & H)]; [by eapply broadcast2_error|].
  apply bind_Err in H as [H|(fy & _ & H)]; [by eapply broadcast2_error|].
  discriminate.
Qed.

Lemma label_sides_error tl e :
  label_sides L tl = Err e →
  (snd (nd_label L (amap2 negb (raster tl))) ≠ 2%nat ∧
   e = AssertionError (format_i (snd (nd_label L (amap2 negb (raster tl)))))) ∨
  (snd (nd_label L (amap2 negb (raster tl))) = 2%nat ∧ e = IndexError).
Proof.
  unfold label_sides.
  destruct (nd_label L (amap2 negb (raster tl))) as [components n]. simpl snd.
  intros H. apply bind_Err in H as [H|(u & Hu & H)].
  - left. unfold py_assert in H. case_bool_decide; [discriminate|].
    by injection H as <-.
  - right. destruct u. apply py_assert_Ok, bool_decide_eq_true in Hu. split; [done|].
    apply bind_Err in H as [H|(c1 & _ & H)]; [by eapply index2_error|].
    apply bind_Err in H as [H|(c2 & _ & H)]; [by eapply index2_error|].
    discriminate.
Qed.

Lemma prepare_deform_slice_steps slice_shape p tl p1 :
  draw_tear_line L E self slice_shape p = Ok (tl, p1) →
  prepare_deform_slice L E self slice_shape p =
  (sides ← label_sides L tl; t ← flow_fields L self tl sides; Ok (t, p1)).
Proof. intros H. unfold prepare_deform_slice. by rewrite H. Qed.


(** *** The endpoints of the tear line *)

Lemma randint_value_iff (low high v : Z) (raw : nat) :
  low < high →
  randint_value low high raw = v ↔
  (low <= v < high ∧ Z.of_nat raw mod (high - low) = v - low).
Proof.
  intros Hlh. unfold randint_value.
  pose proof (Z.mod_pos_bound (Z.of_nat raw) (high - low)). lia.
Qed.

Lemma randint_Ok low high p v p' :
  np_random_randint E low high p = Ok (v, p') →
  low < high ∧ v = randint_value low high (np_stream E (np_pos p)) ∧
  p' = mkRngPos (py_pos p) (S (np_pos p)).
Proof.
  unfold np_random_randint. destruct (low <? high) eqn:Hlt; [|discriminate].
  intros [= <- <-]. apply Z.ltb_lt in Hlt. done.
Qed.

(** What [draw_tear_line] draws: the orientation from the next value of
    [random.random()], then the two free coordinates from the next two
    values of the numpy generator. *)
Lemma draw_tear_line_endpoints slice_shape p tl p1 :
  draw_tear_line L E self slice_shape p = Ok (tl, p1) →
  fixed_x tl = Qltb (py_stream E (py_pos p)) (1 # 2) ∧
  p1 = mkRngPos (S (py_pos p)) (S (S (np_pos p))) ∧
  (fixed_x tl = true →
     1 < shape1 tl - 2 ∧ x0 tl = 0 ∧ x1 tl = shape0 tl - 1 ∧
     y0 tl = randint_value 1 (shape1 tl - 2) (np_stream E (np_pos p)) ∧
     y1 tl = randint_value 1 (shape1 tl - 2) (np_stream E (S (np_pos p)))) ∧
  (fixed_x tl = false →
     1 < shape0 tl - 2 ∧ y0 tl = 0 ∧ y1 tl = shape1 tl - 1 ∧
     x0 tl = randint_value 1 (shape0 tl - 2) (np_stream E (np_pos p)) ∧
     x1 tl = randint_value 1 (shape0 tl - 2) (np_stream E (S (np_pos p)))).
Proof.
  unfold draw_tear_line, random_random. intros H. ok_steps H.
  destruct (Qltb _ _) eqn:Hfx; ok_inv;
    repeat match goal with
    | Hr : np_random_randint _ _ _ _ = Ok _ |- _ =>
        apply randint_Ok in Hr as (? & ? & ?)
    end; subst; simpl in *; split_and!; try done; intros; split_and!; done.
Qed.

Lemma draw_tear_line_shape slice_shape p tl p1 :
  draw_tear_line L E self slice_shape p = Ok (tl, p1) →
  ∃ s0 s1, slice_shape !! 0%nat = Some s0 ∧ slice_shape !! 1%nat = Some s1 ∧
    shape0 tl = s0 + 2 * deformation_strength self ∧
    shape1 tl = s1 + 2 * deformation_strength self ∧
    0 <= shape0 tl ∧ 0 <= shape1 tl ∧
    shape2 (raster tl) = (Z.to_nat (shape0 tl), Z.to_nat (shape1 tl)).
Proof.
  unfold draw_tear_line, random_random. intros H. ok_steps H.
  apply (tuple_get_nat _ 0%nat) in Hstep. apply (tuple_get_nat _ 1%nat) in Hstep0.
  exists a, a0.
  assert (∀ (m : array2 bool) pts m', set_pixels m pts true = Ok m' →
            shape2 m' = shape2 m) as Hset.
  { intros m pts. revert m. induction pts as [|[rr cc] pts IH]; intros m m' Hm; simpl in Hm.
    - by injection Hm as <-.
    - ok_steps Hm. by rewrite (IH _ _ Hm). }
  destruct (Qltb _ _); ok_inv; simpl;
    unfold np_zeros in *;
    match goal with
    | Hz : (if ?b then _ else _) = Ok _ |- _ =>
        destruct b eqn:Hneg; [discriminate|]; injection Hz as <-
    end;
    apply orb_false_iff in Hneg as [?%Z.ltb_ge ?%Z.ltb_ge];
    match goal with
    | Hs : set_pixels _ _ _ = Ok _ |- _ => apply Hset in Hs; rewrite Hs
    end; split_and!; done.
Qed.

(** C8, as amended.  The orientation of the tear line is fixed-x exactly
    when the draw of [random.random()] is below 1/2.  Each free
    coordinate of an endpoint is [1 + raw mod (dim - 3)] for the next raw
    value of the numpy generator, [dim] being the padded length of the
    axis it lies on: it ranges over the integers from 1 to [dim - 3],
    every one of them is drawn for exactly one residue of the raw value,
    and the values 0, [dim - 2] and [dim - 1] are never drawn. *)
Theorem tear_line_endpoints_half_open slice_shape p tl p1 :
  draw_tear_line L E self slice_shape p = Ok (tl, p1) →
  (fixed_x tl = true ↔ (py_stream E (py_pos p) < 1 # 2)%Q) ∧
  (fixed_x tl = true →
     x0 tl = 0 ∧ x1 tl = shape0 tl - 1 ∧
     1 <= y0 tl <= shape1 tl - 3 ∧ 1 <= y1 tl <= shape1 tl - 3 ∧
     ∀ v, 1 <= v <= shape1 tl - 3 →
       (y0 tl = v ↔ Z.of_nat (np_stream E (np_pos p)) mod (shape1 tl - 3) = v - 1) ∧
       (y1 tl = v ↔ Z.of_nat (np_stream E (S (np_pos p))) mod (shape1 tl - 3) = v - 1)) ∧
  (fixed_x tl = false →
     y0 tl = 0 ∧ y1 tl = shape1 tl - 1 ∧
     1 <= x0 tl <= shape0 tl - 3 ∧ 1 <= x1 tl <= shape0 tl - 3 ∧
     ∀ v, 1 <= v <= shape0 tl - 3 →
       (x0 tl = v ↔ Z.of_nat (np_stream E (np_pos p)) mod (shape0 tl - 3) = v - 1) ∧
       (x1 tl = v ↔ Z.of_nat (np_stream E (S (np_pos p))) mod (shape0 tl - 3) = v - 1)).
Proof.
  intros H. apply draw_tear_line_endpoints in H as (Hfx & _ & Hx & Hy).
  split; [rewrite Hfx; apply Qltb_lt|]. split.
  - intros Ht. destruct (Hx Ht) as (Hdim & -> & -> & Hy0 & Hy1).
    pose proof (proj1 (randint_value_iff 1 (shape1 tl - 2) _ _ Hdim) (eq_sym Hy0)).
    pose proof (proj1 (randint_value_iff 1 (shape1 tl - 2) _ _ Hdim) (eq_sym Hy1)).
    split_and!; try lia. intros v Hv. rewrite Hy0, Hy1.
    rewrite !(randint_value_iff 1 (shape1 tl - 2)) by done.
    replace (shape1 tl - 2 - 1) with (shape1 tl - 3) by lia. split; split; try tauto; lia.
  - intros Hf. destruct (Hy Hf) as (Hdim & -> & -> & Hx0 & Hx1).
    pose proof (proj1 (randint_value_iff 1 (shape0 tl - 2) _ _ Hdim) (eq_sym Hx0)).
    pose proof (proj1 (randint_value_iff 1 (shape0 tl - 2) _ _ Hdim) (eq_sym Hx1)).
    split_and!; try lia. intros v Hv. rewrite Hx0, Hx1.
    rewrite !(randint_value_iff 1 (shape0 tl - 2)) by done.
    replace (shape0 tl - 2 - 1) with (shape0 tl - 3) by lia. split; split; try tauto; lia.
Qed.

(** *** The addition of the meshgrid and the displacement *)

(** The meshgrid has the transposed shape of the displacement; the
    addition goes through when numpy can broadcast the two. *)
Lemma flow_fields_broadcast tl components neg_val pos_val :
  flow_fields L self tl (components, neg_val, pos_val) =
  match broadcast_dim (Z.to_nat (shape1 tl)) (Z.to_nat (shape0 tl)),
        broadcast_dim (Z.to_nat (shape0 tl)) (Z.to_nat (shape1 tl)) with
  | Some h, Some w =>
      let add (m d : array2 float) :=
        tab2 h w (λ i j,
          fadd (get2 (fnum 0) m (broadcast_ix (Z.to_nat (shape1 tl)) i)
                                (broadcast_ix (Z.to_nat (shape0 tl)) j))
               (get2 (fnum 0) d (broadcast_ix (Z.to_nat (shape0 tl)) i)
                                (broadcast_ix (Z.to_nat (shape1 tl)) j))) in
      Ok (mkTransform
            (ravel2 (add (meshgrid_x tl)
                       (displacement self tl components neg_val pos_val
                          (snd (normal_vector L tl)))))
            (ravel2 (add (meshgrid_y tl)
                       (displacement self tl components neg_val pos_val
                          (fst (normal_vector L tl)))))
            (binary_dilation L 10 (raster tl)))
  | _, _ => Err (ValueError "operands could not be broadcast together")
  end.
Proof.
  unfold flow_fields. destruct (normal_vector L tl) as [nv0 nv1]. simpl fst. simpl snd.
  unfold broadcast2, meshgrid_x, meshgrid_y, displacement. simpl shape2.
  cbv beta iota zeta.
  destruct (broadcast_dim (Z.to_nat (shape1 tl)) (Z.to_nat (shape0 tl))) as [h|];
    destruct (broadcast_dim (Z.to_nat (shape0 tl)) (Z.to_nat (shape1 tl))) as [w|];
    done.
Qed.

Lemma flow_fields_mismatch tl sides :
  Z.to_nat (shape0 tl) ≠ Z.to_nat (shape1 tl) →
  Z.to_nat (shape0 tl) ≠ 1%nat → Z.to_nat (shape1 tl) ≠ 1%nat →
  flow_fields L self tl sides =
  Err (ValueError "operands could not be broadcast together").
Proof.
  intros H01 H0 H1. destruct sides as [[components neg_val] pos_val].
  rewrite flow_fields_broadcast.
  assert (broadcast_dim (Z.to_nat (shape1 tl)) (Z.to_nat (shape0 tl)) = None) as ->
    by (apply broadcast_dim_None; split_and!; congruence).
  done.
Qed.

Lemma flow_fields_compatible tl sides :
  Z.to_nat (shape0 tl) = Z.to_nat (shape1 tl) ∨
  Z.to_nat (shape0 tl) = 1%nat ∨ Z.to_nat (shape1 tl) = 1%nat →
  ∃ t, flow_fields L self tl sides = Ok t ∧
    line_mask t = binary_dilation L 10 (raster tl) ∧
    length (flow_x t) =
      (if decide (Z.to_nat (shape0 tl) = 1%nat)
       then Z.to_nat (shape1 tl) * Z.to_nat (shape1 tl)
       else Z.to_nat (shape0 tl) * Z.to_nat (shape0 tl))%nat ∧
    length (flow_y t) = length (flow_x t).
Proof.
  intros Hc. destruct sides as [[components neg_val] pos_val].
  rewrite flow_fields_broadcast.
  destruct (broadcast_dim (Z.to_nat (shape1 tl)) (Z.to_nat (shape0 tl))) as [h|] eqn:Hh;
    [|apply broadcast_dim_None in Hh; lia].
  destruct (broadcast_dim (Z.to_nat (shape0 tl)) (Z.to_nat (shape1 tl))) as [w|] eqn:Hw;
    [|apply broadcast_dim_None in Hw; lia].
  eexists. split; [done|]. simpl. rewrite !ravel2_tab2_length.
  split_and!; [done| |done].
  unfold broadcast_dim in Hh, Hw.
  repeat case_decide; try discriminate;
    injection Hh as <-; injection Hw as <-; congruence.
Qed.

Lemma prepare_deform_slice_Ok slice_shape p t p' :
  prepare_deform_slice L E self slice_shape p = Ok (t, p') →
  ∃ tl sides, draw_tear_line L E self slice_shape p = Ok (tl, p') ∧
    label_sides L tl = Ok sides ∧ flow_fields L self tl sides = Ok t.
Proof.
  unfold prepare_deform_slice. intros H.
  apply bind_Ok in H as ([tl p1] & Hd & H).
  apply bind_Ok in H as (sides & Hl & H).
  apply bind_Ok in H as (t' & Hf & H). injection H as -> ->. eauto.
Qed.

(** The generator returns only on a padded shape that is square or has a
    length of 1. *)
Lemma generation_needs_broadcastable_shape slice_shape p t p' :
  prepare_deform_slice L E self slice_shape p = Ok (t, p') →
  ∃ s0 s1, slice_shape !! 0%nat = Some s0 ∧ slice_shape !! 1%nat = Some s1 ∧
    (s0 + 2 * deformation_strength self = s1 + 2 * deformation_strength self ∨
     s0 + 2 * deformation_strength self = 1 ∨
     s1 + 2 * deformation_strength self = 1).
Proof.
  intros (tl & sides & Hdraw & _ & Hflow)%prepare_deform_slice_Ok.
  destruct (draw_tear_line_shape _ _ _ _ Hdraw)
    as (s0 & s1 & Hs0 & Hs1 & H0eq & H1eq & Hn0 & Hn1 & _).
  exists s0, s1. split_and!; [done..|]. rewrite <- H0eq, <- H1eq.
  destruct (decide (Z.to_nat (shape0 tl) = Z.to_nat (shape1 tl))) as [?|H01]; [lia|].
  destruct (decide (Z.to_nat (shape0 tl) = 1%nat)) as [?|H0]; [lia|].
  destruct (decide (Z.to_nat (shape1 tl) = 1%nat)) as [?|H1]; [lia|].
  rewrite (flow_fields_mismatch tl sides H01 H0 H1) in Hflow. discriminate.
Qed.

(** C10, as amended.  Once the line is drawn and its two sides are
    labelled, the generator adds the meshgrid, which has the padded
    shape transposed, to the displacement.  If the padded shape is not
    square and neither of its lengths is 1 the addition fails and the
    generator raises a [ValueError]; if it is square, or one of its
    lengths is 1, numpy broadcasts the two arrays and the generator
    returns flow fields, which have as many entries as a square whose
    side is the length that is not 1. *)
Theorem flow_fields_need_broadcastable_shape slice_shape p tl p1 sides :
  draw_tear_line L E self slice_shape p = Ok (tl, p1) →
  label_sides L tl = Ok sides →
  (shape0 tl ≠ shape1 tl → shape0 tl ≠ 1 → shape1 tl ≠ 1 →
     prepare_deform_slice L E self slice_shape p =
     Err (ValueError "operands could not be broadcast together")) ∧
  (shape0 tl = shape1 tl ∨ shape0 tl = 1 ∨ shape1 tl = 1 →
     ∃ t, prepare_deform_slice L E self slice_shape p = Ok (t, p1) ∧
       length (flow_x t) =
         (if decide (shape0 tl = 1)
          then Z.to_nat (shape1 tl * shape1 tl)
          else Z.to_nat (shape0 tl * shape0 tl)) ∧
       length (flow_y t) = length (flow_x t)).
Proof.
  intros Hdraw Hlabel.
  destruct (draw_tear_line_shape _ _ _ _ Hdraw)
    as (s0 & s1 & _ & _ & _ & _ & Hn0 & Hn1 & _).
  rewrite (prepare_deform_slice_steps _ _ _ _ Hdraw), Hlabel. simpl. split.
  - intros H01 H0 H1. rewrite flow_fields_mismatch; [done|lia..].
  - intros Hc.
    destruct (flow_fields_compatible tl sides) as (t & -> & _ & Hlx & Hly); [lia|].
    exists t. simpl. split; [done|]. split; [|done]. rewrite Hlx.
    repeat case_decide; lia.
Qed.

(** *** No deformation *)

Lemma normal_vector_finite tl :
  ¬ (linalg_norm L (inject_Z (x1 tl - x0 tl)) (inject_Z (y1 tl - y0 tl)) == 0)%Q →
  ∃ n0 n1, normal_vector L tl = (Some n0, Some n1).
Proof.
  intros Hn. unfold normal_vector, fdiv, fneg, fnum. simpl.
  destruct (Qeq_bool _ 0) eqn:Hz; [by apply Qeq_bool_iff in Hz|]. simpl. eauto.
Qed.

(** On a square padded slice the two endpoints of a drawn line differ, and
    the norm of the library model is then not 0. *)
Lemma drawn_line_has_length slice_shape p tl p1 :
  draw_tear_line L E self slice_shape p = Ok (tl, p1) →
  shape0 tl = shape1 tl →
  x1 tl - x0 tl ≠ 0 ∨ y1 tl - y0 tl ≠ 0.
Proof.
  intros Hdraw Hsq.
  destruct (draw_tear_line_endpoints _ _ _ _ Hdraw) as (_ & _ & Hx & Hy).
  destruct (fixed_x tl).
  - destruct (Hx eq_refl) as (Hdim & -> & -> & _). left. lia.
  - destruct (Hy eq_refl) as (Hdim & -> & -> & _). right. lia.
Qed.

Lemma np_linalg_norm_nonzero (a b : Z) :
  a ≠ 0 ∨ b ≠ 0 → ¬ (np_linalg_norm (inject_Z a) (inject_Z b) == 0)%Q.
Proof.
  intros Hab Hz. unfold np_linalg_norm, Qeq in Hz. simpl in Hz.
  change (Z.pos (1 * 1 * (1 * 1) * 1)) with 1 in Hz.
  change (Z.pos (1 * 1)) with 1 in Hz.
  rewrite Z.div_1_r, !Z.mul_1_r in Hz.
  assert (2 ^ 48 <= (a * a + b * b) * 2 ^ 48) as Hn
    by (change (2 ^ 48) with 281474976710656; nia).
  apply Z.sqrt_le_mono in Hn. rewrite Hz in Hn.
  change (Z.sqrt (2 ^ 48)) with 16777216 in Hn. lia.
Qed.

(** C7, as amended.  With a deformation strength of 0, when the line is
    drawn, its two sides are labelled, the padded slice is square and the
    line is not a single point, the generator returns flow fields that
    are the index meshgrid, so that reading the nearest pixel of a slice
    at them gives the slice back; the line mask it returns is the raster
    of the line dilated ten times, as for any other strength. *)
Theorem zero_strength_flow_is_meshgrid slice_shape p tl p1 sides :
  deformation_strength self = 0 →
  draw_tear_line L E self slice_shape p = Ok (tl, p1) →
  label_sides L tl = Ok sides →
  shape0 tl = shape1 tl →
  ¬ (linalg_norm L (inject_Z (x1 tl - x0 tl)) (inject_Z (y1 tl - y0 tl)) == 0)%Q →
  ∃ t, prepare_deform_slice L E self slice_shape p = Ok (t, p1) ∧
    Forall2 feq (flow_x t) (ravel2 (meshgrid_x tl)) ∧
    Forall2 feq (flow_y t) (ravel2 (meshgrid_y tl)) ∧
    line_mask t = binary_dilation L 10 (raster tl) ∧
    ∀ section : array2 Q,
      wf2 section → shape2 section = shape2 (raster tl) →
      nearest_resample section (flow_y t) (flow_x t) = ravel2 section.
Proof.
  intros Hs Hdraw Hlabel Hsq Hnorm.
  destruct (draw_tear_line_shape _ _ _ _ Hdraw)
    as (s0 & s1 & _ & _ & _ & _ & Hn0 & Hn1 & Hshape).
  destruct (normal_vector_finite tl Hnorm) as (nv0 & nv1 & Hnv).
  rewrite (prepare_deform_slice_steps _ _ _ _ Hdraw), Hlabel. simpl.
  destruct sides as [[components neg_val] pos_val].
  rewrite flow_fields_broadcast. rewrite Hnv. simpl fst. simpl snd.
  unfold meshgrid_x, meshgrid_y. rewrite <- Hsq in *. rewrite broadcast_dim_same.
  set (n := Z.to_nat (shape0 tl)) in *.
  set (mx := tab2 n n (λ _ j : nat, fnum (inject_Z (Z.of_nat j)))).
  set (my := tab2 n n (λ i _ : nat, fnum (inject_Z (Z.of_nat i)))).
  eexists. split; [done|]. cbn [flow_x flow_y line_mask].
  assert (∀ (nv : Q) i j, (i < n)%nat → (j < n)%nat →
            ∃ q, get2 (fnum 0)
                   (displacement self tl components neg_val pos_val (Some nv)) i j
                 = Some q ∧ (q == 0)%Q) as Hdisp.
  { intros nv i j Hi Hj. unfold displacement. rewrite <- Hsq. fold n.
    rewrite get2_tab2 by done. rewrite Hs.
    repeat case_decide; eexists; (split; [done|]); cbv [inject_Z Z.opp]; ring. }
  assert (∀ i j, (i < n)%nat → (j < n)%nat →
    feq (fadd (get2 (fnum 0) mx (broadcast_ix n i) (broadcast_ix n j))
           (get2 (fnum 0) (displacement self tl components neg_val pos_val (Some nv1))
              (broadcast_ix n i) (broadcast_ix n j)))
        (fnum (inject_Z (Z.of_nat j))) ∧
    feq (fadd (get2 (fnum 0) my (broadcast_ix n i) (broadcast_ix n j))
           (get2 (fnum 0) (displacement self tl components neg_val pos_val (Some nv0))
              (broadcast_ix n i) (broadcast_ix n j)))
        (fnum (inject_Z (Z.of_nat i)))) as Hflow.
  { intros i j Hi Hj. rewrite !broadcast_ix_lt by done.
    unfold mx, my. rewrite !get2_tab2 by done.
    destruct (Hdisp nv1 i j Hi Hj) as (q1 & -> & Hq1).
    destruct (Hdisp nv0 i j Hi Hj) as (q0 & -> & Hq0).
    simpl. rewrite Hq0, Hq1. split; ring. }
  split_and!.
  - apply ravel2_tab2_Forall2. intros i j Hi Hj. by apply Hflow.
  - apply ravel2_tab2_Forall2. intros i j Hi Hj. by apply Hflow.
  - done.
  - intros section Hwf Hsec. unfold nearest_resample.
    rewrite zip_with_ravel2_tab2.
    assert (ravel2 section = ravel2 (tab2 n n (get2 0%Q section))) as ->.
    { rewrite <- (tab2_get2 0%Q section Hwf) at 1. by rewrite Hsec, Hshape. }
    apply ravel2_tab2_ext. intros i j Hi Hj.
    apply nearest_sample_at; try (rewrite Hsec, Hshape; simpl; done);
      by apply Hflow.
Qed.

(** An exception of the generator ends [prepare]: the iteration that
    calls the generator raises it, and so does the loop that reaches this
    iteration. *)
Lemma prepare_slice_raises roi v c plan p e voxels :
  kind_of_draw self (py_stream E (py_pos p)) = Some "deformed_slice" →
  roi_div roi v = Ok voxels →
  prepare_deform_slice L E self
    (take (axis self) (get_shape voxels) ++ drop (S (axis self)) (get_shape voxels))
    (mkRngPos (S (py_pos p)) (np_pos p)) = Err e →
  prepare_slice L E self roi v c (plan, p) = Err e.
Proof.
  unfold kind_of_draw, prepare_slice, random_random. intros Hk Hdiv Hgen.
  repeat match type of Hk with
  | (if ?b then _ else _) = _ => destruct b; try discriminate
  end.
  rewrite Hdiv. simpl. by rewrite Hgen.
Qed.

Lemma prepare_loop_raises roi v c cs st e :
  prepare_slice L E self roi v c st = Err e →
  prepare_loop L E self roi v (c :: cs) st = Err e.
Proof. intros H. simpl. by rewrite H. Qed.

End GeneratorProperties.

(** ** The augmentation executor *)

Lemma lookup3_update3 (a : array3) (f : nat → nat → nat → Q → Q) (i j k : nat) :
  lookup3 (update3 a f) i j k = f i j k <$> lookup3 a i j k.
Proof.
  unfold lookup3, update3. simpl. rewrite list_lookup_imap.
  destruct (planes a !! i) as [pl|]; simpl; [|done].
  rewrite list_lookup_imap. destruct (pl !! j) as [row|]; simpl; [|done].
  by rewrite list_lookup_imap.
Qed.


Lemma assign_section_Ok dt a ax c v a' :
  assign_section dt a ax c v = Ok a' →
  shape3 a' = shape3 a ∧
  broadcastable (shape3 v).1.1 (section_shape ax c (shape3 a)).1.1 = true ∧
  broadcastable (shape3 v).1.2 (section_shape ax c (shape3 a)).1.2 = true ∧
  broadcastable (shape3 v).2 (section_shape ax c (shape3 a)).2 = true ∧
  ∀ i j k, lookup3 a' i j k =
    (λ old, if in_section ax c i j k then
       cast dt (get3 v (broadcast_ix (shape3 v).1.1 (if decide (ax = 0%nat) then 0%nat else i))
                       (broadcast_ix (shape3 v).1.2 (if decide (ax = 1%nat) then 0%nat else j))
                       (broadcast_ix (shape3 v).2 (if decide (ax = 2%nat) then 0%nat else k)))
     else old) <$> lookup3 a i j k.
Proof.
  unfold assign_section. destruct (shape3 v) as [[v0 v1] v2].
  destruct (section_shape ax c (shape3 a)) as [[t0 t1] t2]. simpl.
  destruct (broadcastable v0 t0) eqn:H0; [|discriminate].
  destruct (broadcastable v1 t1) eqn:H1; [|discriminate].
  destruct (broadcastable v2 t2) eqn:H2; [|discriminate]. simpl.
  intros [= <-]. split_and!; try done. intros i j k. apply lookup3_update3.
Qed.

Section ExecutorProperties.

Variable map_coordinates : Resampler.
Variable self : DefectAugment.

(** An iteration keeps the metadata and the shape of the volume, and
    leaves alone what is outside its section. *)
Lemma process_slice_frame plan rvs c kind raw raw' :
  process_slice map_coordinates self plan rvs c kind raw = Ok raw' →
  vol_spec raw' = vol_spec raw ∧ vol_dtype raw' = vol_dtype raw ∧
  shape3 (vol_data raw') = shape3 (vol_data raw) ∧
  ∀ i j k, in_section (axis self) c i j k = false →
    lookup3 (vol_data raw') i j k = lookup3 (vol_data raw) i j k.
Proof.
  unfold process_slice. intros H.
  assert (∀ f : nat → nat → nat → Q → Q,
    (∀ i j k v, in_section (axis self) c i j k = false → f i j k v = v) →
    ∀ i j k, in_section (axis self) c i j k = false →
      lookup3 (update3 (vol_data raw) f) i j k = lookup3 (vol_data raw) i j k) as Hupd.
  { intros f Hf i j k Hout. rewrite lookup3_update3.
    destruct (lookup3 (vol_data raw) i j k) as [v|]; simpl; [|done].
    by rewrite Hf. }
  repeat case_decide.
  - injection H as <-. simpl. split_and!; try done.
    apply Hupd. intros i j k v ->. done.
  - destruct (vol_dtype raw) eqn:Hdt; try discriminate; injection H as <-; simpl;
      (split_and!; try done; apply Hupd; intros i j k v ->; done).
  - ok_steps H. subst raw'. simpl.
    match goal with
    | Ha : assign_section _ _ _ _ _ = Ok _ |- _ =>
        apply assign_section_Ok in Ha as (Hsh & _ & _ & _ & Hl)
    end.
    split_and!; try done. intros i j k Hout. rewrite Hl, Hout.
    by destruct (lookup3 (vol_data raw) i j k).
  - ok_steps H. subst raw'. simpl.
    match goal with
    | Ha : assign_section _ _ _ _ _ = Ok _ |- _ =>
        apply assign_section_Ok in Ha as (Hsh & _ & _ & _ & Hl)
    end.
    split_and!; try done. intros i j k Hout. rewrite Hl, Hout.
    by destruct (lookup3 (vol_data raw) i j k).
  - by injection H as <-.
Qed.

Lemma process_loop_app plan rvs l1 l2 raw :
  process_loop map_coordinates self plan rvs (l1 ++ l2) raw =
  match process_loop map_coordinates self plan rvs l1 raw with
  | (raw1, None) => process_loop map_coordinates self plan rvs l2 raw1
  | (raw1, Some e) => (raw1, Some e)
  end.
Proof.
  revert raw. induction l1 as [|[c kind] l1 IH]; intros raw; simpl; [done|].
  destruct (process_slice _ _ _ _ _ _ _) as [raw1|e]; [apply IH|done].
Qed.

(** Whatever the outcome of the loop, the volume it leaves has the
    metadata and the shape it had, and differs only inside the sections
    of the slices of the plan. *)
Lemma process_loop_frame plan rvs items : ∀ raw raw' outcome,
  process_loop map_coordinates self plan rvs items raw = (raw', outcome) →
  vol_spec raw' = vol_spec raw ∧ vol_dtype raw' = vol_dtype raw ∧
  shape3 (vol_data raw') = shape3 (vol_data raw) ∧
  ∀ i j k, (∀ c kind, (c, kind) ∈ items → in_section (axis self) c i j k = false) →
    lookup3 (vol_data raw') i j k = lookup3 (vol_data raw) i j k.
Proof.
  induction items as [|[c kind] items IH]; intros raw raw' outcome H; simpl in H.
  - by injection H as <- <-.
  - destruct (process_slice _ _ _ _ _ _ _) as [raw1|e] eqn:Hs.
    + apply process_slice_frame in Hs as (Hs1 & Hs2 & Hs3 & Hs4).
      destruct (IH _ _ _ H) as (H1 & H2 & H3 & H4).
      split_and!; try congruence. intros i j k Hout.
      rewrite H4, Hs4; [done| |].
      * apply (Hout c kind). left.
      * intros c' kind' Hin. apply (Hout c' kind'). by right.
    + by injection H as <- <-.
Qed.

Lemma squeeze2_Some (a : array3) (s : array2 Q) :
  squeeze2 a = Some s →
  ((shape3 a).1.1 = 1%nat ∧ (shape3 a).1.2 ≠ 1%nat ∧ (shape3 a).2 ≠ 1%nat ∧
     shape2 s = ((shape3 a).1.2, (shape3 a).2) ∧
     rows2 s = default [] (planes a !! 0%nat)) ∨
  ((shape3 a).1.1 ≠ 1%nat ∧ shape2 s = ((shape3 a).1.1, (shape3 a).2) ∧
     (shape3 a).1.2 = 1%nat) ∨
  ((shape3 a).1.1 ≠ 1%nat ∧ (shape3 a).1.2 ≠ 1%nat ∧
     shape2 s = ((shape3 a).1.1, (shape3 a).1.2) ∧ (shape3 a).2 = 1%nat).
Proof.
  unfold squeeze2. destruct (shape3 a) as [[d h] w]. simpl.
  repeat case_decide; intros [= <-]; simpl; auto 10.
Qed.

Lemma reshape2_Ok sh l a :
  reshape2 sh l = Ok a →
  length l = (sh.1 * sh.2)%nat ∧
  a = tab2 sh.1 sh.2 (λ i j, default 0%Q (l !! (i * sh.2 + j)%nat)).
Proof.
  unfold reshape2. destruct sh as [h w]. case_decide; [|discriminate].
  by intros [= <-].
Qed.

Lemma zero_under_Ok mask a a' :
  zero_under mask a = Ok a' →
  shape2 mask = shape2 a ∧
  a' = tab2 (shape2 a).1 (shape2 a).2
         (λ i j, if get2 false mask i j then 0%Q else get2 0%Q a i j).
Proof. unfold zero_under. case_decide; [|discriminate]. by intros [= <-]. Qed.

Lemma cast_zero dt : cast dt 0 = 0%Q.
Proof. by destruct dt. Qed.

Lemma get_section_shape a ax c :
  shape3 (get_section a ax c) = section_shape ax c (shape3 a).
Proof.
  unfold get_section. by destruct (section_shape ax c (shape3 a)) as [[d h] w].
Qed.

Lemma sel_len_lt n c : (c < n)%nat → sel_len n c = 1%nat.
Proof. intros H. unfold sel_len. by rewrite decide_True. Qed.

Lemma broadcastable_true v t : broadcastable v t = true ↔ v = t ∨ v = 1%nat.
Proof. unfold broadcastable. apply bool_decide_eq_true. Qed.

(** The iteration on a deformed slice, when it goes through: the slice is
    a plane of the volume, it is resampled at the flow fields prepared
    for it, with the order the interpolatable flag selects, and written
    back with 0 under the line mask. *)
Lemma process_slice_deformed plan rvs c raw raw' :
  process_slice map_coordinates self plan rvs c "deformed_slice" raw = Ok raw' →
  (c < axis_extent (shape3 (vol_data raw)) (axis self))%nat →
  ∃ sp t section resampled,
    spec self !! RAW = Some sp ∧
    dict_get (deform_slice_transformations plan) c = Some t ∧
    axis self = 0%nat ∧
    squeeze2 (get_section (vol_data raw) 0 c) = Some section ∧
    reshape2 (shape2 section)
      (map_coordinates section (flow_y t) (flow_x t)
         (if default false (interpolatable sp) then 3%nat else 0%nat)) = Ok resampled ∧
    shape2 (line_mask t) = shape2 section ∧
    ∀ j k, (j < (shape2 section).1)%nat → (k < (shape2 section).2)%nat →
      lookup3 (vol_data raw') c j k =
      (λ _, cast (vol_dtype raw)
              (if get2 false (line_mask t) j k then 0%Q else get2 0%Q resampled j k))
        <$> lookup3 (vol_data raw) c j k.
Proof.
  unfold process_slice. intros H Hc.
  repeat case_decide; try congruence.
  apply bind_Ok in H as (sp & Hsp & H).
  apply bind_Ok in H as (t & Ht & H).
  apply bind_Ok in H as (section & Hsq & H).
  apply bind_Ok in H as (resampled & Hre & H).
  apply bind_Ok in H as (masked & Hmask & H).
  apply bind_Ok in H as (data' & Hassign & H). injection H as <-. simpl.
  unfold request_get in Hsp.
  destruct (spec self !! RAW) as [sp'|] eqn:Hsp'; [injection Hsp as ->|discriminate].
  destruct (dict_get (deform_slice_transformations plan) c) as [t'|] eqn:Ht';
    [injection Ht as ->|discriminate].
  destruct (squeeze2 _) as [section'|] eqn:Hsq'; [injection Hsq as ->|discriminate].
  pose proof (reshape2_Ok _ _ _ Hre) as [Hlen Hres].
  apply zero_under_Ok in Hmask as [Hms Hmasked].
  assert (shape2 resampled = shape2 section) as Hrs
    by (rewrite Hres; by destruct (shape2 section)).
  apply assign_section_Ok in Hassign as (_ & _ & Hb1 & Hb2 & Hl).
  pose proof (squeeze2_Some _ _ Hsq') as Hcases.
  rewrite get_section_shape in Hcases.
  unfold as_plane in Hb1, Hb2, Hl. simpl in Hb1, Hb2, Hl.
  rewrite Hmasked in Hb1, Hb2. simpl in Hb1, Hb2. rewrite Hrs in Hb1, Hb2.
  apply broadcastable_true in Hb1, Hb2.
  assert (axis self = 0%nat ∧ (shape2 section).1 ≠ 1%nat ∧ (shape2 section).2 ≠ 1%nat)
    as (Hax & Hh & Hw).
  { clear -Hcases Hb1 Hb2 Hc.
    unfold section_shape, axis_extent in *.
    destruct (shape3 (vol_data raw)) as [[d h] w].
    destruct (shape2 section) as [a b]. cbn [fst snd] in *.
    destruct (axis self) as [|[|[|ax]]]; cbn [fst snd] in *;
      repeat case_decide; try lia; try rewrite (sel_len_lt _ _ Hc) in *;
      destruct Hcases as [(? & ? & ? & Hs & _)|[(? & Hs & ?)|(? & ? & Hs & ?)]];
      injection Hs as -> ->; lia. }
  exists sp, t, section, resampled. rewrite Hax in *. split_and!; try done.
  - congruence.
  - intros j k Hj Hk. rewrite Hl. unfold in_section.
    rewrite !bool_decide_eq_true_2 by done. simpl.
    destruct (lookup3 (vol_data raw) c j k) as [old|]; simpl; [|done].
    do 2 f_equal.
    assert (shape2 masked = shape2 section) as Hms2
      by (rewrite Hmasked; simpl; rewrite Hrs; by destruct (shape2 section)).
    rewrite Hms2. unfold broadcast_ix.
    rewrite decide_True by done. rewrite !decide_False by done.
    transitivity (get2 0%Q masked j k); [done|].
    rewrite Hmasked, Hrs. by rewrite get2_tab2.
Qed.

(** *** The crop *)

Lemma py_slice_lookup {A} (start stop : Z) (l : list A) (j : nat) (v : A) :
  0 <= start → py_slice start stop l !! j = Some v → l !! (Z.to_nat start + j)%nat = Some v.
Proof.
  intros Hs. unfold py_slice. intros [Hd _]%lookup_take_Some.
  rewrite lookup_drop in Hd. pose proof (lookup_lt_Some _ _ _ Hd) as Hlt.
  unfold slice_bound in Hd, Hlt.
  destruct (start <? 0) eqn:Hneg; [apply Z.ltb_lt in Hneg; lia|].
  replace (Z.to_nat start) with (Z.to_nat (Z.min start (Z.of_nat (length l)))) by lia.
  done.
Qed.


Lemma restore_Ok plan request raw raw' :
  restore self plan request raw = Ok raw' →
  (("deformed_slice" ∉ dict_values (slice_to_augmentation plan)) ∧ raw' = raw) ∨
  ("deformed_slice" ∈ dict_values (slice_to_augmentation plan) ∧
   (∃ sp, request !! RAW = Some sp ∧ roi (vol_spec raw') = roi sp ∧
      vol_dtype raw' = vol_dtype raw ∧ vol_data raw' = crop self (vol_data raw))).
Proof.
  unfold restore. case_bool_decide.
  - intros H'. right. split; [done|]. ok_steps H'. unfold request_get in Hstep.
    destruct (request !! RAW) as [sp|]; [|discriminate]. injection Hstep as ->.
    subst raw'. eauto.
  - intros [= <-]. by left.
Qed.

Lemma process_Ok plan batch request batch' :
  process map_coordinates self plan batch request = (batch', None) →
  ∃ raw raw_mid raw' sp,
    batch !! RAW = Some raw ∧ spec self !! RAW = Some sp ∧
    process_loop map_coordinates self plan (voxel_size sp)
      (slice_to_augmentation plan) raw = (raw_mid, None) ∧
    restore self plan request raw_mid = Ok raw' ∧
    batch' = <[RAW := raw']> batch.
Proof.
  unfold process. intros H.
  destruct (get_total_roi_dims batch ≫= _) as [[raw rvs]|e] eqn:Hpre; [|discriminate].
  ok_steps Hpre. subst.
  unfold batch_get in Hstep1. destruct (batch !! RAW) as [raw0|]; [|discriminate].
  injection Hstep1 as ->.
  unfold request_get in Hstep2. destruct (spec self !! RAW) as [sp0|]; [|discriminate].
  injection Hstep2 as ->.
  destruct (process_loop _ _ _ _ _ _) as [raw_mid [e|]] eqn:Hloop; [discriminate|].
  destruct (restore _ _ _ _) as [raw'|e] eqn:Hrest; [|discriminate].
  injection H as <-. by exists raw, raw_mid, raw', a2.
Qed.


Lemma slice_len_grown (n : nat) (strength : Z) :
  0 < strength → slice_len strength (- strength) (n + 2 * Z.to_nat strength) = n.
Proof.
  intros Hs. unfold slice_len, slice_bound.
  destruct (strength <? 0) eqn:H1; [apply Z.ltb_lt in H1; lia|].
  destruct (- strength <? 0) eqn:H2; [|apply Z.ltb_ge in H2; lia]. lia.
Qed.

Lemma slice_len_zero (n : nat) : slice_len 0 (- 0) n = 0%nat.
Proof. unfold slice_len, slice_bound. simpl. lia. Qed.

(** With a strength above 0 the crop undoes the growth: a volume that has
    [2 * deformation_strength] more voxels than requested along every axis
    but the cut axis comes out with the requested shape. *)
Lemma crop_recovers_requested_shape (a : array3) (d h w : nat) :
  0 < deformation_strength self →
  shape3 a =
    (if decide (0%nat = axis self) then d else d + 2 * Z.to_nat (deformation_strength self),
     if decide (1%nat = axis self) then h else h + 2 * Z.to_nat (deformation_strength self),
     if decide (2%nat = axis self) then w else w + 2 * Z.to_nat (deformation_strength self))%nat →
  shape3 (crop self a) = (d, h, w).
Proof.
  intros Hs Hsh. unfold crop, crop_len. rewrite Hsh. simpl.
  repeat case_decide; rewrite ?slice_len_grown by done; done.
Qed.

(** With a strength of 0 the crop leaves nothing along the axes it
    crops. *)
Lemma crop_with_zero_strength (a : array3) :
  deformation_strength self = 0 → axis self = 0%nat →
  shape3 (crop self a) = ((shape3 a).1.1, 0, 0)%nat.
Proof.
  intros Hs Hax. unfold crop, crop_len. destruct (shape3 a) as [[d h] w].
  rewrite Hs, Hax. simpl. by rewrite !slice_len_zero.
Qed.

(** The end of [process] on a volume that was grown for a deformed slice,
    with a strength above 0: the ROI is the ROI of the request and the
    data has the requested shape.  Without a deformed slice the volume is
    left as it is. *)
Lemma restore_geometry plan request raw raw' (d h w : nat) :
  restore self plan request raw = Ok raw' →
  "deformed_slice" ∈ dict_values (slice_to_augmentation plan) →
  0 < deformation_strength self →
  shape3 (vol_data raw) =
    (if decide (0%nat = axis self) then d else d + 2 * Z.to_nat (deformation_strength self),
     if decide (1%nat = axis self) then h else h + 2 * Z.to_nat (deformation_strength self),
     if decide (2%nat = axis self) then w else w + 2 * Z.to_nat (deformation_strength self))%nat →
  (∃ sp, request !! RAW = Some sp ∧ roi (vol_spec raw') = roi sp) ∧
  shape3 (vol_data raw') = (d, h, w).
Proof.
  intros Hrest Hdef Hs Hsh.
  apply restore_Ok in Hrest as [[Hno _]|(_ & sp & Hsp & Hroi & _ & Hdata)]; [done|].
  split; [eauto|]. rewrite Hdata. by apply crop_recovers_requested_shape.
Qed.

Lemma restore_without_deformed_slice plan request raw :
  "deformed_slice" ∉ dict_values (slice_to_augmentation plan) →
  restore self plan request raw = Ok raw.
Proof. intros Hno. unfold restore. by rewrite bool_decide_eq_false_2. Qed.

(** *** The two spellings of the low-contrast tag *)

(** [process] has no branch for the tag [prepare] writes. *)
Lemma lower_contrast_tag_has_no_branch plan rvs c raw :
  process_slice map_coordinates self plan rvs c "lower_contrast" raw = Ok raw.
Proof. unfold process_slice. repeat case_decide; congruence. Qed.

(** The branch under the other spelling contracts the section about its
    mean, on a volume of floats. *)
Lemma low_contrast_branch_scales_about_the_mean plan rvs c raw :
  vol_dtype raw ≠ UInt8 →
  ∃ raw', process_slice map_coordinates self plan rvs c "low_contrast" raw = Ok raw' ∧
    ∀ i j k, lookup3 (vol_data raw') i j k =
      (λ v, if in_section (axis self) c i j k
            then ((v - section_mean (vol_data raw) (axis self) c) * contrast_scale self
                  + section_mean (vol_data raw) (axis self) c)%Q
            else v) <$> lookup3 (vol_data raw) i j k.
Proof.
  intros Hdt. unfold process_slice. repeat case_decide; try congruence.
  destruct (vol_dtype raw); [done|..]; eexists; (split; [done|]); simpl;
    intros i j k; apply lookup3_update3.
Qed.

(** *** Violations of the data contract *)

Lemma forallb_false_elem (f : Q → bool) (l : list Q) (x : Q) :
  x ∈ l → f x = false → forallb f l = false.
Proof.
  intros Hin Hx. apply not_true_iff_false. intros Hall.
  rewrite forallb_forall in Hall. rewrite (Hall x) in Hx; [done|].
  by apply list_elem_of_In.
Qed.

(** The iteration on an artifact slice raises an [AssertionError] when
    what the artifact source delivers violates the contract. *)
Lemma process_slice_artifact_violation plan rvs c raw source alpha_spec request
    artifact_batch alpha art :
  artifact_source self = Some source →
  provider_spec source !! ALPHA_MASK = Some alpha_spec →
  voxel_size alpha_spec = rvs →
  artifact_request_for (shape3 (get_section (vol_data raw) (axis self) c))
    rvs (voxel_size alpha_spec) = Ok request →
  request_batch source request = Ok artifact_batch →
  artifact_batch !! ALPHA_MASK = Some alpha →
  artifact_batch !! RAW = Some art →
  (vol_dtype art ≠ vol_dtype raw ∨ vol_dtype alpha ≠ Float32 ∨
   ∃ x, x ∈ elements3 (vol_data alpha) ∧ ((x < 0)%Q ∨ (1 < x)%Q)) →
  process_slice map_coordinates self plan rvs c "artifact" raw =
  Err (AssertionError "").
Proof.
  intros Hsrc Haspec Hvs Hreq Hbatch Halpha Hart Hviol.
  unfold process_slice. repeat case_decide; try congruence.
  rewrite Hsrc. simpl. unfold request_get. rewrite Haspec. simpl.
  rewrite bool_decide_eq_true_2 by done. simpl.
  rewrite Hreq. simpl. rewrite Hbatch. simpl.
  unfold batch_get. rewrite Halpha, Hart. simpl. unfold py_assert.
  destruct (bool_decide (vol_dtype art = vol_dtype raw)) eqn:Hd1; simpl; [|done].
  destruct (bool_decide (vol_dtype alpha = Float32)) eqn:Hd2; simpl; [|done].
  apply bool_decide_eq_true in Hd1, Hd2.
  destruct Hviol as [Hv|[Hv|(x & Hin & Hx)]]; [done|done|].
  case_decide as Hempty; [rewrite Hempty in Hin; by apply elem_of_nil in Hin|]. simpl.
  destruct (forallb (λ a, Qle_bool 0 a) _) eqn:Hmin; simpl; [|done].
  destruct Hx as [Hx|Hx].
  - rewrite (forallb_false_elem _ _ x Hin) in Hmin; [done|].
    apply not_true_iff_false. rewrite Qle_bool_iff. by apply Qlt_not_le.
  - rewrite (forallb_false_elem (λ a, Qle_bool a 1) _ x Hin); [done|].
    apply not_true_iff_false. rewrite Qle_bool_iff. by apply Qlt_not_le.
Qed.

(** C9, as amended.  A violation of the data contract makes [process]
    raise an [AssertionError].  The batch is then as the slices processed
    before the violation was caught have left it: it is the batch that
    came in when the batch is not three-dimensional, and when the
    violating artifact is the first slice of the plan; otherwise the
    earlier slices of the plan have been augmented in place, and the
    rest of the raw volume, the failing slice included, and the other
    volumes are as they came in. *)
Theorem contract_violation_raises plan batch request msg earlier batch_after :
  ContractViolation map_coordinates self plan batch msg earlier batch_after →
  process map_coordinates self plan batch request
    = (batch_after, Some (AssertionError msg)) ∧
  (earlier = [] → batch_after = batch) ∧
  (∀ k, k ≠ RAW → batch_after !! k = batch !! k) ∧
  (∀ raw, batch !! RAW = Some raw →
     ∃ raw_after, batch_after !! RAW = Some raw_after ∧
       vol_spec raw_after = vol_spec raw ∧
       shape3 (vol_data raw_after) = shape3 (vol_data raw) ∧
       ∀ i j k,
         (∀ c kind, (c, kind) ∈ earlier → in_section (axis self) c i j k = false) →
         lookup3 (vol_data raw_after) i j k = lookup3 (vol_data raw) i j k).
Proof.
  intros [dims Hdims Hne
         |raw sp l1 c l2 raw1 source alpha_spec req ab alpha art
            Hdims Hraw Hsp Hplan Hloop Hsrc Haspec Hvs Hreq Hbatch Halpha Hart Hviol].
  - split_and!; try done.
    + unfold process. rewrite Hdims. simpl. by rewrite bool_decide_eq_false_2.
    + intros raw Hraw. exists raw. done.
  - destruct (process_loop_frame _ _ _ _ _ _ Hloop) as (Hf1 & Hf2 & Hf3 & Hf4).
    split_and!.
    + unfold process. rewrite Hdims. simpl.
      unfold batch_get, request_get. rewrite Hraw, Hsp. simpl.
      rewrite Hplan, process_loop_app, Hloop. simpl.
      rewrite (process_slice_artifact_violation plan (voxel_size sp) c raw1 source
                 alpha_spec req ab alpha art); try done.
      by rewrite Hf2.
    + intros ->. simpl in Hloop. injection Hloop as <-. by apply insert_id.
    + intros k Hk. by rewrite lookup_insert_ne.
    + intros raw0 Hraw0. rewrite Hraw in Hraw0. injection Hraw0 as <-.
      exists raw1. rewrite lookup_insert_eq. done.
Qed.

End ExecutorProperties.

(** * The properties on concrete runs *)

Section Runs.

Import Demo.

Local Ltac run := vm_compute; reflexivity.
Local Ltac qle := unfold Qle; simpl; lia.

(** C1.  A request for a region of 1 x 4 x 4 voxels, to a node whose
    deformation strength is 0 and which deforms every slice: the volume
    that comes back has the requested region as its ROI, and no data:
    its shape is 1 x 0 x 0 where the region has 1 x 4 x 4 voxels. *)
Theorem crop_with_zero_strength_empties_the_volume :
  ∃ batch p raw,
    provide scipy_lib resampler fixed_x_entropy (deforming 0) upstream
      (request 1 4 4) start = Ok (batch, p) ∧
    batch !! RAW = Some raw ∧
    roi (vol_spec raw) = Some (mkRoi [0; 0; 0] [1; 4; 4]) ∧
    shape3 (vol_data raw) = (1, 0, 0)%nat ∧
    planes (vol_data raw) = [[]].
Proof.
  eexists _, _, _. split; [run|]. split; [run|]. split_and!; reflexivity.
Qed.

(** C2.  A request for 2 x 2 x 2 voxels to a node that makes every slice
    a low-contrast slice, with a contrast scale of 1/10: the plan holds
    the tag [lower_contrast] for both slices, [process] has no branch for
    that tag, and the volume comes back as the source delivered it:
    the first slice is still 1, 2, 11, 12, with the variance it had,
    where the contraction about the mean gives 5.95, 6.05, 6.95, 7.05. *)
Theorem lower_contrast_slices_come_back_unchanged :
  ∃ plan request' p batch p',
    prepare scipy_lib fixed_x_entropy (node 0 1 0 0 None 1) (request 2 2 2) start
      = Ok (plan, request', p) ∧
    slice_to_augmentation plan = [(0%nat, "lower_contrast"); (1%nat, "lower_contrast")] ∧
    provide scipy_lib resampler fixed_x_entropy (node 0 1 0 0 None 1) upstream
      (request 2 2 2) start = Ok (batch, p') ∧
    vol_data <$> batch !! RAW = Some (ramp 2 2 2) ∧
    planes (ramp 2 2 2) = [[[1; 2]; [11; 12]]; [[101; 102]; [111; 112]]]%Q ∧
    (* the contraction of the first slice about its mean 13/2, which the
       branch under the other spelling computes *)
    (match process_slice resampler (node 0 1 0 0 None 1) plan (Some [1; 1; 1])
             0 "low_contrast" small_raw with
     | Ok raw' => map (map (map Qred)) (planes (vol_data raw'))
     | Err _ => []
     end) = [[[119 # 20; 121 # 20]; [139 # 20; 141 # 20]];
             [[101; 102]; [111; 112]]]%Q.
Proof.
  eexists _, _, _, _, _. split; [run|]. split; [run|]. split; [run|].
  split; [run|]. split; run.
Qed.





(** A 6 x 6 slice without padding: the flow fields are the meshgrid. *)
Lemma zero_strength_flow_is_meshgrid_witness :
  deformation_strength (deforming 0) = 0 ∧
  draw_tear_line scipy_lib fixed_x_entropy (deforming 0) [6; 6] start = Ok drawn ∧
  label_sides scipy_lib drawn.1 = Ok drawn_sides ∧
  shape0 drawn.1 = shape1 drawn.1 ∧
  ¬ (linalg_norm scipy_lib (inject_Z (x1 drawn.1 - x0 drawn.1))
       (inject_Z (y1 drawn.1 - y0 drawn.1)) == 0)%Q ∧
  ∃ t, prepare_deform_slice scipy_lib fixed_x_entropy (deforming 0) [6; 6] start
         = Ok (t, drawn.2) ∧
       Forall2 feq (flow_x t) (ravel2 (meshgrid_x drawn.1)).
Proof.
  assert (draw_tear_line scipy_lib fixed_x_entropy (deforming 0) [6; 6] start
          = Ok (drawn.1, drawn.2)) as Hdraw by run.
  assert (label_sides scipy_lib drawn.1 = Ok drawn_sides) as Hsides by run.
  assert (¬ (linalg_norm scipy_lib (inject_Z (x1 drawn.1 - x0 drawn.1))
               (inject_Z (y1 drawn.1 - y0 drawn.1)) == 0)%Q) as Hnorm
    by (intros Hz; vm_compute in Hz; discriminate Hz).
  split_and!; [reflexivity|exact Hdraw|exact Hsides|reflexivity|exact Hnorm|].
  destruct (zero_strength_flow_is_meshgrid scipy_lib fixed_x_entropy (deforming 0)
              [6; 6] start drawn.1 drawn.2 drawn_sides eq_refl Hdraw Hsides eq_refl Hnorm)
    as (t & Ht & Hx & _).
  exists t. split; assumption.
Defined.

(** C7, the claim as it stands.  On that slice the corner pixel (0, 0) is
    not on the rasterised line, which starts at (0, 1), and it is under
    the line mask the generator returns with a deformation strength of
    0: the mask is wider than the line. *)
Lemma zero_strength_mask_is_wider_than_the_line :
  ∃ t,
    draw_tear_line scipy_lib fixed_x_entropy (deforming 0) [6; 6] start = Ok drawn ∧
    prepare_deform_slice scipy_lib fixed_x_entropy (deforming 0) [6; 6] start
      = Ok (t, drawn.2) ∧
    (x0 drawn.1, y0 drawn.1) = (0, 1) ∧
    get2 false (raster drawn.1) 0 0 = false ∧
    get2 false (line_mask t) 0 0 = true.
Proof.
  eexists. split; [run|]. split; [run|]. split_and!; reflexivity.
Qed.

(** The endpoints drawn on the 6 x 6 slice. *)
Lemma tear_line_endpoints_half_open_witness :
  draw_tear_line scipy_lib fixed_x_entropy (deforming 0) [6; 6] start = Ok drawn ∧
  fixed_x drawn.1 = true ∧ 1 <= y0 drawn.1 <= 3 ∧ 1 <= y1 drawn.1 <= 3.
Proof.
  assert (draw_tear_line scipy_lib fixed_x_entropy (deforming 0) [6; 6] start
          = Ok (drawn.1, drawn.2)) as Hdraw by run.
  split; [exact Hdraw|]. split; [reflexivity|].
  destruct (tear_line_endpoints_half_open scipy_lib fixed_x_entropy (deforming 0)
              [6; 6] start drawn.1 drawn.2 Hdraw) as (_ & Hx & _).
  destruct (Hx eq_refl) as (_ & _ & H0 & H1 & _). split; assumption.
Defined.

(** C8, the claim as it stands.  On a padded slice of 6 x 6 pixels the
    claim has the free coordinate of an endpoint range over 1 .. 4; no
    random source makes the generator draw 4. *)
Lemma endpoint_never_at_dim_minus_two :
  ¬ ∃ (E : Entropy) (p : RngPos) (tl : TearLine) (p1 : RngPos),
      draw_tear_line scipy_lib E (deforming 0) [6; 6] p = Ok (tl, p1) ∧
      ((fixed_x tl = true ∧ (y0 tl = 6 - 2 ∨ y1 tl = 6 - 2)) ∨
       (fixed_x tl = false ∧ (x0 tl = 6 - 2 ∨ x1 tl = 6 - 2))).
Proof.
  intros (E & p & tl & p1 & Hdraw & Hfour).
  destruct (draw_tear_line_shape _ _ _ _ _ _ _ Hdraw)
    as (s0 & s1 & Hs0 & Hs1 & Hn0 & Hn1 & _).
  injection Hs0 as <-. injection Hs1 as <-. simpl in Hn0, Hn1.
  destruct (draw_tear_line_endpoints _ _ _ _ _ _ _ Hdraw) as (_ & _ & Hx & Hy).
  destruct Hfour as [[Hfx Hv]|[Hfx Hv]].
  - destruct (Hx Hfx) as (Hdim & _ & _ & Hy0 & Hy1). rewrite Hn1 in *.
    apply eq_sym, randint_value_iff in Hy0; [|lia].
    apply eq_sym, randint_value_iff in Hy1; [|lia]. lia.
  - destruct (Hy Hfx) as (Hdim & _ & _ & Hx0 & Hx1). rewrite Hn0 in *.
    apply eq_sym, randint_value_iff in Hx0; [|lia].
    apply eq_sym, randint_value_iff in Hx1; [|lia]. lia.
Qed.

(** The assertion on the alpha mask of the second slice of
    [blending_plan], caught after the first slice is zeroed. *)
Lemma contract_violation_raises_witness :
  ContractViolation resampler blending blending_plan small_batch ""
    [(0%nat, "zero_out")] (<[RAW := small_raw_zeroed]> small_batch) ∧
  process resampler blending blending_plan small_batch (request 2 2 2)
    = (<[RAW := small_raw_zeroed]> small_batch, Some (AssertionError "")).
Proof.
  assert (ContractViolation resampler blending blending_plan small_batch ""
            [(0%nat, "zero_out")] (<[RAW := small_raw_zeroed]> small_batch)) as Hv.
  { eapply (bad_artifact resampler blending blending_plan small_batch small_raw
              (mkVolumeSpec None (Some [1; 1; 1]) (Some false) (Some Float32))
              [(0%nat, "zero_out")] 1%nat [] small_raw_zeroed opaque_source
              (mkVolumeSpec None (Some [1; 1; 1]) (Some false) (Some Float32))
              artifact_request
              {[ RAW := mkVolume VolumeSpec_init Float32 (tab3 1 2 2 (λ _ _ _, 7%Q));
                 ALPHA_MASK := mkVolume VolumeSpec_init Float32
                                 (tab3 1 2 2 (λ _ _ _, 2%Q)) ]}
              (mkVolume VolumeSpec_init Float32 (tab3 1 2 2 (λ _ _ _, 2%Q)))
              (mkVolume VolumeSpec_init Float32 (tab3 1 2 2 (λ _ _ _, 7%Q))));
      try run.
    right. right. exists 2%Q. split; [|right; reflexivity].
    vm_compute. left. }
  split; [exact Hv|].
  apply (contract_violation_raises resampler blending blending_plan small_batch
           (request 2 2 2) _ _ _ Hv).
Defined.

(** C9, the claim as it stands.  When the assertion on the alpha mask of
    the second slice is raised, the first slice of the raw volume, which
    came in as 1, 2, 11, 12, holds zeros. *)
Lemma earlier_slices_are_modified_when_the_assertion_is_raised :
  ∃ batch' raw',
    process resampler blending blending_plan small_batch (request 2 2 2)
      = (batch', Some (AssertionError "")) ∧
    small_batch !! RAW = Some small_raw ∧
    batch' !! RAW = Some raw' ∧
    planes (vol_data small_raw) = [[[1; 2]; [11; 12]]; [[101; 102]; [111; 112]]]%Q ∧
    planes (vol_data raw') = [[[0; 0]; [0; 0]]; [[101; 102]; [111; 112]]]%Q.
Proof.
  eexists _, _. split; [run|]. split; [run|]. split; [run|]. split; reflexivity.
Qed.

(** The addition on the square 6 x 6 slice goes through. *)
Lemma flow_fields_need_broadcastable_shape_witness :
  draw_tear_line scipy_lib fixed_x_entropy (deforming 0) [6; 6] start = Ok drawn ∧
  label_sides scipy_lib drawn.1 = Ok drawn_sides ∧
  ∃ t, prepare_deform_slice scipy_lib fixed_x_entropy (deforming 0) [6; 6] start
         = Ok (t, drawn.2) ∧ length (flow_x t) = 36%nat.
Proof.
  assert (draw_tear_line scipy_lib fixed_x_entropy (deforming 0) [6; 6] start
          = Ok (drawn.1, drawn.2)) as Hdraw by run.
  assert (label_sides scipy_lib drawn.1 = Ok drawn_sides) as Hsides by run.
  split; [exact Hdraw|]. split; [exact Hsides|].
  destruct (flow_fields_need_broadcastable_shape scipy_lib fixed_x_entropy (deforming 0)
              [6; 6] start drawn.1 drawn.2 drawn_sides Hdraw Hsides) as [_ Hok].
  destruct Hok as (t & Ht & Hlen & _); [left; reflexivity|].
  exists t. split; [exact Ht|]. rewrite Hlen. reflexivity.
Defined.

(** C10, the claim as it stands.  A slice of 1 x 5 pixels without padding
    is not square; with a fixed-x line from (0, 1) to (0, 2) the addition
    broadcasts a 5 x 1 meshgrid against a 1 x 5 displacement, and the
    generator returns flow fields of 25 entries. *)
Lemma flow_fields_returned_for_a_shape_that_is_not_square :
  ∃ t p',
    prepare_deform_slice scipy_lib (mkEntropy (λ _, 1 # 4)%Q (λ n, n))
      (deforming 0) [1; 5] start = Ok (t, p') ∧
    length (flow_x t) = 25%nat ∧ length (flow_y t) = 25%nat ∧
    shape2 (line_mask t) = (1, 5)%nat.
Proof.
  eexists _, _. split; [run|]. split_and!; reflexivity.
Qed.

End Runs.

(** * Further properties of the node *)

(** ** The plan *)

Lemma dict_get_None {V} (d : list (nat * V)) (k : nat) :
  dict_get d k = None ↔ k ∉ d.*1.
Proof.
  induction d as [|[k0 v0] d IH]; csimpl.
  - split; [intros _; apply not_elem_of_nil | done].
  - rewrite not_elem_of_cons. case_decide as Hk.
    + split; [done | intros [? _]; congruence].
    + rewrite IH. split; [intros ?; split; [congruence|done] | intros [_ ?]; done].
Qed.

Lemma dict_get_None_inv {V} (d : list (nat * V)) (k : nat) :
  dict_get d k ≠ None → k ∈ d.*1.
Proof.
  intros H. destruct (decide (k ∈ d.*1)) as [?|Hout]; [done|].
  by apply dict_get_None in Hout.
Qed.

Lemma dict_set_length {V} (d : list (nat * V)) (k : nat) (v : V) :
  k ∉ d.*1 → length (dict_set d k v) = S (length d).
Proof.
  intros Hk. rewrite <- (length_fmap fst (dict_set d k v)), dict_set_keys.
  rewrite decide_False by done. rewrite length_app, length_fmap. simpl. lia.
Qed.

Lemma dict_set_fresh {V} (d : list (nat * V)) (k : nat) (v : V) :
  k ∉ d.*1 → dict_set d k v = d ++ [(k, v)].
Proof.
  induction d as [|[k0 v0] d IH]; csimpl; [done|].
  intros [Hne Hk]%not_elem_of_cons. rewrite decide_False by congruence.
  by rewrite IH.
Qed.

Lemma sublist_seq_increasing (l : list nat) (n : nat) : ∀ a,
  sublist l (seq a n) →
  ∀ i j ci cj, (i < j)%nat → l !! i = Some ci → l !! j = Some cj →
    (a ≤ ci < cj)%nat ∧ (cj < a + n)%nat.
Proof.
  revert l. induction n as [|n IH]; intros l a Hsub i j ci cj Hij Hi Hj; simpl in Hsub.
  - apply sublist_nil_r in Hsub as ->. by rewrite lookup_nil in Hi.
  - apply sublist_cons_r in Hsub as [Hsub|(l' & -> & Hsub)].
    + destruct (IH _ _ Hsub i j ci cj Hij Hi Hj). lia.
    + destruct i as [|i], j as [|j]; try lia; simpl in Hi, Hj.
      * injection Hi as <-.
        apply list_elem_of_lookup_2 in Hj.
        apply (elem_of_sublist _ _ _ Hj) in Hsub. apply elem_of_seq in Hsub. lia.
      * destruct (IH _ _ Hsub i j ci cj) as [? ?]; [lia|done|done|]. lia.
Qed.

Section PlanInvariants.

Variable L : GeomLib.
Variable E : Entropy.
Variable self : DefectAugment.

Lemma prepare_Ok request p plan request' p' :
  prepare L E self request p = Ok (plan, request', p') →
  ∃ spec_raw sp r v extent size,
    request !! RAW = Some spec_raw ∧ roi spec_raw = Some r ∧
    spec self !! RAW = Some sp ∧ voxel_size sp = Some v ∧
    roi_shape r !! axis self = Some extent ∧ v !! axis self = Some size ∧
    prepare_loop L E self r v (seq 0 (Z.to_nat (extent / size))) (mkPlan [] [], p)
      = Ok (plan, p') ∧
    expand_request self plan v request spec_raw r = Ok request'.
Proof.
  intros H. unfold prepare in H.
  apply bind_Ok in H as (spec_raw & Hreq & H).
  apply bind_Ok in H as (sp & Hsp & H).
  apply bind_Ok in H as (r & Hroi & H).
  apply bind_Ok in H as (v & Hv & H).
  apply bind_Ok in H as (voxels & Hdiv & H).
  apply bind_Ok in H as (n & Hn & H).
  apply bind_Ok in H as ([plan1 p1] & Hloop & H).
  apply bind_Ok in H as (request1 & Hexp & H).
  injection H as -> -> ->.
  unfold request_get in Hreq, Hsp.
  destruct (request !! RAW) as [s0|] eqn:Hr0; [injection Hreq as ->|discriminate].
  destruct (spec self !! RAW) as [s1|] eqn:Hr1; [injection Hsp as ->|discriminate].
  destruct (roi spec_raw) as [r0|] eqn:Hr2; [injection Hroi as ->|discriminate].
  destruct (voxel_size sp) as [v0|] eqn:Hr3; [injection Hv as ->|discriminate].
  apply tuple_get_nat in Hn.
  unfold roi_div in Hdiv. ok_steps Hdiv. subst voxels. unfold get_shape in Hn. simpl in Hn.
  rewrite (coordinate_div_lookup _ _ _ _ Hstep0) in Hn.
  destruct (roi_shape r !! axis self) as [extent|] eqn:Hext; [|discriminate].
  destruct (v !! axis self) as [size|] eqn:Hsize; [|discriminate].
  simpl in Hn. injection Hn as <-.
  exists spec_raw, sp, r, v, extent, size. split_and!; done.
Qed.

(** What one iteration of the loop does to the plan and to the random
    sources. *)
Lemma prepare_slice_cases roi v c plan p plan' p' :
  prepare_slice L E self roi v c (plan, p) = Ok (plan', p') →
  (kind_of_draw self (py_stream E (py_pos p)) = None ∧ plan' = plan ∧
   p' = mkRngPos (S (py_pos p)) (np_pos p)) ∨
  (∃ kind, kind_of_draw self (py_stream E (py_pos p)) = Some kind ∧
     kind ≠ "deformed_slice" ∧
     plan' = mkPlan (dict_set (slice_to_augmentation plan) c kind)
               (deform_slice_transformations plan) ∧
     p' = mkRngPos (S (py_pos p)) (np_pos p)) ∨
  (∃ t, kind_of_draw self (py_stream E (py_pos p)) = Some "deformed_slice" ∧
     plan' = mkPlan (dict_set (slice_to_augmentation plan) c "deformed_slice")
               (dict_set (deform_slice_transformations plan) c t) ∧
     p' = mkRngPos (S (S (py_pos p))) (S (S (np_pos p)))).
Proof.
  unfold prepare_slice, kind_of_draw, random_random. intros H.
  repeat match type of H with
  | (if ?b then _ else _) = _ => destruct b eqn:?
  end.
  - injection H as <- <-. right. left. eexists. split_and!; done.
  - injection H as <- <-. right. left. eexists. split_and!; done.
  - injection H as <- <-. right. left. eexists. split_and!; done.
  - ok_steps H. subst plan' p'. right. right.
    match goal with
    | Hg : prepare_deform_slice _ _ _ _ _ = Ok _ |- _ =>
        apply prepare_deform_slice_Ok in Hg as (tl & sides & Hd & _ & _);
        apply draw_tear_line_endpoints in Hd as (_ & -> & _)
    end.
    eexists. split_and!; done.
  - injection H as <- <-. left. done.
Qed.

(** The loop of [prepare] on slice indices that are new to the plan: the
    keys it adds to the plan and to the transformations, in the order of
    the indices, and the values it reads from the two random sources. *)
Lemma prepare_loop_invariants roi v cs : ∀ plan p plan' p',
  prepare_loop L E self roi v cs (plan, p) = Ok (plan', p') →
  NoDup cs →
  (∀ c, c ∈ cs → (c ∉ (slice_to_augmentation plan).*1) ∧
                 (c ∉ (deform_slice_transformations plan).*1)) →
  ∃ ks ds : list nat,
    (slice_to_augmentation plan').*1 = (slice_to_augmentation plan).*1 ++ ks ∧
    (deform_slice_transformations plan').*1
      = (deform_slice_transformations plan).*1 ++ ds ∧
    sublist ks cs ∧ sublist ds cs ∧
    py_pos p' = (py_pos p + length cs + length ds)%nat ∧
    np_pos p' = (np_pos p + 2 * length ds)%nat ∧
    (∀ c, c ∈ cs →
       c ∈ ds ↔ dict_get (slice_to_augmentation plan') c = Some "deformed_slice") ∧
    (∀ kind, kind ∈ dict_values (slice_to_augmentation plan') →
       kind ∈ dict_values (slice_to_augmentation plan) ∨
       ∃ n, kind_of_draw self (py_stream E n) = Some kind) ∧
    deformed_count plan' = (deformed_count plan + length ds)%nat.
Proof.
  induction cs as [|c cs IH]; intros plan p plan' p' H Hnd Hfresh; simpl in H.
  - injection H as <- <-. exists [], []. rewrite !app_nil_r. simpl.
    split_and!; try done; try lia.
    + intros c Hc. by apply elem_of_nil in Hc.
    + auto.
  - apply bind_Ok in H as ([plan1 p1] & Hs & H).
    apply NoDup_cons in Hnd as [Hc Hnd].
    destruct (Hfresh c) as [HcS HcT]; [left|].
    assert (∀ c', c' ∈ cs → c' ≠ c) as Hne by (intros c' Hin ->; done).
    pose proof (prepare_loop_spec L E self _ _ _ _ _ _ _ Hnd H) as (_ & Hframe & _).
    assert (∀ (kind : string) (d : list (nat * string)),
              length (filter (λ kv : nat * string, kv.2 = "deformed_slice")
                        (d ++ [(c, kind)]))
              = (length (filter (λ kv : nat * string, kv.2 = "deformed_slice") d)
                 + if decide (kind = "deformed_slice") then 1 else 0)%nat) as Hcount.
    { intros kind d. rewrite filter_app, length_app, filter_cons, filter_nil. simpl.
      by destruct (decide (kind = "deformed_slice")). }
    apply prepare_slice_cases in Hs
      as [(Hk & -> & ->)|[(kind & Hk & Hkind & -> & ->)|(t & Hk & -> & ->)]].
    + destruct (IH _ _ _ _ H Hnd)
        as (ks & ds & HS & HT & Hks & Hds & Hpy & Hnp & Hd & Hv & Hn).
      { intros c' Hc'. apply Hfresh. by right. }
      exists ks, ds. simpl in *. split_and!; try done; try lia.
      * by apply sublist_cons.
      * by apply sublist_cons.
      * intros c' [->|Hc']%elem_of_cons; [|by apply Hd].
        rewrite (Hframe _ Hc). apply dict_get_None in HcS. rewrite HcS.
        split; [|done]. intros Hin. exfalso. apply Hc.
        by eapply elem_of_sublist.
    + rewrite (dict_set_fresh _ _ _ HcS) in *.
      destruct (IH _ _ _ _ H Hnd)
        as (ks & ds & HS & HT & Hks & Hds & Hpy & Hnp & Hd & Hv & Hn).
      { intros c' Hc'. simpl. rewrite fmap_app. simpl.
        destruct (Hfresh c') as [? ?]; [by right|]. split; [|done].
        rewrite not_elem_of_app, not_elem_of_cons. split_and!; try done.
        - by apply Hne.
        - apply not_elem_of_nil. }
      simpl in *. rewrite fmap_app in HS. simpl in HS.
      unfold deformed_count in *. simpl in Hn. rewrite Hcount in Hn.
      rewrite decide_False in Hn by done.
      exists (c :: ks), ds. split_and!; try done; try lia.
      * by rewrite HS, <- app_assoc.
      * by apply sublist_skip.
      * by apply sublist_cons.
      * intros c' [->|Hc']%elem_of_cons; [|by apply Hd].
        rewrite (Hframe _ Hc). simpl.
        rewrite <- (dict_set_fresh _ _ _ HcS), dict_get_set, decide_True by done.
        split; [|congruence]. intros Hin. exfalso. apply Hc.
        by eapply elem_of_sublist.
      * intros k Hin. destruct (Hv k Hin) as [Hold|?]; [|by right].
        unfold dict_values in Hold. rewrite fmap_app in Hold. simpl in Hold.
        apply elem_of_app in Hold as [? | ->%list_elem_of_singleton]; eauto.
    + rewrite (dict_set_fresh _ _ _ HcS), (dict_set_fresh _ _ _ HcT) in *.
      destruct (IH _ _ _ _ H Hnd)
        as (ks & ds & HS & HT & Hks & Hds & Hpy & Hnp & Hd & Hv & Hn).
      { intros c' Hc'. simpl. rewrite !fmap_app. simpl.
        destruct (Hfresh c') as [? ?]; [by right|].
        rewrite !not_elem_of_app, !not_elem_of_cons. split_and!; try done;
          try (by apply Hne); apply not_elem_of_nil. }
      simpl in *. rewrite fmap_app in HS. rewrite fmap_app in HT. simpl in HS, HT.
      unfold deformed_count in *. simpl in Hn. rewrite Hcount in Hn.
      rewrite decide_True in Hn by done.
      exists (c :: ks), (c :: ds). simpl. split_and!; try lia.
      * by rewrite HS, <- app_assoc.
      * by rewrite HT, <- app_assoc.
      * by apply sublist_skip.
      * by apply sublist_skip.
      * intros c' [->|Hc']%elem_of_cons.
        -- rewrite (Hframe _ Hc). simpl.
           rewrite <- (dict_set_fresh _ _ _ HcS), dict_get_set, decide_True by done.
           split; [done|]. intros _. left.
        -- rewrite <- (Hd _ Hc'). rewrite elem_of_cons. split; [|auto].
           intros [->|?]; [done|done].
      * intros k Hin. destruct (Hv k Hin) as [Hold|?]; [|by right].
        unfold dict_values in Hold. rewrite fmap_app in Hold. simpl in Hold.
        apply elem_of_app in Hold as [? | ->%list_elem_of_singleton]; eauto.
Qed.

(** The plan of a call of [prepare]: the new keys are those of a loop
    that starts from the empty plan. *)
Lemma prepare_plan_invariants request p plan request' p' :
  prepare L E self request p = Ok (plan, request', p') →
  ∃ spec_raw sp r v extent size,
    request !! RAW = Some spec_raw ∧ roi spec_raw = Some r ∧
    spec self !! RAW = Some sp ∧ voxel_size sp = Some v ∧
    roi_shape r !! axis self = Some extent ∧ v !! axis self = Some size ∧
    expand_request self plan v request spec_raw r = Ok request' ∧
    sublist (slice_to_augmentation plan).*1 (seq 0 (Z.to_nat (extent / size))) ∧
    sublist (deform_slice_transformations plan).*1 (seq 0 (Z.to_nat (extent / size))) ∧
    py_pos p' = (py_pos p + Z.to_nat (extent / size)
                 + length (deform_slice_transformations plan))%nat ∧
    np_pos p' = (np_pos p + 2 * length (deform_slice_transformations plan))%nat ∧
    (∀ c, c ∈ (deform_slice_transformations plan).*1 ↔
          dict_get (slice_to_augmentation plan) c = Some "deformed_slice") ∧
    (∀ kind, kind ∈ dict_values (slice_to_augmentation plan) →
       ∃ n, kind_of_draw self (py_stream E n) = Some kind) ∧
    deformed_count plan = length (deform_slice_transformations plan).
Proof.
  intros (spec_raw & sp & r & v & extent & size & Hreq & Hroi & Hsp & Hv & Hext
          & Hsize & Hloop & Hexp)%prepare_Ok.
  apply prepare_loop_invariants in Hloop
    as (ks & ds & HS & HT & Hks & Hds & Hpy & Hnp & Hd & Hval & Hn);
    [|apply NoDup_seq|intros c _; simpl; split; apply not_elem_of_nil].
  simpl in HS, HT. rewrite <- HS in Hks. rewrite <- HT in Hds, Hpy, Hnp, Hd, Hn.
  rewrite length_seq in Hpy. rewrite !length_fmap in *.
  exists spec_raw, sp, r, v, extent, size. split_and!; try done.
  - intros c. split.
    + intros Hc. apply Hd; [|done]. by eapply elem_of_sublist.
    + intros Hc. apply Hd; [|done]. eapply elem_of_sublist; [|exact Hks].
      apply dict_get_None_inv. by rewrite Hc.
  - intros kind Hin. destruct (Hval kind Hin) as [Hnil|?]; [|done].
    by apply elem_of_nil in Hnil.
Qed.

(** A kind whose probability is not above 0 has an empty interval between
    the thresholds. *)
Lemma kind_of_draw_zero (r : Q) :
  ((prob_low_contrast self <= 0)%Q → kind_of_draw self r ≠ Some "lower_contrast") ∧
  ((prob_artifact self <= 0)%Q → kind_of_draw self r ≠ Some "artifact") ∧
  ((prob_deform self <= 0)%Q → kind_of_draw self r ≠ Some "deformed_slice") ∧
  ((prob_missing self <= 0)%Q → (0 <= r)%Q → kind_of_draw self r ≠ Some "zero_out").
Proof.
  unfold kind_of_draw, prob_deform_slice, prob_artifact_threshold,
    prob_low_contrast_threshold, prob_missing_threshold.
  destruct (Qltb r (prob_missing self)) eqn:E1;
  destruct (Qltb r (prob_missing self + prob_low_contrast self)) eqn:E2;
  destruct (Qltb r (prob_missing self + prob_low_contrast self + prob_artifact self)) eqn:E3;
  destruct (Qltb r (prob_missing self + prob_low_contrast self + prob_artifact self
                    + prob_deform self)) eqn:E4;
  repeat match goal with
  | Ht : Qltb _ _ = true |- _ => apply Qltb_lt in Ht
  | Hf : Qltb _ _ = false |- _ => apply Qltb_ge in Hf
  end;
  split_and!; intros; try discriminate; intros _; lra.
Qed.

Lemma dict_get_values {V} (d : list (nat * V)) (k : nat) (v : V) :
  dict_get d k = Some v → v ∈ dict_values d.
Proof.
  unfold dict_values. induction d as [|[k0 v0] d IH]; csimpl; [done|].
  case_decide; [intros [= ->]; left | intros ?; right; auto].
Qed.

(** A plan without a deformed slice: no transformation was prepared,
    the numpy generator was not read, and the request is not grown. *)
Lemma prepare_without_deformed_slice request p plan request' p' :
  prepare L E self request p = Ok (plan, request', p') →
  "deformed_slice" ∉ dict_values (slice_to_augmentation plan) →
  deform_slice_transformations plan = [] ∧ request' = request ∧ np_pos p' = np_pos p.
Proof.
  intros (spec_raw & sp & r & v & extent & size & _ & _ & _ & _ & _ & _ & Hexp
          & _ & _ & _ & Hnp & Hd & _ & _)%prepare_plan_invariants Hno.
  assert (deform_slice_transformations plan = []) as HT.
  { destruct (deform_slice_transformations plan) as [|[c t] T] eqn:HT; [done|].
    exfalso. apply Hno. apply (dict_get_values _ c). apply Hd. left. }
  rewrite HT in Hnp. simpl in Hnp. split_and!; [done| |lia].
  unfold expand_request in Hexp. rewrite bool_decide_eq_false_2 in Hexp by done.
  by injection Hexp as <-.
Qed.

(** X1.  A call of [prepare] that returns has read [random.random()] once
    for every slice index below N, the extent of the requested region
    along the cut axis divided by the voxel size, and once more for every
    slice it planned as deformed; it has read the numpy generator twice
    for every deformed slice, and not at all without one. *)
Theorem prepare_reads_one_draw_per_slice request p plan request' p' :
  prepare L E self request p = Ok (plan, request', p') →
  ∃ (spec_raw sp : VolumeSpec) (r : Roi) (v : Coordinate) (extent size : Z),
    request !! RAW = Some spec_raw ∧ roi spec_raw = Some r ∧
    spec self !! RAW = Some sp ∧ voxel_size sp = Some v ∧
    roi_shape r !! axis self = Some extent ∧ v !! axis self = Some size ∧
    py_pos p' = (py_pos p + Z.to_nat (extent / size) + deformed_count plan)%nat ∧
    np_pos p' = (np_pos p + 2 * deformed_count plan)%nat.
Proof.
  intros (spec_raw & sp & r & v & extent & size & Hreq & Hroi & Hsp & Hv & Hext
          & Hsize & _ & _ & _ & Hpy & Hnp & _ & _ & Hn)%prepare_plan_invariants.
  exists spec_raw, sp, r, v, extent, size. rewrite Hn. split_and!; done.
Qed.

(** X2.  In the plan [prepare] leaves, the slices that have a prepared
    transformation are exactly the slices planned as deformed, each with
    one transformation: the lookup of [process] in
    [deform_slice_transformations] finds an entry for every deformed
    slice. *)
Theorem transformations_are_those_of_the_deformed_slices request p plan request' p' :
  prepare L E self request p = Ok (plan, request', p') →
  NoDup (deform_slice_transformations plan).*1 ∧
  ∀ c, is_Some (dict_get (deform_slice_transformations plan) c) ↔
       dict_get (slice_to_augmentation plan) c = Some "deformed_slice".
Proof.
  intros (spec_raw & sp & r & v & extent & size & _ & _ & _ & _ & _ & _ & _
          & _ & HT & _ & _ & Hd & _ & _)%prepare_plan_invariants.
  split; [eapply sublist_NoDup; [apply NoDup_seq|exact HT]|].
  intros c. rewrite <- Hd. split.
  - intros [t Ht]. apply dict_get_None_inv. by rewrite Ht.
  - intros Hin. destruct (dict_get _ c) eqn:Hg; [done|].
    by apply dict_get_None in Hg.
Qed.

(** X3.  The plan lists the slices in increasing order of their index:
    [process], which goes through the plan in insertion order, augments
    the slices from the first to the last. *)
Theorem plan_lists_the_slices_in_increasing_order request p plan request' p' :
  prepare L E self request p = Ok (plan, request', p') →
  ∀ i j ci cj, (i < j)%nat →
    (slice_to_augmentation plan).*1 !! i = Some ci →
    (slice_to_augmentation plan).*1 !! j = Some cj →
    (ci < cj)%nat.
Proof.
  intros (spec_raw & sp & r & v & extent & size & _ & _ & _ & _ & _ & _ & _
          & HS & _)%prepare_plan_invariants i j ci cj Hij Hi Hj.
  destruct (sublist_seq_increasing _ _ _ HS i j ci cj Hij Hi Hj). lia.
Qed.

(** X4.  A kind of augmentation whose probability is 0 or less is never
    planned.  For the deformed slices this means that no transformation
    is prepared, that the numpy generator is not read, and that the
    request goes upstream as it came in.  For the missing slices, the
    first of the intervals, it holds when the draws are not negative. *)
Theorem kinds_of_probability_zero_are_never_planned request p plan request' p' :
  prepare L E self request p = Ok (plan, request', p') →
  ((prob_low_contrast self <= 0)%Q →
     "lower_contrast" ∉ dict_values (slice_to_augmentation plan)) ∧
  ((prob_artifact self <= 0)%Q →
     "artifact" ∉ dict_values (slice_to_augmentation plan)) ∧
  ((prob_deform self <= 0)%Q →
     ("deformed_slice" ∉ dict_values (slice_to_augmentation plan)) ∧
     deform_slice_transformations plan = [] ∧ request' = request ∧
     np_pos p' = np_pos p) ∧
  ((prob_missing self <= 0)%Q → (∀ n, (0 <= py_stream E n)%Q) →
     "zero_out" ∉ dict_values (slice_to_augmentation plan)).
Proof.
  intros H.
  pose proof (prepare_plan_invariants _ _ _ _ _ H)
    as (spec_raw & sp & r & v & extent & size & _ & _ & _ & _ & _ & _ & _
        & _ & _ & _ & _ & _ & Hval & _).
  split_and!.
  - intros Hp (n & Hk)%Hval. by destruct (kind_of_draw_zero (py_stream E n)) as (K & _); apply K.
  - intros Hp (n & Hk)%Hval.
    by destruct (kind_of_draw_zero (py_stream E n)) as (_ & K & _); apply K.
  - intros Hp.
    assert ("deformed_slice" ∉ dict_values (slice_to_augmentation plan)) as Hno.
    { intros (n & Hk)%Hval.
      by destruct (kind_of_draw_zero (py_stream E n)) as (_ & _ & K & _); apply K. }
    split; [done|]. by apply prepare_without_deformed_slice.
  - intros Hp Hpos (n & Hk)%Hval.
    destruct (kind_of_draw_zero (py_stream E n)) as (_ & _ & _ & K). by apply K.
Qed.

End PlanInvariants.

(** X5.  A node built with the default arguments has the thresholds 0.05,
    0.1, 0.1 and 0.1: it plans missing and low-contrast slices only, so it
    prepares no transformation, does not read the numpy generator and
    never asks upstream for more than the request. *)
Theorem default_node_plans_no_artifact_and_no_deformed_slice
    (L : GeomLib) (E : Entropy) (spec0 : gmap string VolumeSpec)
    request p plan request' p' :
  prepare L E (DefectAugment_init None None None None None None None None spec0)
    request p = Ok (plan, request', p') →
  (∀ kind, kind ∈ dict_values (slice_to_augmentation plan) →
     kind = "zero_out" ∨ kind = "lower_contrast") ∧
  deform_slice_transformations plan = [] ∧ request' = request ∧ np_pos p' = np_pos p.
Proof.
  intros H.
  set (self := DefectAugment_init None None None None None None None None spec0) in *.
  pose proof (prepare_plan_invariants _ _ _ _ _ _ _ _ H)
    as (spec_raw & sp & r & v & extent & size & _ & _ & _ & _ & _ & _ & _
        & _ & _ & _ & _ & _ & Hval & _).
  assert (∀ kind, kind ∈ dict_values (slice_to_augmentation plan) →
            kind = "zero_out" ∨ kind = "lower_contrast") as Hkinds.
  { intros kind (n & Hk)%Hval.
    destruct (kind_of_draw_zero self (py_stream E n)) as (_ & Ka & Kd & _).
    specialize (Ka ltac:(done)). specialize (Kd ltac:(done)).
    unfold kind_of_draw in *.
    repeat match type of Hk with
    | (if ?b then _ else _) = _ => destruct b
    end; try congruence; injection Hk as <-; auto. }
  split; [done|]. apply (prepare_without_deformed_slice _ _ _ _ _ _ _ _ H).
  intros [?|?]%Hkinds; discriminate.
Qed.

(** ** The generator *)

Lemma get2_tab2_inv (h w : nat) (f : nat → nat → bool) (i j : nat) :
  get2 false (tab2 h w f) i j = true → (i < h)%nat ∧ (j < w)%nat ∧ f i j = true.
Proof.
  intros H. destruct (decide (i < h)%nat) as [Hi|Hi], (decide (j < w)%nat) as [Hj|Hj].
  - by rewrite get2_tab2 in H.
  - unfold get2, lookup2, tab2 in H. simpl in H.
    rewrite list_lookup_fmap, lookup_seq_lt in H by done. simpl in H.
    rewrite list_lookup_fmap, lookup_seq_ge in H by lia. done.
  - unfold get2, lookup2, tab2 in H. simpl in H.
    rewrite list_lookup_fmap, lookup_seq_ge in H by lia. done.
  - unfold get2, lookup2, tab2 in H. simpl in H.
    rewrite list_lookup_fmap, lookup_seq_ge in H by lia. done.
Qed.

Lemma within_tab2 (h w : nat) (f : nat → nat → bool) : within (tab2 h w f).
Proof. intros i j (? & ? & _)%get2_tab2_inv. done. Qed.

Lemma get2_set2 {A} (d : A) (a : array2 A) (i j i' j' : nat) (v : A) :
  get2 d (set2 a i j v) i' j' =
  if decide (i' = i ∧ j' = j ∧ is_Some (lookup2 a i j)) then v else get2 d a i' j'.
Proof.
  unfold get2, lookup2, set2. simpl. rewrite list_lookup_alter.
  destruct (decide (i = i')) as [<-|Hi].
  - destruct (rows2 a !! i) as [row|] eqn:Hrow; simpl.
    + rewrite list_lookup_insert.
      destruct (decide (j = j' ∧ (j < length row)%nat)) as [[<- Hlt]|Hn].
      * rewrite decide_True; [done|]. split_and!; try done.
        by apply lookup_lt_is_Some.
      * rewrite decide_False; [done|]. intros (_ & -> & Hs). apply Hn.
        split; [done|]. by apply lookup_lt_is_Some.
    + rewrite decide_False; [done|]. intros (_ & _ & [? ?]). done.
  - rewrite decide_False; [done|]. intros (-> & _). done.
Qed.

Lemma within_set2 (m : array2 bool) (i j : nat) (v : bool) :
  (i < (shape2 m).1)%nat → (j < (shape2 m).2)%nat → within m → within (set2 m i j v).
Proof.
  intros Hi Hj Hm i' j'. rewrite get2_set2. simpl.
  case_decide as Hd; [destruct Hd as (-> & -> & _); done | apply Hm].
Qed.

Lemma set_pixels_within (pts : list (Z * Z)) : ∀ (m m' : array2 bool),
  set_pixels m pts true = Ok m' → within m → within m' ∧ shape2 m' = shape2 m.
Proof.
  induction pts as [|[r c] pts IH]; intros m m' H Hm; simpl in H.
  - by injection H as <-.
  - apply bind_Ok in H as (i & Hi & H). apply bind_Ok in H as (j & Hj & H).
    destruct (IH _ _ H) as [Hw Hs]; [|done].
    assert (∀ n z k, py_index n z = Ok k → (k < n)%nat) as Hlt.
    { intros n z k. unfold py_index.
      destruct ((0 <=? z) && (z <? Z.of_nat n)) eqn:H1.
      - intros [= <-]. apply andb_true_iff in H1 as [?%Z.leb_le ?%Z.ltb_lt]. lia.
      - destruct ((- Z.of_nat n <=? z) && (z <? 0)) eqn:H2; [|discriminate].
        intros [= <-]. apply andb_true_iff in H2 as [?%Z.leb_le ?%Z.ltb_lt]. lia. }
    apply within_set2; [by eapply Hlt|by eapply Hlt|done].
Qed.

(** The raster of a drawn line lies inside the padded shape. *)
Lemma draw_tear_line_within L E self slice_shape p tl p1 :
  draw_tear_line L E self slice_shape p = Ok (tl, p1) → within (raster tl).
Proof.
  unfold draw_tear_line, random_random. intros H. ok_steps H.
  assert (∀ n0 n1 blank, np_zeros false n0 n1 = Ok blank → within blank) as Hz.
  { intros n0 n1 blank. unfold np_zeros. destruct (_ || _); [discriminate|].
    intros [= <-]. apply within_tab2. }
  destruct (Qltb _ _); ok_inv; simpl;
    match goal with
    | Hs : set_pixels _ _ _ = Ok _, H0 : np_zeros _ _ _ = Ok _ |- _ =>
        apply Hz in H0; by apply (set_pixels_within _ _ _ Hs)
    end.
Qed.

(** *** The dilation *)

Lemma dilate_once_shape (m : array2 bool) : shape2 (dilate_once m) = shape2 m.
Proof. unfold dilate_once. by destruct (shape2 m). Qed.

Lemma dilation_shape (n : nat) (m : array2 bool) :
  shape2 (ndimage_binary_dilation n m) = shape2 m.
Proof.
  unfold ndimage_binary_dilation. induction n as [|n IH]; simpl; [done|].
  by rewrite dilate_once_shape.
Qed.

(** One dilation sets the pixels of the shape that are at most one step
    from a pixel that is set. *)
Lemma dilate_once_spec (m : array2 bool) (i j : nat) :
  within m →
  get2 false (dilate_once m) i j = true ↔
  (i < (shape2 m).1)%nat ∧ (j < (shape2 m).2)%nat ∧
  ∃ i' j', get2 false m i' j' = true ∧ (manhattan i j i' j' ≤ 1)%nat.
Proof.
  intros Hm. unfold dilate_once. destruct (shape2 m) as [h w] eqn:Hsh. simpl.
  assert (∀ i' j', get2 false m i' j' = true → (i' < h)%nat ∧ (j' < w)%nat) as Hin.
  { intros i' j' H. apply Hm in H. by rewrite Hsh in H. }
  split.
  - intros (Hi & Hj & H)%get2_tab2_inv. split; [done|]. split; [done|].
    repeat (apply orb_true_iff in H as [H|H]).
    + exists i, j. split; [done|]. unfold manhattan. lia.
    + apply andb_true_iff in H as [Hne%bool_decide_eq_true H].
      exists (Nat.pred i), j. split; [done|]. unfold manhattan. lia.
    + exists (S i), j. split; [done|]. unfold manhattan. lia.
    + apply andb_true_iff in H as [Hne%bool_decide_eq_true H].
      exists i, (Nat.pred j). split; [done|]. unfold manhattan. lia.
    + exists i, (S j). split; [done|]. unfold manhattan. lia.
  - intros (Hi & Hj & i' & j' & H & Hd). rewrite get2_tab2 by done.
    unfold manhattan in Hd.
    assert ((i' = i ∧ j' = j) ∨ (i ≠ 0%nat ∧ i' = Nat.pred i ∧ j' = j) ∨
            (i' = S i ∧ j' = j) ∨ (j ≠ 0%nat ∧ i' = i ∧ j' = Nat.pred j) ∨
            (i' = i ∧ j' = S j)) as Hcases by lia.
    destruct Hcases as [[-> ->]|[(Hne & -> & ->)|[[-> ->]|[(Hne & -> & ->)|[-> ->]]]]];
      rewrite ?H; try rewrite (bool_decide_eq_true_2 _ Hne); simpl;
      repeat (rewrite ?orb_true_r, ?orb_true_l); done.
Qed.

Lemma within_dilate_once (m : array2 bool) : within (dilate_once m).
Proof.
  unfold dilate_once. destruct (shape2 m) as [h w]. apply within_tab2.
Qed.

(** [n] dilations set the pixels of the shape that are at most [n] steps
    from a pixel that is set. *)
Lemma dilation_spec (n : nat) (m : array2 bool) (i j : nat) :
  within m →
  get2 false (ndimage_binary_dilation n m) i j = true ↔
  (i < (shape2 m).1)%nat ∧ (j < (shape2 m).2)%nat ∧
  ∃ i' j', get2 false m i' j' = true ∧ (manhattan i j i' j' ≤ n)%nat.
Proof.
  intros Hm. unfold ndimage_binary_dilation. revert i j.
  induction n as [|n IH]; intros i j; simpl.
  - split.
    + intros H. destruct (Hm _ _ H). split_and!; try done.
      exists i, j. split; [done|]. unfold manhattan. lia.
    + intros (_ & _ & i' & j' & H & Hd). unfold manhattan in Hd.
      assert (i' = i ∧ j' = j) as [-> ->] by lia. done.
  - assert (within (Nat.iter n dilate_once m)) as Hw.
    { destruct n; [done|]. simpl. apply within_dilate_once. }
    rewrite (dilate_once_spec _ _ _ Hw).
    fold (ndimage_binary_dilation n m). rewrite dilation_shape.
    split.
    + intros (Hi & Hj & a & b & Hab & Hd). split; [done|]. split; [done|].
      apply IH in Hab as (_ & _ & i' & j' & H & Hd').
      exists i', j'. split; [done|]. unfold manhattan in *. lia.
    + intros (Hi & Hj & i' & j' & H & Hd). split; [done|]. split; [done|].
      destruct (Hm _ _ H) as [Hi' Hj'].
      assert (∃ a b, (a < (shape2 m).1)%nat ∧ (b < (shape2 m).2)%nat ∧
                (manhattan i j a b ≤ 1)%nat ∧ (manhattan a b i' j' ≤ n)%nat)
        as (a & b & Ha & Hb & H1 & H2).
      { unfold manhattan in *.
        destruct (decide (i < i')%nat); [exists (S i), j; lia|].
        destruct (decide (i' < i)%nat); [exists (Nat.pred i), j; lia|].
        destruct (decide (j < j')%nat); [exists i, (S j); lia|].
        destruct (decide (j' < j)%nat); [exists i, (Nat.pred j); lia|].
        exists i, j. lia. }
      exists a, b. split; [|done]. apply IH. split_and!; try done.
      exists i', j'. done.
Qed.

Lemma ravel2_tab2_lookup {A} (h w : nat) (f : nat → nat → A) (i j : nat) :
  (i < h)%nat → (j < w)%nat → ravel2 (tab2 h w f) !! (i * w + j)%nat = Some (f i j).
Proof.
  unfold ravel2, tab2. cbn [rows2].
  assert (∀ a i, (i < h)%nat → (j < w)%nat →
            concat ((λ i, (λ j, f i j) <$> seq 0 w) <$> seq a h) !! (i * w + j)%nat
            = Some (f (a + i)%nat j)) as Hgen.
  { induction h as [|h IH]; intros a i' Hi Hj; [lia|]. simpl.
    destruct i' as [|i'].
    - rewrite lookup_app_l by (rewrite length_fmap, length_seq; lia). simpl.
      rewrite list_lookup_fmap, lookup_seq_lt by done. simpl. do 2 f_equal. lia.
    - rewrite lookup_app_r by (rewrite length_fmap, length_seq; lia).
      rewrite length_fmap, length_seq.
      replace (S i' * w + j - w)%nat with (i' * w + j)%nat by lia.
      rewrite IH by lia. do 2 f_equal. lia. }
  intros Hi Hj. by rewrite Hgen.
Qed.

Section GeneratorEdges.

Variable L : GeomLib.
Variable E : Entropy.
Variable self : DefectAugment.

Lemma set_pixels_error (pts : list (Z * Z)) : ∀ (m : array2 bool) e,
  set_pixels m pts true = Err e → e = IndexError.
Proof.
  induction pts as [|[r c] pts IH]; intros m e H; simpl in H; [discriminate|].
  assert (∀ n z e', py_index n z = Err e' → e' = IndexError) as Hix.
  { intros n z e'. unfold py_index.
    repeat match goal with |- context [if ?b then _ else _] => destruct b end;
      congruence. }
  apply bind_Err in H as [H|(i & _ & H)]; [by eapply Hix|].
  apply bind_Err in H as [H|(j & _ & H)]; [by eapply Hix|].
  by eapply IH.
Qed.

(** The exceptions of the steps that follow the draw of the endpoints. *)
Lemma after_the_endpoints_error (fx : bool) (ax ay bx by' s0 s1 : Z) (p1 : RngPos) e :
  (zeros ← np_zeros false s0 s1;
   mask ← set_pixels zeros (draw_line L ax ay bx by') true;
   Ok (mkTearLine fx ax ay bx by' s0 s1 mask, p1)) ≫=
  (λ '(tl, p), sides ← label_sides L tl; t ← flow_fields L self tl sides; Ok (t, p))
  = Err e →
  e ≠ ValueError "low >= high".
Proof.
  intros H.
  apply bind_Err in H as [H|([tl p'] & _ & H)].
  - apply bind_Err in H as [H|(zeros & _ & H)].
    + unfold np_zeros in H. destruct (_ || _); [|discriminate]. by injection H as <-.
    + apply bind_Err in H as [H|(mask & _ & H)]; [|discriminate].
      apply set_pixels_error in H. by subst.
  - apply bind_Err in H as [H|(sides & _ & H)].
    + apply label_sides_error in H as [[_ ->]|[_ ->]]; done.
    + apply bind_Err in H as [H|(t & _ & H)]; [|discriminate].
      apply flow_fields_error in H. by subst.
Qed.

(** X6.  The generator draws the free coordinate of the two endpoints
    with [np.random.randint(1, dim - 2)], [dim] being the padded length of
    the slice along the axis the coordinate lies on, which is the second
    axis when the orientation draw is below 1/2 and the first axis
    otherwise.  When that length is 3 or less the range is empty and the
    generator raises the [ValueError] of numpy, whatever the other length;
    it raises this error in no other case. *)
Theorem tear_needs_four_pixels_along_the_free_axis slice_shape p s0 s1 :
  slice_shape !! 0%nat = Some s0 → slice_shape !! 1%nat = Some s1 →
  prepare_deform_slice L E self slice_shape p = Err (ValueError "low >= high") ↔
  (if Qltb (py_stream E (py_pos p)) (1 # 2)
   then s1 + 2 * deformation_strength self <= 3
   else s0 + 2 * deformation_strength self <= 3).
Proof.
  intros H0 H1. unfold prepare_deform_slice, draw_tear_line, random_random.
  pose proof (tuple_get_lookup slice_shape 0 s0 H0) as T0.
  pose proof (tuple_get_lookup slice_shape 1 s1 H1) as T1.
  change (Z.of_nat 0) with 0 in T0. change (Z.of_nat 1) with 1 in T1.
  rewrite T0, T1. cbn [mbind result_bind]. unfold np_random_randint. cbn [py_pos np_pos].
  destruct (Qltb (py_stream E (py_pos p)) (1 # 2)).
  - destruct (1 <? s1 + 2 * deformation_strength self - 2) eqn:Hlt.
    + apply Z.ltb_lt in Hlt. cbn [mbind result_bind]. split; [|lia].
      intros H. by apply after_the_endpoints_error in H.
    + apply Z.ltb_ge in Hlt. cbn [mbind result_bind]. split; [lia|done].
  - destruct (1 <? s0 + 2 * deformation_strength self - 2) eqn:Hlt.
    + apply Z.ltb_lt in Hlt. cbn [mbind result_bind]. split; [|lia].
      intros H. by apply after_the_endpoints_error in H.
    + apply Z.ltb_ge in Hlt. cbn [mbind result_bind]. split; [lia|done].
Qed.

(** X7.  What the generator returns on a padded slice that is square, of
    side n, when the line has a length: the flow fields hold, for the
    pixel (i, j), at the position i * n + j, the column j and the row i
    moved along the normal of the line, by the deformation strength, in
    one direction on the positive side of the line and in the opposite
    direction on the negative side, and not at all on the line itself.
    The normal is the unit vector of the line turned by a quarter; the
    negative side is the side of the corner (0, 0) when the first
    coordinate of the endpoints is fixed, and the other side otherwise. *)
Theorem the_two_sides_are_pushed_along_the_normal slice_shape p t p' :
  prepare_deform_slice L E self slice_shape p = Ok (t, p') →
  ∃ tl components neg_val pos_val,
    draw_tear_line L E self slice_shape p = Ok (tl, p') ∧
    nd_label L (amap2 negb (raster tl)) = (components, 2%nat) ∧
    index2 components 0 0 = Ok (if fixed_x tl then neg_val else pos_val) ∧
    index2 components (-1) (-1) = Ok (if fixed_x tl then pos_val else neg_val) ∧
    let n := Z.to_nat (shape0 tl) in
    let nrm := linalg_norm L (inject_Z (x1 tl - x0 tl)) (inject_Z (y1 tl - y0 tl)) in
    let strength := inject_Z (deformation_strength self) in
    let dx := (strength * (inject_Z (x1 tl - x0 tl) / nrm))%Q in
    let dy := (strength * - (inject_Z (y1 tl - y0 tl) / nrm))%Q in
    shape0 tl = shape1 tl → ¬ (nrm == 0)%Q →
    ∀ i j, (i < n)%nat → (j < n)%nat →
      ∃ fx fy,
        flow_x t !! (i * n + j)%nat = Some (Some fx) ∧
        flow_y t !! (i * n + j)%nat = Some (Some fy) ∧
        (get2 0%nat components i j = neg_val →
           (fx == inject_Z (Z.of_nat j) - dx)%Q ∧ (fy == inject_Z (Z.of_nat i) - dy)%Q) ∧
        (get2 0%nat components i j ≠ neg_val → get2 0%nat components i j = pos_val →
           (fx == inject_Z (Z.of_nat j) + dx)%Q ∧ (fy == inject_Z (Z.of_nat i) + dy)%Q) ∧
        (get2 0%nat components i j ≠ neg_val → get2 0%nat components i j ≠ pos_val →
           (fx == inject_Z (Z.of_nat j))%Q ∧ (fy == inject_Z (Z.of_nat i))%Q).
Proof.
  intros (tl & sides & Hdraw & Hlabel & Hflow)%prepare_deform_slice_Ok.
  unfold label_sides in Hlabel.
  destruct (nd_label L (amap2 negb (raster tl))) as [components n_components] eqn:Hnd.
  apply bind_Ok in Hlabel as ([] & Hassert & Hlabel).
  apply py_assert_Ok, bool_decide_eq_true in Hassert. subst n_components.
  apply bind_Ok in Hlabel as (c_first & Hfirst & Hlabel).
  apply bind_Ok in Hlabel as (c_last & Hlast & Hlabel).
  injection Hlabel as <-.
  exists tl, components, (if fixed_x tl then c_first else c_last),
    (if fixed_x tl then c_last else c_first).
  split; [done|]. split; [done|].
  split; [by destruct (fixed_x tl)|]. split; [by destruct (fixed_x tl)|].
  intros n nrm strength dx dy Hsq Hnorm i j Hi Hj.
  rewrite flow_fields_broadcast in Hflow.
  rewrite <- Hsq in Hflow. fold n in Hflow. rewrite broadcast_dim_same in Hflow.
  injection Hflow as <-. cbn [flow_x flow_y].
  rewrite !ravel2_tab2_lookup by done. rewrite !broadcast_ix_lt by done.
  unfold meshgrid_x, meshgrid_y, displacement. rewrite <- Hsq. fold n.
  rewrite !get2_tab2 by done.
  unfold normal_vector, fdiv, fneg, fnum. cbn [mbind option_bind].
  fold nrm. destruct (Qeq_bool nrm 0) eqn:Hz; [by apply Qeq_bool_iff in Hz|].
  cbn [mbind option_bind fst snd].
  set (c := get2 0%nat components i j).
  set (neg_val := if fixed_x tl then c_first else c_last).
  set (pos_val := if fixed_x tl then c_last else c_first).
  destruct (decide (c = neg_val)) as [Hneg|Hneg];
    [|destruct (decide (c = pos_val)) as [Hpos|Hpos]];
    cbn [fadd fmul mbind option_bind]; eexists _, _;
    (split; [reflexivity|]); (split; [reflexivity|]);
    (split_and!; intros; try done);
    unfold dx, dy, strength; rewrite ?inject_Z_opp; split; ring.
Qed.

(** X8.  With the dilation of scipy, the line mask the generator returns
    has the padded shape, and it is the band of the pixels of that shape
    that are at most ten steps, counted along the rows and the columns,
    from a pixel of the rasterised line. *)
Theorem line_mask_is_the_band_of_ten_steps_around_the_line slice_shape p t p' :
  binary_dilation L = ndimage_binary_dilation →
  prepare_deform_slice L E self slice_shape p = Ok (t, p') →
  ∃ tl, draw_tear_line L E self slice_shape p = Ok (tl, p') ∧
    shape2 (line_mask t) = (Z.to_nat (shape0 tl), Z.to_nat (shape1 tl)) ∧
    ∀ i j, get2 false (line_mask t) i j = true ↔
      (i < Z.to_nat (shape0 tl))%nat ∧ (j < Z.to_nat (shape1 tl))%nat ∧
      ∃ i' j', get2 false (raster tl) i' j' = true ∧ (manhattan i j i' j' ≤ 10)%nat.
Proof.
  intros HL (tl & [[components neg_val] pos_val] & Hdraw & _ & Hflow)%prepare_deform_slice_Ok.
  exists tl. split; [done|].
  destruct (draw_tear_line_shape _ _ _ _ _ _ _ Hdraw)
    as (s0 & s1 & _ & _ & _ & _ & _ & _ & Hshape).
  pose proof (draw_tear_line_within _ _ _ _ _ _ _ Hdraw) as Hwithin.
  rewrite flow_fields_broadcast in Hflow.
  destruct (broadcast_dim _ _); [|discriminate].
  destruct (broadcast_dim _ _); [|discriminate].
  injection Hflow as <-. cbn [line_mask]. rewrite HL.
  split; [by rewrite dilation_shape|].
  intros i j. rewrite (dilation_spec 10 _ i j Hwithin), Hshape. done.
Qed.

End GeneratorEdges.

(** ** The executor *)



(** Two slices along one of the three axes have no voxel in common. *)
Lemma sections_disjoint (ax c c' i j k : nat) :
  (ax < 3)%nat → c ≠ c' → in_section ax c i j k = true → in_section ax c' i j k = false.
Proof.
  intros Hax Hne. unfold in_section. rewrite !andb_true_iff, !bool_decide_eq_true.
  intros [[H0 H1] H2]. apply not_true_iff_false.
  rewrite !andb_true_iff, !bool_decide_eq_true. intros [[H0' H1'] H2'].
  destruct ax as [|[|[|ax]]]; [| | |lia].
  - specialize (H0 eq_refl). specialize (H0' eq_refl). congruence.
  - specialize (H1 eq_refl). specialize (H1' eq_refl). congruence.
  - specialize (H2 eq_refl). specialize (H2' eq_refl). congruence.
Qed.

Section ExecutorFacts.

Variable map_coordinates : Resampler.
Variable self : DefectAugment.

Lemma crop_axis_lookup {A} (d : nat) (l : list A) (j : nat) (v : A) :
  0 <= deformation_strength self →
  crop_axis self d l !! j = Some v → l !! (crop_offset self d + j)%nat = Some v.
Proof.
  intros Hs. unfold crop_axis, crop_offset. case_decide; [done|].
  by apply py_slice_lookup.
Qed.

(** A voxel the crop keeps is the voxel of the uncropped volume that lies
    [deformation_strength] further along the axes that are cropped. *)
Lemma crop_lookup_any_axis (a : array3) (i j k : nat) (v : Q) :
  0 <= deformation_strength self →
  lookup3 (crop self a) i j k = Some v →
  lookup3 a (crop_offset self 0 + i) (crop_offset self 1 + j) (crop_offset self 2 + k)
    = Some v.
Proof.
  intros Hs. unfold lookup3, crop. destruct (shape3 a) as [[d h] w]. simpl.
  rewrite list_lookup_fmap.
  destruct (crop_axis self 0 (planes a) !! i) as [pl|] eqn:Hpl; simpl; [|done].
  apply crop_axis_lookup in Hpl; [|done]. rewrite Hpl. simpl.
  rewrite list_lookup_fmap.
  destruct (crop_axis self 1 pl !! j) as [row|] eqn:Hrow; simpl; [|done].
  apply crop_axis_lookup in Hrow; [|done]. rewrite Hrow. simpl.
  intros Hv. by apply crop_axis_lookup in Hv.
Qed.

Lemma in_section_crop_offset (c i j k : nat) :
  in_section (axis self) c (crop_offset self 0 + i) (crop_offset self 1 + j)
    (crop_offset self 2 + k) = in_section (axis self) c i j k.
Proof.
  unfold in_section, crop_offset.
  destruct (axis self) as [|[|[|ax]]]; simpl; repeat case_decide; try lia; try done.
  all: repeat f_equal; apply bool_decide_ext; split; intros H ?; try lia;
    specialize (H ltac:(done)); lia.
Qed.

(** What every outcome of [process] other than a completed run leaves in
    the batch: the raw volume as the loop left it. *)
Lemma process_outcome plan batch request batch' outcome :
  process map_coordinates self plan batch request = (batch', outcome) →
  (batch' = batch ∧ outcome ≠ None ∧
   (batch !! RAW = None ∨ spec self !! RAW = None ∨
    ∃ e, outcome = Some e ∧
      (dims ← get_total_roi_dims batch;
       py_assert (bool_decide (dims = 3%nat)) "defectaugment works on 3d batches only")
      = Err e)) ∨
  ∃ raw sp raw_mid loop_outcome,
    batch !! RAW = Some raw ∧ spec self !! RAW = Some sp ∧
    process_loop map_coordinates self plan (voxel_size sp)
      (slice_to_augmentation plan) raw = (raw_mid, loop_outcome) ∧
    ((∃ e, loop_outcome = Some e ∧ outcome = Some e ∧ batch' = <[RAW := raw_mid]> batch) ∨
     (∃ e, loop_outcome = None ∧ restore self plan request raw_mid = Err e ∧
        outcome = Some e ∧ batch' = <[RAW := raw_mid]> batch) ∨
     (∃ raw', loop_outcome = None ∧ restore self plan request raw_mid = Ok raw' ∧
        outcome = None ∧ batch' = <[RAW := raw']> batch)).
Proof.
  unfold process. intros H.
  destruct (get_total_roi_dims batch) as [dims|e] eqn:Hdims; simpl in H.
  2:{ injection H as <- <-. left. split_and!; try done. right. right. by exists e. }
  destruct (py_assert _ _) as [[]|e] eqn:Hassert; simpl in H.
  2:{ injection H as <- <-. left. split_and!; try done. right. right. by exists e. }
  unfold batch_get, request_get in H.
  destruct (batch !! RAW) as [raw|] eqn:Hraw; simpl in H.
  2:{ injection H as <- <-. left. split_and!; try done. by left. }
  destruct (spec self !! RAW) as [sp|] eqn:Hsp; simpl in H.
  2:{ injection H as <- <-. left. split_and!; try done. right. by left. }
  right. destruct (process_loop _ _ _ _ _ _) as [raw_mid [e|]] eqn:Hloop.
  - injection H as <- <-. exists raw, sp, raw_mid, (Some e). split_and!; try done.
    left. by exists e.
  - destruct (restore _ _ _ _) as [raw'|e] eqn:Hrest; injection H as <- <-;
      exists raw, sp, raw_mid, None; split_and!; try done.
    + right. right. by exists raw'.
    + right. left. by exists e.
Qed.

Lemma process_loop_cons plan rvs c kind items raw :
  process_loop map_coordinates self plan rvs ((c, kind) :: items) raw =
  match process_slice map_coordinates self plan rvs c kind raw with
  | Ok raw' => process_loop map_coordinates self plan rvs items raw'
  | Err e => (raw, Some e)
  end.
Proof. done. Qed.

Lemma restore_attributes plan request raw raw' :
  restore self plan request raw = Ok raw' →
  vol_dtype raw' = vol_dtype raw ∧
  voxel_size (vol_spec raw') = voxel_size (vol_spec raw) ∧
  interpolatable (vol_spec raw') = interpolatable (vol_spec raw) ∧
  spec_dtype (vol_spec raw') = spec_dtype (vol_spec raw).
Proof.
  unfold restore. case_bool_decide; [|by intros [= <-]].
  intros Hr. ok_steps Hr. by subst.
Qed.

(** X9.  Whatever its outcome, [process] leaves the volumes other than
    the raw volume as they are, and keeps the type, the voxel size and the
    other attributes of the raw volume but its ROI.  When no crop takes
    place, that is when an exception is raised or the plan holds no
    deformed slice, the ROI and the shape are kept as well, and a voxel
    outside the planned slices holds the value it had.  After a crop,
    with a strength that is not negative, a voxel outside the planned
    slices holds the value of the voxel [deformation_strength] further in
    along the cropped axes. *)
Theorem process_changes_the_planned_slices_only plan batch request batch' outcome :
  process map_coordinates self plan batch request = (batch', outcome) →
  (∀ k, k ≠ RAW → batch' !! k = batch !! k) ∧
  ∀ raw, batch !! RAW = Some raw →
    ∃ raw', batch' !! RAW = Some raw' ∧
      vol_dtype raw' = vol_dtype raw ∧
      voxel_size (vol_spec raw') = voxel_size (vol_spec raw) ∧
      interpolatable (vol_spec raw') = interpolatable (vol_spec raw) ∧
      spec_dtype (vol_spec raw') = spec_dtype (vol_spec raw) ∧
      (outcome ≠ None ∨ "deformed_slice" ∉ dict_values (slice_to_augmentation plan) →
         vol_spec raw' = vol_spec raw ∧
         shape3 (vol_data raw') = shape3 (vol_data raw) ∧
         ∀ i j k,
           (∀ c kind, (c, kind) ∈ slice_to_augmentation plan →
              in_section (axis self) c i j k = false) →
           lookup3 (vol_data raw') i j k = lookup3 (vol_data raw) i j k) ∧
      (outcome = None → "deformed_slice" ∈ dict_values (slice_to_augmentation plan) →
         0 <= deformation_strength self →
         ∀ i j k v,
           (∀ c kind, (c, kind) ∈ slice_to_augmentation plan →
              in_section (axis self) c i j k = false) →
           lookup3 (vol_data raw') i j k = Some v →
           lookup3 (vol_data raw) (crop_offset self 0 + i) (crop_offset self 1 + j)
             (crop_offset self 2 + k) = Some v).
Proof.
  intros H. apply process_outcome in H
    as [(-> & Hout & _)|(raw & sp & raw_mid & lo & Hraw & Hsp & Hloop & Hcases)].
  { split; [done|]. intros raw Hraw. exists raw. split_and!; try done. }
  destruct (process_loop_frame _ _ _ _ _ _ _ _ Hloop) as (Hf1 & Hf2 & Hf3 & Hf4).
  assert (∀ k, k ≠ RAW → ∀ x, <[RAW := x]> batch !! k = batch !! k) as Hother
    by (intros k Hk x; by rewrite lookup_insert_ne).
  destruct Hcases as [(e & -> & -> & ->)|[(e & -> & Hrest & -> & ->)|(raw' & -> & Hrest & -> & ->)]].
  - split; [intros k Hk; by apply Hother|]. intros raw0 Hraw0.
    rewrite Hraw in Hraw0. injection Hraw0 as <-. exists raw_mid.
    rewrite lookup_insert_eq, Hf1. split_and!; try done.
  - split; [intros k Hk; by apply Hother|]. intros raw0 Hraw0.
    rewrite Hraw in Hraw0. injection Hraw0 as <-. exists raw_mid.
    rewrite lookup_insert_eq, Hf1. split_and!; try done.
  - split; [intros k Hk; by apply Hother|]. intros raw0 Hraw0.
    rewrite Hraw in Hraw0. injection Hraw0 as <-. exists raw'.
    rewrite lookup_insert_eq.
    destruct (restore_attributes _ _ _ _ Hrest) as (Ha1 & Ha2 & Ha3 & Ha4).
    rewrite Hf1 in Ha2, Ha3, Ha4. rewrite Hf2 in Ha1.
    apply restore_Ok in Hrest as [[Hno ->]|(Hyes & sp0 & Hsp0 & Hroi & Hdt & Hdata)].
    + rewrite Hf1. split_and!; try done.
    + split_and!; try done.
      * intros [?|?]; done.
      * intros _ _ Hs i j k v Hout Hv. rewrite Hdata in Hv.
        apply crop_lookup_any_axis in Hv; [|done]. rewrite Hf4 in Hv; [done|].
        intros c kind Hin. rewrite in_section_crop_offset. by eapply Hout.
Qed.

(** X10.  When [process] completes on a plan with distinct slice indices,
    for a cut axis that is one of the three axes and a strength that is
    not negative, every voxel of a slice planned as missing is 0 in the
    raw volume that comes back. *)
Theorem missing_slices_are_zero plan batch request batch' raw' c :
  process map_coordinates self plan batch request = (batch', None) →
  NoDup (slice_to_augmentation plan).*1 →
  (axis self < 3)%nat → 0 <= deformation_strength self →
  (c, "zero_out") ∈ slice_to_augmentation plan →
  batch' !! RAW = Some raw' →
  ∀ i j k v, in_section (axis self) c i j k = true →
    lookup3 (vol_data raw') i j k = Some v → v = 0%Q.
Proof.
  intros Hproc Hnd Hax Hs Hin Hraw'.
  apply process_Ok in Hproc as (raw & raw_mid & raw0 & sp & Hraw & Hsp & Hloop & Hrest & ->).
  rewrite lookup_insert_eq in Hraw'. injection Hraw' as ->.
  apply list_elem_of_split in Hin as (l1 & l2 & Hsplit).
  rewrite Hsplit in Hloop, Hnd. rewrite process_loop_app in Hloop.
  destruct (process_loop _ _ _ _ l1 raw) as [raw1 [e|]] eqn:Hl1; [discriminate|].
  rewrite process_loop_cons in Hloop.
  destruct (process_slice _ _ _ _ c _ raw1) as [raw2|e] eqn:Hstep; [|discriminate].
  destruct (process_loop_frame _ _ _ _ _ _ _ _ Hloop) as (_ & _ & _ & Hfr2).
  rewrite fmap_app, fmap_cons in Hnd. simpl in Hnd.
  apply NoDup_app in Hnd as (_ & _ & Hnd2). apply NoDup_cons in Hnd2 as [Hnd2 _].
  assert (∀ i j k v, in_section (axis self) c i j k = true →
            lookup3 (vol_data raw_mid) i j k = Some v → v = 0%Q) as Hmid.
  { intros i j k v Hsec Hv. rewrite Hfr2 in Hv.
    - unfold process_slice in Hstep. rewrite decide_True in Hstep by done.
      injection Hstep as <-. simpl in Hv. rewrite lookup3_update3, Hsec in Hv.
      destruct (lookup3 (vol_data raw1) i j k); [|done]. injection Hv as <-.
      apply cast_zero.
    - intros c' kind Hin. apply (sections_disjoint _ c); [done| |done].
      intros <-. apply Hnd2. apply list_elem_of_fmap. by exists (c, kind). }
  intros i j k v Hsec Hv.
  apply restore_Ok in Hrest as [[_ ->]|(_ & _ & _ & _ & _ & Hdata)]; [by eapply Hmid|].
  rewrite Hdata in Hv. apply crop_lookup_any_axis in Hv; [|done].
  eapply Hmid; [|exact Hv]. by rewrite in_section_crop_offset.
Qed.

(** X11.  When [process] completes on a plan with a deformed slice, with
    a strength above 0, on a raw volume that has [2 * deformation_strength]
    voxels more than d x h x w along every axis but the cut axis, the raw
    volume that comes back has the shape d x h x w, the ROI of the raw
    entry of the request given to [process], and the type, the voxel size
    and the other attributes it came with. *)
Theorem crop_gives_back_the_requested_region plan batch request batch' raw (d h w : nat) :
  process map_coordinates self plan batch request = (batch', None) →
  "deformed_slice" ∈ dict_values (slice_to_augmentation plan) →
  0 < deformation_strength self →
  batch !! RAW = Some raw →
  shape3 (vol_data raw) =
    (if decide (0%nat = axis self) then d else d + 2 * Z.to_nat (deformation_strength self),
     if decide (1%nat = axis self) then h else h + 2 * Z.to_nat (deformation_strength self),
     if decide (2%nat = axis self) then w else w + 2 * Z.to_nat (deformation_strength self))%nat →
  ∃ raw' sp,
    batch' !! RAW = Some raw' ∧ request !! RAW = Some sp ∧
    roi (vol_spec raw') = roi sp ∧
    shape3 (vol_data raw') = (d, h, w) ∧
    vol_dtype raw' = vol_dtype raw ∧
    voxel_size (vol_spec raw') = voxel_size (vol_spec raw) ∧
    interpolatable (vol_spec raw') = interpolatable (vol_spec raw) ∧
    spec_dtype (vol_spec raw') = spec_dtype (vol_spec raw).
Proof.
  intros Hproc Hdef Hs Hraw Hsh.
  apply process_Ok in Hproc as (raw0 & raw_mid & raw' & sp & Hraw0 & Hsp & Hloop & Hrest & ->).
  rewrite Hraw in Hraw0. injection Hraw0 as <-.
  destruct (process_loop_frame _ _ _ _ _ _ _ _ Hloop) as (Hf1 & Hf2 & Hf3 & _).
  destruct (restore_attributes _ _ _ _ Hrest) as (Ha1 & Ha2 & Ha3 & Ha4).
  rewrite Hf1 in Ha2, Ha3, Ha4. rewrite Hf2 in Ha1. rewrite <- Hf3 in Hsh.
  destruct (restore_geometry _ _ _ _ _ _ _ _ Hrest Hdef Hs Hsh) as [(sp0 & Hsp0 & Hroi) Hshape].
  exists raw', sp0. rewrite lookup_insert_eq. split_and!; done.
Qed.

(** X12.  A deformed slice is written back only along the first axis.
    With the cut axis 1 or 2, the slice that is squeezed to two dimensions
    does not broadcast to the section it is assigned to: whenever the plan
    holds a deformed slice that lies inside the raw volume, [process]
    raises an exception. *)
Theorem deformed_slices_need_the_first_axis plan batch request batch' outcome raw c :
  process map_coordinates self plan batch request = (batch', outcome) →
  (c, "deformed_slice") ∈ slice_to_augmentation plan →
  batch !! RAW = Some raw →
  (c < axis_extent (shape3 (vol_data raw)) (axis self))%nat →
  axis self ≠ 0%nat →
  ∃ e, outcome = Some e.
Proof.
  intros Hproc Hin Hraw Hc Hax. destruct outcome as [e|]; [by exists e|]. exfalso.
  apply process_Ok in Hproc as (raw0 & raw_mid & raw' & sp & Hraw0 & Hsp & Hloop & Hrest & ->).
  rewrite Hraw in Hraw0. injection Hraw0 as <-.
  apply list_elem_of_split in Hin as (l1 & l2 & Hsplit).
  rewrite Hsplit, process_loop_app in Hloop.
  destruct (process_loop _ _ _ _ l1 raw) as [raw1 [e|]] eqn:Hl1; [discriminate|].
  rewrite process_loop_cons in Hloop.
  destruct (process_slice _ _ _ _ c _ raw1) as [raw2|e] eqn:Hstep; [|discriminate].
  destruct (process_loop_frame _ _ _ _ _ _ _ _ Hl1) as (_ & _ & Hsh1 & _).
  apply process_slice_deformed in Hstep as (_ & _ & _ & _ & _ & _ & Hax0 & _);
    [done|by rewrite Hsh1].
Qed.

(** X13.  The two conditions an artifact slice puts on the node before
    anything is asked from the artifact source.  A node without an
    artifact source raises an [AttributeError] at the first artifact
    slice of the plan; a node whose artifact source has, for its alpha
    mask, another voxel size than the raw stream raises the
    [AssertionError] that says so.  In both cases the slices planned
    before the artifact slice have been augmented in place. *)
Theorem artifact_slices_need_a_source_with_the_voxel_size_of_the_stream
    plan batch request raw sp earlier c later raw1 :
  get_total_roi_dims batch = Ok 3%nat →
  batch !! RAW = Some raw → spec self !! RAW = Some sp →
  slice_to_augmentation plan = earlier ++ (c, "artifact") :: later →
  process_loop map_coordinates self plan (voxel_size sp) earlier raw = (raw1, None) →
  (artifact_source self = None →
     process map_coordinates self plan batch request
     = (<[RAW := raw1]> batch, Some AttributeError)) ∧
  (∀ source alpha_spec,
     artifact_source self = Some source →
     provider_spec source !! ALPHA_MASK = Some alpha_spec →
     voxel_size alpha_spec ≠ voxel_size sp →
     process map_coordinates self plan batch request
     = (<[RAW := raw1]> batch,
        Some (AssertionError
          "Can only alpha blend RAW with ALPHA_MASK if both have the same voxel size"))).
Proof.
  intros Hdims Hraw Hsp Hplan Hloop.
  assert (∀ e, process_slice map_coordinates self plan (voxel_size sp) c "artifact" raw1
               = Err e →
            process map_coordinates self plan batch request
            = (<[RAW := raw1]> batch, Some e)) as Hraise.
  { intros e He. unfold process. rewrite Hdims. simpl.
    unfold batch_get, request_get. rewrite Hraw, Hsp. simpl.
    rewrite Hplan, process_loop_app, Hloop, process_loop_cons. by rewrite He. }
  split.
  - intros Hsrc. apply Hraise. unfold process_slice.
    repeat case_decide; try congruence. by rewrite Hsrc.
  - intros source alpha_spec Hsrc Halpha Hvs. apply Hraise. unfold process_slice.
    repeat case_decide; try congruence. rewrite Hsrc. simpl.
    unfold request_get. rewrite Halpha. simpl.
    rewrite bool_decide_eq_false_2 by congruence. done.
Qed.





End ExecutorFacts.

(** ** From the plan to its execution *)

Lemma dict_get_elem_of {V} (d : list (nat * V)) (k : nat) (v : V) :
  NoDup d.*1 → (k, v) ∈ d → dict_get d k = Some v.
Proof.
  induction d as [|[k0 v0] d IH]; csimpl; intros Hnd Hin; [by apply elem_of_nil in Hin|].
  apply NoDup_cons in Hnd as [Hk0 Hnd].
  apply elem_of_cons in Hin as [[= -> ->]|Hin]; [by rewrite decide_True|].
  rewrite decide_False; [by apply IH|].
  intros ->. apply Hk0. apply list_elem_of_fmap. by exists (k, v).
Qed.

Lemma section_shape_first (c d h w : nat) :
  (c < d)%nat → section_shape 0 c (d, h, w) = (1%nat, h, w).
Proof. intros Hc. unfold section_shape. simpl. by rewrite sel_len_lt. Qed.

Section Composition.

Variable L : GeomLib.
Variable E : Entropy.
Variable map_coordinates : Resampler.
Variable self : DefectAugment.

(** Where the transformations of a plan come from. *)
Lemma prepare_slice_transformation roi v c plan p plan' p' :
  prepare_slice L E self roi v c (plan, p) = Ok (plan', p') →
  ∀ c' t, dict_get (deform_slice_transformations plan') c' = Some t →
    dict_get (deform_slice_transformations plan) c' = Some t ∨
    ∃ voxels p0 p1, roi_div roi v = Ok voxels ∧
      prepare_deform_slice L E self
        (take (axis self) (get_shape voxels) ++ drop (S (axis self)) (get_shape voxels))
        p0 = Ok (t, p1).
Proof.
  unfold prepare_slice, random_random. intros H c' t.
  repeat match type of H with
  | (if ?b then _ else _) = _ => destruct b eqn:?
  end; try (injection H as <- <-; simpl; by left).
  apply bind_Ok in H as (voxels & Hdiv & H).
  apply bind_Ok in H as ([t0 p0] & Hgen & H). injection H as <- <-. simpl.
  rewrite dict_get_set. case_decide; [|by left].
  intros [= <-]. right. eauto.
Qed.

Lemma prepare_loop_transformation roi v cs : ∀ plan p plan' p',
  prepare_loop L E self roi v cs (plan, p) = Ok (plan', p') →
  ∀ c' t, dict_get (deform_slice_transformations plan') c' = Some t →
    dict_get (deform_slice_transformations plan) c' = Some t ∨
    ∃ voxels p0 p1, roi_div roi v = Ok voxels ∧
      prepare_deform_slice L E self
        (take (axis self) (get_shape voxels) ++ drop (S (axis self)) (get_shape voxels))
        p0 = Ok (t, p1).
Proof.
  induction cs as [|c cs IH]; intros plan p plan' p' H c' t Ht; simpl in H.
  - injection H as <- <-. by left.
  - apply bind_Ok in H as ([plan1 p1] & Hs & H).
    destruct (IH _ _ _ _ H c' t Ht) as [Hold|?]; [|by right].
    exact (prepare_slice_transformation _ _ _ _ _ _ _ Hs c' t Hold).
Qed.

(** A transformation generated for a square slice fits the padded slice:
    one pair of coordinates per pixel and a mask of the padded shape,
    which has four pixels a side or more. *)
Lemma generated_transformation_fits (m : Z) p0 t p1 :
  (∀ k mask, shape2 (binary_dilation L k mask) = shape2 mask) →
  prepare_deform_slice L E self [m; m] p0 = Ok (t, p1) →
  let n := Z.to_nat (m + 2 * deformation_strength self) in
  (4 ≤ n)%nat ∧ length (flow_x t) = (n * n)%nat ∧ length (flow_y t) = (n * n)%nat ∧
  shape2 (line_mask t) = (n, n).
Proof.
  intros HL (tl & sides & Hdraw & _ & Hflow)%prepare_deform_slice_Ok n.
  destruct (draw_tear_line_shape _ _ _ _ _ _ _ Hdraw)
    as (s0 & s1 & Hs0 & Hs1 & H0 & H1 & Hn0 & Hn1 & Hshape).
  injection Hs0 as <-. injection Hs1 as <-.
  destruct (draw_tear_line_endpoints _ _ _ _ _ _ _ Hdraw) as (_ & _ & Hx & Hy).
  assert (1 < m + 2 * deformation_strength self - 2) as Hdim.
  { destruct (fixed_x tl); [destruct (Hx eq_refl) as [? _]|destruct (Hy eq_refl) as [? _]];
      lia. }
  destruct (flow_fields_compatible L self tl sides) as (t' & Ht' & Hmask & Hlx & Hly);
    [left; congruence|].
  rewrite Hflow in Ht'. injection Ht' as <-.
  rewrite Hly, Hlx, Hmask, HL, Hshape, H0, H1. fold n.
  split; [unfold n; lia|]. rewrite decide_False by (unfold n; lia). done.
Qed.

(** The iteration on a deformed slice goes through when the
    transformation fits the slices of the volume. *)
Lemma process_slice_deformed_goes_through plan rvs c raw t sp (d n : nat) :
  axis self = 0%nat → spec self !! RAW = Some sp →
  dict_get (deform_slice_transformations plan) c = Some t →
  shape3 (vol_data raw) = (d, n, n) → (c < d)%nat → (4 ≤ n)%nat →
  length (flow_x t) = (n * n)%nat → length (flow_y t) = (n * n)%nat →
  shape2 (line_mask t) = (n, n) →
  (∀ a ys xs o, length ys = length xs → length (map_coordinates a ys xs o) = length ys) →
  ∃ raw', process_slice map_coordinates self plan rvs c "deformed_slice" raw = Ok raw'.
Proof.
  intros Hax Hsp Ht Hsh Hc Hn Hlx Hly Hmask Hmc. unfold process_slice.
  rewrite decide_False by done. rewrite decide_False by done.
  rewrite decide_False by done. rewrite decide_True by done.
  unfold request_get. rewrite Hsp. cbn [mbind result_bind]. rewrite Ht.
  cbn [mbind result_bind].
  assert (∃ sec, squeeze2 (get_section (vol_data raw) (axis self) c) = Some sec ∧
            shape2 sec = (n, n)) as (sec & -> & Hsec).
  { unfold squeeze2. rewrite get_section_shape, Hsh, Hax, section_shape_first by done.
    rewrite decide_True by done. rewrite !decide_False by lia. eexists. split; done. }
  cbn [mbind result_bind]. rewrite Hsec. unfold reshape2.
  rewrite decide_True by (rewrite Hmc; congruence). cbn [mbind result_bind].
  unfold zero_under. rewrite decide_True by (by rewrite Hmask). cbn [mbind result_bind].
  unfold assign_section, as_plane. cbn [shape3 shape2 tab2 fst snd].
  rewrite Hsh, Hax, section_shape_first by done.
  unfold broadcastable. rewrite !bool_decide_eq_true_2 by auto.
  cbn [andb mbind result_bind]. eauto.
Qed.

Lemma kind_of_draw_kinds (r : Q) (kind : string) :
  kind_of_draw self r = Some kind →
  kind = "zero_out" ∨ kind = "lower_contrast" ∨ kind = "artifact" ∨ kind = "deformed_slice".
Proof.
  unfold kind_of_draw.
  repeat match goal with |- context [if ?b then _ else _] => destruct b end;
    intros [= <-]; auto.
Qed.

(** X15.  [prepare] and [process] fit together.  For a node that cuts
    along the first axis, a request whose slices are square, m x m voxels,
    and a plan of [prepare] without an artifact slice: on a batch whose
    raw volume has the slices of the request, padded to m + 2 *
    deformation_strength a side when the plan holds a deformed slice,
    [process] completes without an exception.  The dilation is only
    required to keep the shape of the mask, and the resampler to return
    one sample per pair of coordinates. *)
Theorem a_prepared_plan_is_carried_out request p plan request' p' batch raw
    spec_raw r sp v voxels (n0 m : Z) :
  prepare L E self request p = Ok (plan, request', p') →
  (∀ k mask, shape2 (binary_dilation L k mask) = shape2 mask) →
  (∀ a ys xs o, length ys = length xs → length (map_coordinates a ys xs o) = length ys) →
  axis self = 0%nat →
  "artifact" ∉ dict_values (slice_to_augmentation plan) →
  request !! RAW = Some spec_raw → roi spec_raw = Some r →
  spec self !! RAW = Some sp → voxel_size sp = Some v →
  roi_div r v = Ok voxels → roi_shape voxels = [n0; m; m] →
  get_total_roi_dims batch = Ok 3%nat →
  batch !! RAW = Some raw →
  ("deformed_slice" ∈ dict_values (slice_to_augmentation plan) →
     shape3 (vol_data raw) =
       (Z.to_nat n0, Z.to_nat (m + 2 * deformation_strength self),
        Z.to_nat (m + 2 * deformation_strength self))) →
  ∃ batch', process map_coordinates self plan batch request = (batch', None).
Proof.
  intros Hprep HL Hmc Hax Hnoart Hreq Hroi Hsp Hv Hdiv Hvox Hdims Hraw Hshape.
  pose proof (prepare_Ok _ _ _ _ _ _ _ _ Hprep)
    as (spec_raw' & sp' & r' & v' & extent & size & Hreq' & Hroi' & Hsp' & Hv' & Hext
        & Hsize & Hloop & _).
  rewrite Hreq in Hreq'. injection Hreq' as <-.
  rewrite Hroi in Hroi'. injection Hroi' as <-.
  rewrite Hsp in Hsp'. injection Hsp' as <-.
  rewrite Hv in Hv'. injection Hv' as <-.
  pose proof (prepare_loop_transformation _ _ _ _ _ _ _ Hloop) as Hprov.
  apply prepare_loop_invariants in Hloop
    as (ks & ds & HS & HT & Hks & Hds & _ & _ & Hd & Hval & _);
    [|apply NoDup_seq|intros c _; simpl; split; apply not_elem_of_nil].
  simpl in HS, HT. rewrite <- HS in Hks. rewrite <- HT in Hd.
  assert (n0 = extent / size) as Hn0.
  { unfold roi_div in Hdiv. ok_steps Hdiv. subst voxels. simpl in Hvox.
    pose proof (coordinate_div_lookup _ _ _ (axis self) Hstep0) as Hl.
    rewrite Hvox, Hext, Hsize, Hax in Hl. simpl in Hl. by injection Hl. }
  assert (NoDup (slice_to_augmentation plan).*1) as Hnd
    by (eapply sublist_NoDup; [apply NoDup_seq|exact Hks]).
  (* every transformation fits the padded slice *)
  assert (∀ c t, dict_get (deform_slice_transformations plan) c = Some t →
            let n := Z.to_nat (m + 2 * deformation_strength self) in
            (4 ≤ n)%nat ∧ length (flow_x t) = (n * n)%nat ∧
            length (flow_y t) = (n * n)%nat ∧ shape2 (line_mask t) = (n, n)) as Hfit.
  { intros c t Ht. destruct (Hprov c t Ht) as [Hnil|(voxels' & p0 & p1 & Hdiv' & Hgen)];
      [done|].
    rewrite Hdiv in Hdiv'. injection Hdiv' as <-.
    unfold get_shape in Hgen. rewrite Hvox, Hax in Hgen. simpl in Hgen.
    by eapply generated_transformation_fits. }
  (* the loop *)
  assert (∀ items, (∀ c kind, (c, kind) ∈ items → (c, kind) ∈ slice_to_augmentation plan) →
            ∀ raw0, shape3 (vol_data raw0) = shape3 (vol_data raw) →
              ∃ raw1, process_loop map_coordinates self plan (voxel_size sp) items raw0
                      = (raw1, None)) as Hitems.
  { induction items as [|[c kind] items IH]; intros Hsub raw0 Hsh0; [by eexists|].
    rewrite process_loop_cons.
    assert (∃ raw0', process_slice map_coordinates self plan (voxel_size sp) c kind raw0
                     = Ok raw0') as (raw0' & Hstep).
    { assert ((c, kind) ∈ slice_to_augmentation plan) as Hin by (apply Hsub; left).
      assert (kind ∈ dict_values (slice_to_augmentation plan)) as Hkind
        by (apply list_elem_of_fmap; by exists (c, kind)).
      destruct (Hval kind Hkind) as [Hnil|(k & Hk)]; [by apply elem_of_nil in Hnil|].
      apply kind_of_draw_kinds in Hk as [-> | [-> | [-> | ->]]].
      - unfold process_slice. rewrite decide_True by done. eauto.
      - rewrite lower_contrast_tag_has_no_branch. eauto.
      - done.
      - pose proof (dict_get_elem_of _ _ _ Hnd Hin) as Hget.
        assert (c ∈ seq 0 (Z.to_nat (extent / size))) as Hc.
        { eapply elem_of_sublist; [|exact Hks]. apply list_elem_of_fmap. by exists (c, "deformed_slice"). }
        assert (c ∈ (deform_slice_transformations plan).*1) as HcT by (by apply Hd).
        apply elem_of_seq in Hc.
        destruct (dict_get (deform_slice_transformations plan) c) as [t|] eqn:Ht;
          [|by apply dict_get_None in Ht].
        destruct (Hfit c t Ht) as (Hn & Hlx & Hly & Hmask).
        eapply (process_slice_deformed_goes_through plan _ c raw0 t sp
                  (Z.to_nat n0)); try done.
        + rewrite Hsh0. by apply Hshape.
        + lia. }
    rewrite Hstep. apply IH.
    - intros c' kind' Hin. apply Hsub. by right.
    - apply process_slice_frame in Hstep as (_ & _ & Hsh & _). congruence. }
  destruct (Hitems (slice_to_augmentation plan)) with (raw0 := raw) as (raw1 & Hl1);
    [done|done|].
  unfold process. rewrite Hdims. cbn [mbind result_bind]. unfold py_assert.
  rewrite bool_decide_eq_true_2 by done. cbn [mbind result_bind].
  unfold batch_get, request_get. rewrite Hraw, Hsp. cbn [mbind result_bind].
  rewrite Hl1. unfold restore, request_get. rewrite Hreq.
  case_bool_decide; cbn [mbind result_bind]; eauto.
Qed.

End Composition.

(** ** Properties of the prediction node *)

Section PredictProperties.

Import Torch.

Context {Tensor NdArray Model Layer : Type} `{EqDecision Layer}.
Variable T : TorchLib Tensor NdArray Model Layer.

Lemma odict_get_set {V} (d : list (string * V)) (k k' : string) (v : V) :
  odict_get (odict_set d k v) k' = if decide (k = k') then Some v else odict_get d k'.
Proof.
  induction d as [|[k0 v0] d IH]; simpl.
  - repeat case_decide; congruence.
  - destruct (decide (k0 = k)) as [->|Hne]; simpl.
    + repeat case_decide; congruence.
    + rewrite IH. repeat case_decide; congruence.
Qed.

Lemma odict_get_None {V} (d : list (string * V)) (k : string) :
  odict_get d k = None ↔ k ∉ d.*1.
Proof.
  induction d as [|[k0 v0] d IH]; csimpl.
  - split; [intros _; apply not_elem_of_nil | done].
  - rewrite not_elem_of_cons. case_decide as Hk.
    + split; [done | intros [? _]; congruence].
    + rewrite IH. split; [intros ?; split; [congruence|done] | intros [_ ?]; done].
Qed.

Lemma odict_get_None_inv_keys {V} (d : list (string * V)) (k : string) :
  k ∈ d.*1 → odict_get d k ≠ None.
Proof. intros Hin Hnone. by apply odict_get_None in Hnone. Qed.

Lemma odict_get_Some {V} (d : list (string * V)) (k : string) (v : V) :
  odict_get d k = Some v → (k, v) ∈ d.
Proof.
  induction d as [|[k0 v0] d IH]; simpl; [done|]. intros Hk.
  case_decide; [injection Hk as ->; subst; left|right; by apply IH].
Qed.

Lemma odict_get_elem_of {V} (d : list (string * V)) (k : string) (v : V) :
  NoDup d.*1 → (k, v) ∈ d → odict_get d k = Some v.
Proof.
  induction d as [|[k0 v0] d IH]; csimpl; intros Hnd Hin; [by apply elem_of_nil in Hin|].
  apply NoDup_cons in Hnd as [Hk0 Hnd].
  apply elem_of_cons in Hin as [[= -> ->]|Hin]; [by rewrite decide_True|].
  rewrite decide_False; [by apply IH|].
  intros ->. apply Hk0. apply list_elem_of_fmap. by exists (k, v).
Qed.

Lemma tuple_get_error {A} (t : list A) (i : Z) e : tuple_get t i = Err e → e = IndexError.
Proof.
  unfold tuple_get, py_index. intros H0.
  repeat match type of H0 with
  | context [if ?b then _ else _] => destruct b; simpl in H0
  | context [match ?o with Some _ => _ | None => _ end] => destruct o; simpl in H0
  end; congruence.
Qed.

(** One entry of [outputs] in the loop of [get_outputs]. *)
Lemma get_outputs_loop_cons (self : Predict Tensor Model Layer) module_outs request
    key value items acc :
  get_outputs_loop self module_outs request ((key, value) :: items) acc =
  if decide (is_Some (request !! value)) then
    o ← resolve self module_outs key;
    get_outputs_loop self module_outs request items
      (match o with Some t => odict_set acc value t | None => acc end)
  else get_outputs_loop self module_outs request items acc.
Proof.
  simpl. case_decide; [|done]. destruct key as [name|index|]; simpl; [| |done].
  - by destruct (intermediate_layers self !! name).
  - by destruct (tuple_get module_outs index).
Qed.

Lemma get_outputs_loop_Ok (self : Predict Tensor Model Layer) module_outs request items :
  ∀ acc outs,
  get_outputs_loop self module_outs request items acc = Ok outs →
  (∀ k t, odict_get outs k = Some t →
     odict_get acc k = Some t ∨
     (is_Some (request !! k) ∧
      ∃ key, (key, k) ∈ items ∧ resolve self module_outs key = Ok (Some t))) ∧
  (∀ k, is_Some (odict_get acc k) → is_Some (odict_get outs k)) ∧
  (∀ key k, (key, k) ∈ items → is_Some (request !! k) → key ≠ KeyOther →
     is_Some (odict_get outs k)) ∧
  (∀ k, k ∉ items.*2 → odict_get outs k = odict_get acc k) ∧
  (NoDup items.*2 →
   ∀ key k, (key, k) ∈ items → is_Some (request !! k) → key ≠ KeyOther →
     resolve self module_outs key = Ok (odict_get outs k)).
Proof.
  induction items as [|[key value] items IH]; intros acc outs Hloop.
  - injection Hloop as <-. split_and!; try done; auto.
    + intros key k Hin. by apply elem_of_nil in Hin.
    + intros _ key k Hin. by apply elem_of_nil in Hin.
  - rewrite get_outputs_loop_cons in Hloop.
    destruct (decide (is_Some (request !! value))) as [Hreq|Hreq].
    + apply bind_Ok in Hloop as (o & Hres & Hloop).
      destruct (IH _ _ Hloop) as (H1 & H2 & H3 & H4 & H5).
      assert (∀ k, is_Some (odict_get acc k) →
                is_Some (odict_get (match o with
                                    | Some t => odict_set acc value t | None => acc end) k))
        as Hmono.
      { intros k Hk. destruct o; [|done]. rewrite odict_get_set. by case_decide. }
      split_and!.
      * intros k t Hk. destruct (H1 k t Hk) as [Hacc|(Hr & key' & Hin & Hres')].
        -- destruct o as [t0|]; [|by left]. rewrite odict_get_set in Hacc.
           case_decide; [|by left]. subst k. injection Hacc as ->.
           right. split; [done|]. exists key. split; [left|done].
        -- right. split; [done|]. exists key'. split; [by right|done].
      * intros k Hk. by apply H2, Hmono.
      * intros key' k [[= -> ->]|Hin]%elem_of_cons Hr Hne; [|by eapply H3].
        apply H2. destruct o as [t0|].
        -- rewrite odict_get_set, decide_True by done. done.
        -- destruct key; simpl in Hres; try done.
           ++ by destruct (intermediate_layers self !! name).
           ++ by destruct (tuple_get module_outs index).
      * intros k Hk. csimpl in Hk. apply not_elem_of_cons in Hk as [Hne Hk].
        rewrite (H4 _ Hk). destruct o; [|done]. rewrite odict_get_set.
        by rewrite decide_False.
      * intros Hnd key' k Hin Hr Hne. csimpl in Hnd.
        apply NoDup_cons in Hnd as [Hv Hnd].
        apply elem_of_cons in Hin as [[= -> ->]|Hin]; [|by eapply H5].
        rewrite (H4 _ Hv). rewrite Hres. f_equal. destruct o as [t0|].
        -- by rewrite odict_get_set, decide_True.
        -- destruct key; simpl in Hres; try done.
           ++ by destruct (intermediate_layers self !! name).
           ++ by destruct (tuple_get module_outs index).
    + destruct (IH _ _ Hloop) as (H1 & H2 & H3 & H4 & H5). split_and!.
      * intros k t Hk. destruct (H1 k t Hk) as [Hacc|(Hr & key' & Hin & Hres')];
          [by left|]. right. split; [done|]. exists key'. split; [by right|done].
      * done.
      * intros key' k [[= -> ->]|Hin]%elem_of_cons Hr Hne; [done|by eapply H3].
      * intros k Hk. csimpl in Hk. apply not_elem_of_cons in Hk as [Hne Hk]. by apply H4.
      * intros Hnd key' k Hin Hr Hne. csimpl in Hnd.
        apply NoDup_cons in Hnd as [Hv Hnd].
        apply elem_of_cons in Hin as [[= -> ->]|Hin]; [done|by eapply H5].
Qed.

(** X16.  The dictionary [get_outputs] returns holds the requested
    outputs and nothing else.  Its keys are array keys of the request
    that [outputs] names; every entry of [outputs] whose array key is
    requested, and whose key is a string or an integer, has its array key
    in the dictionary; the tensor under an array key is the one saved in
    [intermediate_layers] for the name, or the one at the index in the
    outputs of the model, of an entry of [outputs] with that array key
    (of the only such entry, when the array keys of [outputs] are
    distinct).  What the model returns counts as a tuple of one element
    when it is not a tuple. *)
Theorem get_outputs_returns_the_requested_outputs
    (self : Predict Tensor Model Layer) module_out request outs :
  get_outputs self module_out request = Ok outs →
  (∀ k t, odict_get outs k = Some t →
     is_Some (request !! k) ∧
     ((∃ name, (KeyStr name, k) ∈ outputs self ∧
               intermediate_layers self !! name = Some t) ∨
      (∃ index, (KeyInt index, k) ∈ outputs self ∧
                tuple_get (as_tuple module_out) index = Ok t))) ∧
  (∀ key k, (key, k) ∈ outputs self → is_Some (request !! k) → key ≠ KeyOther →
     is_Some (odict_get outs k)) ∧
  (NoDup (outputs self).*2 →
   ∀ key k, (key, k) ∈ outputs self → is_Some (request !! k) →
     match key with
     | KeyStr name => odict_get outs k = intermediate_layers self !! name
     | KeyInt index => tuple_get (as_tuple module_out) index
                       = match odict_get outs k with
                         | Some t => Ok t | None => Err IndexError end
     | KeyOther => odict_get outs k = None
     end).
Proof.
  unfold get_outputs. fold (as_tuple module_out). intros Hloop.
  destruct (get_outputs_loop_Ok _ _ _ _ _ _ Hloop) as (H1 & _ & H3 & H4 & H5).
  split_and!.
  - intros k t Hk. destruct (H1 k t Hk) as [?|(Hr & key & Hin & Hres)]; [done|].
    split; [done|]. destruct key as [name|index|]; simpl in Hres; [| |done].
    + left. exists name. split; [done|].
      by destruct (intermediate_layers self !! name) as [t'|]; simplify_eq.
    + right. exists index. split; [done|].
      destruct (tuple_get (as_tuple module_out) index) as [t'|]; simpl in Hres;
        by simplify_eq.
  - done.
  - intros Hnd key k Hin Hr. destruct key as [name|index|].
    + specialize (H5 Hnd _ _ Hin Hr ltac:(done)). simpl in H5.
      by destruct (intermediate_layers self !! name); simplify_eq.
    + specialize (H5 Hnd _ _ Hin Hr ltac:(done)). simpl in H5.
      destruct (tuple_get (as_tuple module_out) index) as [t'|e] eqn:Ht;
        simpl in H5; [|done]. by injection H5 as <-.
    + destruct (odict_get outs k) as [t|] eqn:Hk; [|done].
      destruct (H1 k t Hk) as [?|(_ & key & Hin' & Hres)]; [done|].
      assert (key = KeyOther) as ->.
      { clear -Hnd Hin Hin'. induction (outputs self) as [|[k0 v0] l IH]; csimpl in *;
          [by apply elem_of_nil in Hin|].
        apply NoDup_cons in Hnd as [Hv Hnd].
        apply elem_of_cons in Hin as [Heq|Hin];
          apply elem_of_cons in Hin' as [Heq'|Hin'].
        - congruence.
        - exfalso. injection Heq as <- <-. apply Hv. apply list_elem_of_fmap.
          eexists. split; [|exact Hin']. done.
        - exfalso. injection Heq' as <- <-. apply Hv. apply list_elem_of_fmap.
          eexists. split; [|exact Hin]. done.
        - by apply IH. }
      done.
Qed.

Lemma get_outputs_loop_outcome (self : Predict Tensor Model Layer) module_outs request items :
  ∀ acc,
  (∀ outs, get_outputs_loop self module_outs request items acc = Ok outs →
     ∀ key k, (key, k) ∈ items → is_Some (request !! k) →
       ∃ o, resolve self module_outs key = Ok o) ∧
  (∀ e, get_outputs_loop self module_outs request items acc = Err e →
     ∃ key k, (key, k) ∈ items ∧ is_Some (request !! k) ∧
       resolve self module_outs key = Err e).
Proof.
  induction items as [|[key value] items IH]; intros acc.
  - split; [|done]. intros outs _ key k Hin. by apply elem_of_nil in Hin.
  - rewrite get_outputs_loop_cons.
    destruct (decide (is_Some (request !! value))) as [Hreq|Hreq].
    + destruct (resolve self module_outs key) as [o|e0] eqn:Hres; simpl.
      * destruct (IH (match o with Some t => odict_set acc value t | None => acc end))
          as [IH1 IH2].
        split.
        -- intros outs Hloop key' k [[= -> ->]|Hin]%elem_of_cons Hr; [eauto|].
           by eapply IH1.
        -- intros e Hloop. destruct (IH2 e Hloop) as (key' & k & Hin & Hr & He).
           exists key', k. split_and!; try done. by right.
      * split; [done|]. intros e [= <-]. exists key, value. split_and!; try done. left.
    + destruct (IH acc) as [IH1 IH2]. split.
      * intros outs Hloop key' k [[= -> ->]|Hin]%elem_of_cons Hr; [done|].
        by eapply IH1.
      * intros e Hloop. destruct (IH2 e Hloop) as (key' & k & Hin & Hr & He).
        exists key', k. split_and!; try done. by right.
Qed.

(** X17.  [get_outputs] looks up the requested outputs only.  It returns
    if and only if every entry of [outputs] whose array key is requested
    can be resolved: the layer of a name has been saved in
    [intermediate_layers], an index lies in the outputs of the model.
    When it raises, it is a [KeyError] with the name of a requested layer
    that was not saved, or an [IndexError] for a requested index out of
    range; an entry that is not requested never makes it raise. *)
Theorem get_outputs_fails_on_a_requested_output_only
    (self : Predict Tensor Model Layer) module_out request :
  ((∃ outs, get_outputs self module_out request = Ok outs) ↔
   ∀ key k, (key, k) ∈ outputs self → is_Some (request !! k) →
     match key with
     | KeyStr name => is_Some (intermediate_layers self !! name)
     | KeyInt index => ∃ t, tuple_get (as_tuple module_out) index = Ok t
     | KeyOther => True
     end) ∧
  (∀ e, get_outputs self module_out request = Err e →
     ∃ key k, (key, k) ∈ outputs self ∧ is_Some (request !! k) ∧
       match key with
       | KeyStr name => intermediate_layers self !! name = None ∧ e = KeyError name
       | KeyInt index =>
           tuple_get (as_tuple module_out) index = Err IndexError ∧ e = IndexError
       | KeyOther => False
       end).
Proof.
  unfold get_outputs. fold (as_tuple module_out).
  destruct (get_outputs_loop_outcome self (as_tuple module_out) request (outputs self) [])
    as [Hok Herr].
  assert (∀ e, get_outputs_loop self (as_tuple module_out) request (outputs self) [] = Err e →
     ∃ key k, (key, k) ∈ outputs self ∧ is_Some (request !! k) ∧
       match key with
       | KeyStr name => intermediate_layers self !! name = None ∧ e = KeyError name
       | KeyInt index =>
           tuple_get (as_tuple module_out) index = Err IndexError ∧ e = IndexError
       | KeyOther => False
       end) as Herr'.
  { intros e He. destruct (Herr e He) as (key & k & Hin & Hr & Hres).
    exists key, k. split_and!; try done.
    destruct key as [name|index|]; simpl in Hres; [| |done].
    - destruct (intermediate_layers self !! name); [done|]. by injection Hres as <-.
    - destruct (tuple_get (as_tuple module_out) index) as [t|e'] eqn:Ht; [done|].
      simpl in Hres. injection Hres as <-.
      pose proof (tuple_get_error _ _ _ Ht) as ->. done. }
  split; [|done]. split.
  - intros [outs Houts] key k Hin Hr.
    destruct (Hok outs Houts key k Hin Hr) as [o Hres].
    destruct key as [name|index|]; simpl in Hres; [| |done].
    + by destruct (intermediate_layers self !! name).
    + destruct (tuple_get (as_tuple module_out) index) as [t|]; [eauto|done].
  - intros Hall.
    destruct (get_outputs_loop self (as_tuple module_out) request (outputs self) [])
      as [outs|e] eqn:Hloop; [eauto|].
    destruct (Herr' e eq_refl) as (key & k & Hin & Hr & Hkey).
    specialize (Hall key k Hin Hr). destruct key as [name|index|]; [| |done].
    + destruct Hkey as [Hnone _]. rewrite Hnone in Hall. by destruct Hall.
    + destruct Hkey as [Hnone _]. destruct Hall as [t Ht]. congruence.
Qed.

Lemma update_batch_cons (self : Predict Tensor Model Layer) arrays request k t rest :
  update_batch T self arrays request ((k, t) :: rest) =
  match spec self !! k, request !! k with
  | Some own, Some requested =>
      match array_check T (to_numpy T t) (assign_roi own (roi requested)) with
      | None =>
          update_batch T self
            (<[k := mkArray (to_numpy T t) (assign_roi own (roi requested))]> arrays)
            request rest
      | Some e => (arrays, Some e)
      end
  | _, _ => (arrays, Some (KeyError k))
  end.
Proof.
  simpl. unfold request_get, VolumeType.
  destruct (spec self !! k) as [own|]; simpl; [|done].
  by destruct (request !! k) as [requested|].
Qed.

Lemma update_batch_outcome (self : Predict Tensor Model Layer) request outs :
  ∀ (arrays arrays' : gmap string (Array NdArray)) outcome,
  update_batch T self arrays request outs = (arrays', outcome) →
  (∀ k, k ∉ outs.*1 → arrays' !! k = arrays !! k) ∧
  (outcome = None → NoDup outs.*1 →
   ∀ k t, (k, t) ∈ outs →
     ∃ own requested, spec self !! k = Some own ∧ request !! k = Some requested ∧
       array_check T (to_numpy T t) (assign_roi own (roi requested)) = None ∧
       arrays' !! k = Some (mkArray (to_numpy T t) (assign_roi own (roi requested)))) ∧
  (∀ e, outcome = Some e →
     ∃ k t, (k, t) ∈ outs ∧
       ((e = KeyError k ∧ (spec self !! k = None ∨ request !! k = None)) ∨
        ∃ own requested, spec self !! k = Some own ∧ request !! k = Some requested ∧
          array_check T (to_numpy T t) (assign_roi own (roi requested)) = Some e)).
Proof.
  induction outs as [|[key tensor] outs IH]; intros arrays arrays' outcome Hup.
  - injection Hup as <- <-. split_and!; try done.
    intros _ _ k t Hin. by apply elem_of_nil in Hin.
  - rewrite update_batch_cons in Hup.
    destruct (spec self !! key) as [own|] eqn:Hown.
    2:{ injection Hup as <- <-. split_and!; try done.
        intros e [= <-]. exists key, tensor. split; [left|]. left. split; [done|by left]. }
    destruct (request !! key) as [requested|] eqn:Hreq.
    2:{ injection Hup as <- <-. split_and!; try done.
        intros e [= <-]. exists key, tensor. split; [left|]. left. split; [done|by right]. }
    destruct (array_check T (to_numpy T tensor) (assign_roi own (roi requested)))
      as [e0|] eqn:Hcheck.
    { injection Hup as <- <-. split_and!; try done.
      intros e [= <-]. exists key, tensor. split; [left|]. right. by exists own, requested. }
    destruct (IH _ _ _ Hup) as (H1 & H2 & H3). split_and!.
    + intros k Hk. csimpl in Hk. apply not_elem_of_cons in Hk as [Hne Hk].
      rewrite (H1 _ Hk). by rewrite lookup_insert_ne.
    + intros Hnone Hnd k t Hin. csimpl in Hnd. apply NoDup_cons in Hnd as [Hk Hnd].
      apply elem_of_cons in Hin as [[= -> ->]|Hin]; [|by apply H2].
      exists own, requested. split_and!; try done.
      rewrite (H1 _ Hk). by rewrite lookup_insert_eq.
    + intros e He. destruct (H3 e He) as (k & t & Hin & Hk). exists k, t.
      split; [by right|done].
Qed.

(** X18.  [update_batch] replaces, in the batch, the arrays of the
    requested outputs and no other array.  When it completes, the array
    it has placed under a key holds the tensor brought back to numpy and
    a copy of the spec the node declares for the key, in which the ROI is
    the ROI of the request; the spec the node declares is not changed.
    An exception it raises is a [KeyError] with the key of an output for
    which the node declares no spec or the request holds no entry, or
    what the constructor of [Array] raised for the tensor and the spec of
    an output. *)
Theorem update_batch_places_the_requested_arrays
    (self : Predict Tensor Model Layer) arrays request outs arrays' outcome :
  update_batch T self arrays request outs = (arrays', outcome) →
  (∀ k, odict_get outs k = None → arrays' !! k = arrays !! k) ∧
  (outcome = None → NoDup outs.*1 →
   ∀ k t, odict_get outs k = Some t →
     ∃ own requested array,
       spec self !! k = Some own ∧ request !! k = Some requested ∧
       arrays' !! k = Some array ∧
       array_data array = to_numpy T t ∧
       roi (array_spec array) = roi requested ∧
       voxel_size (array_spec array) = voxel_size own ∧
       interpolatable (array_spec array) = interpolatable own ∧
       spec_dtype (array_spec array) = spec_dtype own ∧
       array_check T (array_data array) (array_spec array) = None) ∧
  (∀ e, outcome = Some e →
     ∃ k t, (k, t) ∈ outs ∧
       ((e = KeyError k ∧ (spec self !! k = None ∨ request !! k = None)) ∨
        ∃ own requested, spec self !! k = Some own ∧ request !! k = Some requested ∧
          array_check T (to_numpy T t) (assign_roi own (roi requested)) = Some e)).
Proof.
  intros Hup. destruct (update_batch_outcome _ _ _ _ _ _ Hup) as (H1 & H2 & H3).
  split_and!.
  - intros k Hk. apply H1. by apply odict_get_None.
  - intros Hnone Hnd k t Hk.
    pose proof (odict_get_Some _ _ _ Hk) as Hin.
    destruct (H2 Hnone Hnd k t Hin) as (own & requested & Hown & Hreq & Hcheck & Harr).
    eexists own, requested, _. split_and!; try done.
  - done.
Qed.

(** *** The hooks *)

Lemma call_hooks_lookup (hs : list (Layer * string)) (layer : Layer) (o : Tensor)
    (name : string) : ∀ layers : gmap string Tensor,
  ((layer, name) ∈ hs → call_hooks hs layer o layers !! name = Some o) ∧
  ((layer, name) ∉ hs → call_hooks hs layer o layers !! name = layers !! name).
Proof.
  unfold call_hooks. induction hs as [|[l key] hs IH]; intros layers; simpl.
  - split; [by intros ?%elem_of_nil|done].
  - destruct (IH (if decide (l = layer) then save_layer key o layers else layers))
      as [IH1 IH2].
    split.
    + intros Hin. destruct (decide ((layer, name) ∈ hs)) as [?|Hout]; [by apply IH1|].
      rewrite (IH2 Hout). apply elem_of_cons in Hin as [[= <- <-]|?]; [|done].
      rewrite decide_True by done. unfold save_layer. by rewrite lookup_insert_eq.
    + intros Hout. apply not_elem_of_cons in Hout as [Hne Hout]. rewrite (IH2 Hout).
      case_decide; [|done]. unfold save_layer. rewrite lookup_insert_ne; [done|].
      intros ->. subst. done.
Qed.

Lemma last_output_cons (layer l : Layer) (o : Tensor) (trace : list (Layer * Tensor)) :
  last_output layer ((l, o) :: trace) =
  match last_output layer trace with
  | Some x => Some x
  | None => if decide (l = layer) then Some o else None
  end.
Proof.
  unfold last_output. rewrite filter_cons. simpl.
  destruct (decide (l = layer)); [|by destruct (last _)].
  rewrite fmap_cons, last_cons. simpl. by destruct (last _).
Qed.

(** After a forward pass a key holds the last output of the layer hooked
    under it, or what it held when that layer did not run. *)
Lemma run_layers_lookup (hs : list (Layer * string)) (name : string) (layer : Layer)
    (trace : list (Layer * Tensor)) : ∀ layers : gmap string Tensor,
  (∀ l, (l, name) ∈ hs ↔ l = layer) →
  run_layers hs trace layers !! name =
  match last_output layer trace with
  | Some o => Some o
  | None => layers !! name
  end.
Proof.
  intros layers Hhook. revert layers. unfold run_layers.
  induction trace as [|[l o] trace IH]; intros layers; simpl; [done|].
  rewrite IH, last_output_cons. destruct (last_output layer trace); [done|].
  destruct (call_hooks_lookup hs l o name layers) as [H1 H2].
  case_decide as Hl.
  - apply H1. by apply Hhook.
  - apply H2. by rewrite Hhook.
Qed.

Lemma run_layers_unhooked (hs : list (Layer * string)) (name : string)
    (trace : list (Layer * Tensor)) : ∀ layers : gmap string Tensor,
  (∀ l, (l, name) ∉ hs) → run_layers hs trace layers !! name = layers !! name.
Proof.
  intros layers Hno. revert layers. unfold run_layers.
  induction trace as [|[l o] trace IH]; intros layers; simpl; [done|].
  rewrite IH. by apply call_hooks_lookup.
Qed.

Lemma register_hooks_loop_Ok (m : Model) (keys : list OutputKey) :
  ∀ hs hs', register_hooks_loop T m keys hs = Ok hs' →
  (∀ name, KeyStr name ∈ keys → is_Some (getattr_layer T m name)) ∧
  ∃ new, hs' = hs ++ new ∧
    ∀ l name, (l, name) ∈ new ↔ KeyStr name ∈ keys ∧ getattr_layer T m name = Some l.
Proof.
  induction keys as [|key keys IH]; intros hs hs' Hreg; simpl in Hreg.
  - injection Hreg as <-. split; [by intros name ?%elem_of_nil|].
    exists []. rewrite app_nil_r. split; [done|].
    intros l name. split; [by intros ?%elem_of_nil|by intros [?%elem_of_nil _]].
  - destruct key as [key|index|].
    + destruct (getattr_layer T m key) as [layer|] eqn:Hattr; [|done].
      destruct (IH _ _ Hreg) as (Hall & new & -> & Hnew). split.
      { intros name [[= ->]|?]%elem_of_cons; [by rewrite Hattr|by apply Hall]. }
      exists ((layer, key) :: new). rewrite <- app_assoc. split; [done|].
      intros l name. rewrite !elem_of_cons, Hnew. split.
      * intros [[= -> ->]|[? ?]]; [by split; [left|]|by split; [right|]].
      * intros [[[= ->]|?] Hl]; [left; congruence|by right].
    + destruct (IH _ _ Hreg) as (Hall & new & -> & Hnew). split.
      { intros name [?|?]%elem_of_cons; [done|by apply Hall]. }
      exists new. split; [done|].
      intros l name. rewrite Hnew, elem_of_cons. split; [intros [? ?]; by split; [right|]|].
      intros [[?|?] ?]; done.
    + destruct (IH _ _ Hreg) as (Hall & new & -> & Hnew). split.
      { intros name [?|?]%elem_of_cons; [done|by apply Hall]. }
      exists new. split; [done|].
      intros l name. rewrite Hnew, elem_of_cons. split; [intros [? ?]; by split; [right|]|].
      intros [[?|?] ?]; done.
Qed.

(** [__init__] leaves a node whose hooks are those it has registered. *)
Lemma Predict_init_initialised m ins outs sp (self : Predict Tensor Model Layer) :
  Predict_init T m ins outs sp = Ok self →
  initialised T self ∧ model self = m ∧ inputs self = ins ∧ outputs self = outs ∧
  spec self = sp ∧ intermediate_layers self = ∅.
Proof.
  unfold Predict_init, register_hooks, initialised. simpl. intros Hinit.
  apply bind_Ok in Hinit as (hs & Hreg & Hinit). injection Hinit as <-. done.
Qed.

(** *** [predict] *)

Lemma predict_outcome (self self' : Predict Tensor Model Layer) batch request batch' outcome :
  predict T self batch request = (self', batch', outcome) →
  (∃ e, get_inputs T self batch = Err e ∧ self' = self ∧ batch' = batch ∧
        outcome = Some e) ∨
  ∃ ins trace out,
    get_inputs T self batch = Ok ins ∧ forward T (model self) ins = (trace, out) ∧
    self' = with_layers self (run_layers (hooks self) trace (intermediate_layers self)) ∧
    ((∃ e, out = Err e ∧ batch' = batch ∧ outcome = Some e) ∨
     ∃ o, out = Ok o ∧
       ((∃ e, get_outputs self' o request = Err e ∧ batch' = batch ∧ outcome = Some e) ∨
        ∃ outs, get_outputs self' o request = Ok outs ∧
          update_batch T self' batch request outs = (batch', outcome))).
Proof.
  unfold predict. intros Hp.
  destruct (get_inputs T self batch) as [ins|e]; [|injection Hp as <- <- <-; left; eauto].
  right. destruct (forward T (model self) ins) as [trace out] eqn:Hfw.
  exists ins, trace, out.
  destruct out as [o|e];
    [|injection Hp as <- <- <-; do 3 (split; [done|]); left; eauto].
  destruct (get_outputs _ o request) as [outs|e] eqn:Hout.
  - destruct (update_batch T _ batch request outs) as [b e] eqn:Hup.
    injection Hp as <- <- <-. do 3 (split; [done|]). right. exists o. split; [done|].
    right. exists outs. by rewrite Hout.
  - injection Hp as <- <- <-. do 3 (split; [done|]). right. exists o. split; [done|].
    left. exists e. by rewrite Hout.
Qed.

Lemma odict_set_keys_NoDup {V} (d : list (string * V)) (k : string) (v : V) :
  NoDup d.*1 → NoDup (odict_set d k v).*1.
Proof.
  induction d as [|[k0 v0] d IH]; csimpl; intros Hnd; [apply NoDup_singleton|].
  apply NoDup_cons in Hnd as [Hk0 Hnd]. case_decide as Hk; csimpl.
  - subst. by apply NoDup_cons.
  - apply NoDup_cons. split; [|by apply IH].
    intros Hin. apply Hk0. apply odict_get_None_inv_keys in Hin.
    rewrite odict_get_set, decide_False in Hin by done.
    destruct (odict_get d k0) eqn:Hg; [|done]. apply dec_stable. intros Hout.
    by apply odict_get_None in Hout; rewrite Hout in Hg.
Qed.

Lemma get_outputs_loop_NoDup (self : Predict Tensor Model Layer) module_outs request items :
  ∀ acc outs, get_outputs_loop self module_outs request items acc = Ok outs →
    NoDup acc.*1 → NoDup outs.*1.
Proof.
  induction items as [|[key value] items IH]; intros acc outs Hloop Hnd.
  - by injection Hloop as <-.
  - rewrite get_outputs_loop_cons in Hloop. case_decide; [|by eapply IH].
    apply bind_Ok in Hloop as (o & _ & Hloop). eapply IH; [exact Hloop|].
    destruct o; [by apply odict_set_keys_NoDup|done].
Qed.

(** X19.  Whatever its outcome, [predict] changes nothing of the node but
    the tensors saved under the keys that have a hook, and nothing of the
    batch but the arrays that [outputs] names and the request asks for:
    the other arrays, the inputs of the model among them, stay in the
    batch as they are. *)
Theorem predict_changes_the_requested_outputs_only
    (self self' : Predict Tensor Model Layer) batch request batch' outcome :
  predict T self batch request = (self', batch', outcome) →
  model self' = model self ∧ inputs self' = inputs self ∧
  outputs self' = outputs self ∧ device self' = device self ∧
  hooks self' = hooks self ∧ spec self' = spec self ∧
  (∀ name, (∀ l, (l, name) ∉ hooks self) →
     intermediate_layers self' !! name = intermediate_layers self !! name) ∧
  (∀ k, request !! k = None ∨ k ∉ (outputs self).*2 → batch' !! k = batch !! k).
Proof.
  intros Hp. apply predict_outcome in Hp
    as [(e & _ & -> & -> & _)|(ins & trace & out & _ & _ & -> & Hcases)];
    [split_and!; done|].
  split_and!; try done.
  - intros name Hno. simpl. by apply run_layers_unhooked.
  - intros k Hk.
    destruct Hcases as [(e & _ & -> & _)|(o & _ & [(e & _ & -> & _)|(outs & Hout & Hup)])];
      [done..|].
    apply update_batch_outcome in Hup as (Hframe & _).
    apply Hframe. apply odict_get_None.
    destruct (odict_get outs k) as [t|] eqn:Hg; [|done]. exfalso.
    destruct (get_outputs_loop_Ok _ _ _ _ _ _ Hout) as (H1 & _).
    destruct (H1 k t Hg) as [?|(Hr & key & Hin & _)]; [done|].
    destruct Hk as [Hnone|Hnot].
    + rewrite Hnone in Hr. by destruct Hr.
    + apply Hnot. apply list_elem_of_fmap. by exists (key, k).
Qed.

(** X20.  What a completed call of [predict] puts in the batch, for a node
    whose hooks are those of [__init__] and whose outputs have distinct
    array keys.  The array of a requested output that is named by a layer
    holds the last output that layer computed during the forward pass of
    this call; when the layer did not run during this pass, it holds the
    tensor saved by an earlier call.  The array of a requested output
    that is named by an index holds the output of the model at that
    index. *)
Theorem predict_returns_what_the_hooked_layers_computed
    (self self' : Predict Tensor Model Layer) batch request batch' :
  initialised T self → NoDup (outputs self).*2 →
  predict T self batch request = (self', batch', None) →
  ∃ ins trace out,
    get_inputs T self batch = Ok ins ∧
    forward T (model self) ins = (trace, Ok out) ∧
    (∀ name k, (KeyStr name, k) ∈ outputs self → is_Some (request !! k) →
       ∃ layer t array,
         getattr_layer T (model self) name = Some layer ∧
         match last_output layer trace with
         | Some o => t = o
         | None => intermediate_layers self !! name = Some t
         end ∧
         batch' !! k = Some array ∧ array_data array = to_numpy T t) ∧
    (∀ index k, (KeyInt index, k) ∈ outputs self → is_Some (request !! k) →
       ∃ t array,
         tuple_get (as_tuple out) index = Ok t ∧
         batch' !! k = Some array ∧ array_data array = to_numpy T t).
Proof.
  intros Hinit Hnd Hp. apply predict_outcome in Hp
    as [(e & _ & _ & _ & [=])|(ins & trace & out & Hins & Hfw & -> & Hcases)].
  destruct Hcases as [(e & _ & _ & [=])|(o & -> & [(e & _ & _ & [=])|(outs & Hout & Hup)])].
  exists ins, trace, o. split; [done|]. split; [done|].
  pose proof (get_outputs_loop_NoDup _ _ _ _ _ _ Hout (NoDup_nil_2)) as Hnd_outs.
  apply update_batch_outcome in Hup as (_ & Hplaced & _).
  specialize (Hplaced eq_refl Hnd_outs).
  destruct (get_outputs_loop_Ok _ _ _ _ _ _ Hout) as (_ & _ & Hall & _ & Hexact).
  cbn [outputs with_layers] in Hall, Hexact. specialize (Hexact Hnd).
  apply register_hooks_loop_Ok in Hinit as (Hattrs & new & Hnew & Hhooks). simpl in Hnew.
  split.
  - intros name k Hin Hr.
    destruct (Hall _ _ Hin Hr ltac:(done)) as [t Ht].
    destruct (Hplaced k t (odict_get_Some _ _ _ Ht)) as (own & requested & _ & _ & _ & Harr).
    pose proof (Hexact _ _ Hin Hr ltac:(done)) as Hsaved. simpl in Hsaved.
    rewrite Ht in Hsaved.
    assert (KeyStr name ∈ (outputs self).*1) as Hkey
      by (apply list_elem_of_fmap; by exists (KeyStr name, k)).
    destruct (Hattrs name Hkey) as [layer Hlayer].
    eexists layer, t, _. split; [done|]. split; [|split; [exact Harr|done]].
    rewrite (run_layers_lookup _ name layer) in Hsaved.
    + destruct (last_output layer trace); [by simplify_eq|].
      by destruct (intermediate_layers self !! name); simplify_eq.
    + intros l. rewrite Hnew, Hhooks. split.
      * intros [_ Hl]. congruence.
      * intros ->. done.
  - intros index k Hin Hr.
    destruct (Hall _ _ Hin Hr ltac:(done)) as [t Ht].
    destruct (Hplaced k t (odict_get_Some _ _ _ Ht)) as (own & requested & _ & _ & _ & Harr).
    pose proof (Hexact _ _ Hin Hr ltac:(done)) as Hsaved. simpl in Hsaved.
    rewrite Ht in Hsaved. apply bind_Ok in Hsaved as (t' & Ht' & [= ->]).
    eexists t, _. split; [exact Ht'|]. split; [exact Harr|done].
Qed.

Lemma get_inputs_loop_Ok dev (items : list (string * string))
    (batch : gmap string (Array NdArray)) ins :
  get_inputs_loop T dev items batch = Ok ins →
  ins.*1 = items.*1 ∧
  ∀ i name value, items !! i = Some (name, value) →
    ∃ array, batch !! value = Some array ∧
      ins !! i = Some (name, as_tensor T (array_data array) dev).
Proof.
  revert ins. induction items as [|[name value] items IH]; intros ins Hin; simpl in Hin.
  - injection Hin as <-. split; [done|]. intros i ? ?. by rewrite lookup_nil.
  - apply bind_Ok in Hin as (array & Harr & Hin).
    apply bind_Ok in Hin as (rest & Hrest & Hin). injection Hin as <-.
    destruct (batch !! value) as [a|] eqn:Hb; [injection Harr as ->|done].
    destruct (IH _ Hrest) as [Hkeys Hl]. split; [csimpl; by rewrite Hkeys|].
    intros [|i] name' value' Hi; simpl in Hi.
    + injection Hi as <- <-. exists array. done.
    + by apply Hl.
Qed.

Lemma get_inputs_loop_missing dev (before after : list (string * string)) name value
    (batch : gmap string (Array NdArray)) :
  (∀ n v, (n, v) ∈ before → is_Some (batch !! v)) → batch !! value = None →
  get_inputs_loop T dev (before ++ (name, value) :: after) batch = Err (KeyError value).
Proof.
  intros Hbefore Hnone. induction before as [|[n v] before IH]; simpl.
  - by rewrite Hnone.
  - destruct (Hbefore n v) as [a ->]; [left|]. simpl.
    rewrite IH; [done|]. intros n' v' Hin. apply (Hbefore n' v'). by right.
Qed.

(** X21.  The inputs of the model.  [get_inputs] gives the model one
    tensor per entry of [inputs], under the name of the entry, made of
    the data of the array the entry names, on the device of the node.
    When the batch lacks one of these arrays, [predict] raises a
    [KeyError] with the key of the first that is missing, without running
    the model: the node and the batch are as they were. *)
Theorem predict_needs_its_inputs_in_the_batch
    (self : Predict Tensor Model Layer) batch request :
  (∀ ins, get_inputs T self batch = Ok ins →
     ins.*1 = (inputs self).*1 ∧
     ∀ i name value, inputs self !! i = Some (name, value) →
       ∃ array, batch !! value = Some array ∧
         ins !! i = Some (name, as_tensor T (array_data array) (device self))) ∧
  (∀ before name value after,
     inputs self = before ++ (name, value) :: after →
     (∀ n v, (n, v) ∈ before → is_Some (batch !! v)) → batch !! value = None →
     get_inputs T self batch = Err (KeyError value) ∧
     predict T self batch request = (self, batch, Some (KeyError value))).
Proof.
  split.
  - intros ins Hins. by apply get_inputs_loop_Ok.
  - intros before name value after Hinputs Hbefore Hnone.
    assert (get_inputs T self batch = Err (KeyError value)) as Herr.
    { unfold get_inputs. rewrite Hinputs. by apply get_inputs_loop_missing. }
    split; [done|]. unfold predict. by rewrite Herr.
Qed.

(** The hook [register_hooks] registers for a key. *)
Lemma register_hooks_loop_spec (m : Model) (keys : list OutputKey) : ∀ hs,
  match register_hooks_loop T m keys hs with
  | Ok hs' =>
      (∀ name, KeyStr name ∈ keys → is_Some (getattr_layer T m name)) ∧
      hs' = hs ++ omap (hook_of T m) keys
  | Err e =>
      e = AttributeError ∧ ∃ name, KeyStr name ∈ keys ∧ getattr_layer T m name = None
  end.
Proof.
  induction keys as [|key keys IH]; intros hs; simpl.
  - split; [by intros name ?%elem_of_nil|by rewrite app_nil_r].
  - destruct key as [key|index|]; simpl.
    + destruct (getattr_layer T m key) as [layer|] eqn:Hattr; simpl.
      * specialize (IH (hs ++ [(layer, key)])).
        destruct (register_hooks_loop T m keys _) as [hs'|e].
        -- destruct IH as [Hall ->]. split; [|by rewrite <- app_assoc].
           intros name [[= ->]|?]%elem_of_cons; [by rewrite Hattr|by apply Hall].
        -- destruct IH as (-> & name & Hin & Hnone). split; [done|].
           exists name. split; [by right|done].
      * split; [done|]. exists key. split; [left|done].
    + specialize (IH hs). destruct (register_hooks_loop T m keys hs) as [hs'|e].
      * destruct IH as [Hall ->]. split; [|done].
        intros name [?|?]%elem_of_cons; [done|by apply Hall].
      * destruct IH as (-> & name & Hin & Hnone). split; [done|].
        exists name. split; [by right|done].
    + specialize (IH hs). destruct (register_hooks_loop T m keys hs) as [hs'|e].
      * destruct IH as [Hall ->]. split; [|done].
        intros name [?|?]%elem_of_cons; [done|by apply Hall].
      * destruct IH as (-> & name & Hin & Hnone). split; [done|].
        exists name. split; [by right|done].
Qed.

(** X22.  [__init__] registers one hook for every key of [outputs] that
    is a string, on the layer of the model that has this name, in the
    order of the keys, and none for the other keys.  It raises an
    [AttributeError], and no other exception, exactly when the model has
    no layer for one of these names.  The node it leaves has saved no
    tensor yet. *)
Theorem init_registers_one_hook_per_named_layer m ins outs sp :
  ((∃ self, Predict_init T m ins outs sp = Ok self) ↔
   ∀ name, KeyStr name ∈ outs.*1 → is_Some (getattr_layer T m name)) ∧
  (∀ e, Predict_init T m ins outs sp = Err e → e = AttributeError) ∧
  (∀ self, Predict_init T m ins outs sp = Ok self →
     hooks self = omap (hook_of T m) outs.*1 ∧
     intermediate_layers self = ∅ ∧ device self = None ∧
     model self = m ∧ inputs self = ins ∧ outputs self = outs ∧ spec self = sp).
Proof.
  unfold Predict_init, register_hooks. simpl.
  pose proof (register_hooks_loop_spec m outs.*1 []) as Hspec.
  destruct (register_hooks_loop T m outs.*1 []) as [hs|e]; simpl.
  - destruct Hspec as [Hall ->]. split_and!.
    + split; [done|eauto].
    + done.
    + intros self [= <-]. done.
  - destruct Hspec as (-> & name & Hin & Hnone). split_and!.
    + split; [by intros [? ?]|]. intros Hall. destruct (Hall name Hin) as [l Hl]. congruence.
    + by intros e [= <-].
    + done.
Qed.

End PredictProperties.

(** * Further concrete runs *)

Section FurtherRuns.

Import Demo.

Local Ltac run := vm_compute; reflexivity.
Local Ltac qle := unfold Qle; simpl; lia.

Lemma prepare_reads_one_draw_per_slice_witness :
  prepare scipy_lib mixed_entropy mixed (request 3 4 4) start
    = Ok (mixed_plan, mixed_prepared.1.2, mixed_prepared.2) ∧
  py_pos mixed_prepared.2 = 4%nat ∧ np_pos mixed_prepared.2 = 2%nat.
Proof.
  assert (prepare scipy_lib mixed_entropy mixed (request 3 4 4) start
          = Ok (mixed_plan, mixed_prepared.1.2, mixed_prepared.2)) as Hrun by run.
  split; [exact Hrun|].
  destruct (prepare_reads_one_draw_per_slice scipy_lib mixed_entropy mixed
              (request 3 4 4) start mixed_plan mixed_prepared.1.2 mixed_prepared.2 Hrun)
    as (spec_raw & sp & r & v & extent & size
        & Hreq & Hroi & Hsp & Hv & Hext & Hsize & Hpy & Hnp).
  vm_compute in Hreq. injection Hreq as <-.
  vm_compute in Hroi. injection Hroi as <-.
  vm_compute in Hsp. injection Hsp as <-.
  vm_compute in Hv. injection Hv as <-.
  vm_compute in Hext. injection Hext as <-.
  vm_compute in Hsize. injection Hsize as <-.
  split; [exact Hpy|exact Hnp].
Defined.

Lemma transformations_are_those_of_the_deformed_slices_witness :
  prepare scipy_lib mixed_entropy mixed (request 3 4 4) start
    = Ok (mixed_plan, mixed_prepared.1.2, mixed_prepared.2) ∧
  dict_get (slice_to_augmentation mixed_plan) 1 = Some "deformed_slice" ∧
  is_Some (dict_get (deform_slice_transformations mixed_plan) 1).
Proof.
  assert (prepare scipy_lib mixed_entropy mixed (request 3 4 4) start
          = Ok (mixed_plan, mixed_prepared.1.2, mixed_prepared.2)) as Hrun by run.
  assert (dict_get (slice_to_augmentation mixed_plan) 1 = Some "deformed_slice")
    as Hplan by run.
  split; [exact Hrun|]. split; [exact Hplan|].
  destruct (transformations_are_those_of_the_deformed_slices scipy_lib mixed_entropy mixed
              (request 3 4 4) start mixed_plan mixed_prepared.1.2 mixed_prepared.2 Hrun)
    as [_ Hiff].
  apply Hiff. exact Hplan.
Defined.

Lemma plan_lists_the_slices_in_increasing_order_witness :
  prepare scipy_lib mixed_entropy mixed (request 3 4 4) start
    = Ok (mixed_plan, mixed_prepared.1.2, mixed_prepared.2) ∧
  (slice_to_augmentation mixed_plan).*1 = [0; 1]%nat ∧ (0 < 1)%nat.
Proof.
  assert (prepare scipy_lib mixed_entropy mixed (request 3 4 4) start
          = Ok (mixed_plan, mixed_prepared.1.2, mixed_prepared.2)) as Hrun by run.
  split; [exact Hrun|]. split; [reflexivity|].
  apply (plan_lists_the_slices_in_increasing_order scipy_lib mixed_entropy mixed
           (request 3 4 4) start mixed_plan mixed_prepared.1.2 mixed_prepared.2 Hrun
           0%nat 1%nat 0%nat 1%nat); [lia|reflexivity|reflexivity].
Defined.

Lemma kinds_of_probability_zero_are_never_planned_witness :
  ∃ plan p',
    prepare scipy_lib fixed_x_entropy low_contrast_only (request 2 2 2) start
      = Ok (plan, request 2 2 2, p') ∧
    (prob_deform low_contrast_only <= 0)%Q ∧
    ("deformed_slice" ∉ dict_values (slice_to_augmentation plan)) ∧
    np_pos p' = np_pos start.
Proof.
  eexists _, _.
  assert (prepare scipy_lib fixed_x_entropy low_contrast_only (request 2 2 2) start
          = Ok (mkPlan [(0%nat, "lower_contrast"); (1%nat, "lower_contrast")] [],
                request 2 2 2, mkRngPos 2 0)) as Hrun by run.
  split; [exact Hrun|].
  assert (prob_deform low_contrast_only <= 0)%Q as Hzero by qle.
  split; [exact Hzero|].
  destruct (kinds_of_probability_zero_are_never_planned scipy_lib fixed_x_entropy
              low_contrast_only _ _ _ _ _ Hrun) as (_ & _ & Hdeform & _).
  destruct (Hdeform Hzero) as (Hno & _ & _ & Hnp). split; [exact Hno|exact Hnp].
Defined.

Lemma default_node_plans_no_artifact_and_no_deformed_slice_witness :
  ∃ plan p',
    prepare scipy_lib default_entropy default_node (request 2 2 2) start
      = Ok (plan, request 2 2 2, p') ∧
    slice_to_augmentation plan = [(0%nat, "zero_out"); (1%nat, "lower_contrast")] ∧
    deform_slice_transformations plan = [].
Proof.
  eexists _, _.
  assert (prepare scipy_lib default_entropy default_node (request 2 2 2) start
          = Ok (mkPlan [(0%nat, "zero_out"); (1%nat, "lower_contrast")] [],
                request 2 2 2, mkRngPos 2 0)) as Hrun by run.
  split; [exact Hrun|]. split; [reflexivity|].
  destruct (default_node_plans_no_artifact_and_no_deformed_slice scipy_lib default_entropy
              stream_spec _ _ _ _ _ Hrun) as (_ & Hnone & _).
  exact Hnone.
Defined.

Lemma tear_needs_four_pixels_along_the_free_axis_witness :
  [6; 3] !! 0%nat = Some 6 ∧ [6; 3] !! 1%nat = Some 3 ∧
  Qltb (py_stream fixed_x_entropy (py_pos start)) (1 # 2) = true ∧
  prepare_deform_slice scipy_lib fixed_x_entropy (deforming 0) [6; 3] start
    = Err (ValueError "low >= high").
Proof.
  split; [reflexivity|]. split; [reflexivity|]. split; [reflexivity|].
  apply (tear_needs_four_pixels_along_the_free_axis scipy_lib fixed_x_entropy (deforming 0)
           [6; 3] start 6 3 eq_refl eq_refl).
  vm_compute. discriminate.
Defined.

Lemma the_two_sides_are_pushed_along_the_normal_witness :
  prepare_deform_slice scipy_lib fixed_x_entropy (deforming 1) [4; 4] start = Ok torn ∧
  ∃ tl components,
    draw_tear_line scipy_lib fixed_x_entropy (deforming 1) [4; 4] start = Ok (tl, torn.2) ∧
    nd_label scipy_lib (amap2 negb (raster tl)) = (components, 2%nat).
Proof.
  assert (prepare_deform_slice scipy_lib fixed_x_entropy (deforming 1) [4; 4] start
          = Ok (torn.1, torn.2)) as Hrun by run.
  split; [exact Hrun|].
  destruct (the_two_sides_are_pushed_along_the_normal scipy_lib fixed_x_entropy (deforming 1)
              [4; 4] start torn.1 torn.2 Hrun)
    as (tl & components & neg_val & pos_val & Hdraw & Hlabel & _).
  exists tl, components. split; [exact Hdraw|exact Hlabel].
Defined.

Lemma line_mask_is_the_band_of_ten_steps_around_the_line_witness :
  binary_dilation scipy_lib = ndimage_binary_dilation ∧
  prepare_deform_slice scipy_lib fixed_x_entropy (deforming 1) [4; 4] start = Ok torn ∧
  ∃ tl,
    draw_tear_line scipy_lib fixed_x_entropy (deforming 1) [4; 4] start = Ok (tl, torn.2) ∧
    shape2 (line_mask torn.1) = (Z.to_nat (shape0 tl), Z.to_nat (shape1 tl)).
Proof.
  assert (prepare_deform_slice scipy_lib fixed_x_entropy (deforming 1) [4; 4] start
          = Ok (torn.1, torn.2)) as Hrun by run.
  split; [reflexivity|]. split; [exact Hrun|].
  destruct (line_mask_is_the_band_of_ten_steps_around_the_line scipy_lib fixed_x_entropy
              (deforming 1) [4; 4] start torn.1 torn.2 eq_refl Hrun)
    as (tl & Hdraw & Hshape & _).
  exists tl. split; [exact Hdraw|exact Hshape].
Defined.

Lemma process_changes_the_planned_slices_only_witness :
  process resampler mixed mixed_plan mixed_batch (request 3 4 4) = (mixed_result, None) ∧
  ∀ k, k ≠ RAW → mixed_result !! k = mixed_batch !! k.
Proof.
  assert (process resampler mixed mixed_plan mixed_batch (request 3 4 4)
          = (mixed_result, None)) as Hrun by run.
  split; [exact Hrun|].
  destruct (process_changes_the_planned_slices_only resampler mixed mixed_plan mixed_batch
              (request 3 4 4) mixed_result None Hrun) as [Hother _].
  exact Hother.
Defined.

Lemma missing_slices_are_zero_witness :
  process resampler mixed mixed_plan mixed_batch (request 3 4 4) = (mixed_result, None) ∧
  NoDup (slice_to_augmentation mixed_plan).*1 ∧
  (axis mixed < 3)%nat ∧ 0 <= deformation_strength mixed ∧
  (0%nat, "zero_out") ∈ slice_to_augmentation mixed_plan ∧
  mixed_result !! RAW = Some mixed_out ∧
  ∀ j k v, lookup3 (vol_data mixed_out) 0 j k = Some v → v = 0%Q.
Proof.
  assert (process resampler mixed mixed_plan mixed_batch (request 3 4 4)
          = (mixed_result, None)) as Hrun by run.
  assert (NoDup (slice_to_augmentation mixed_plan).*1) as Hnd
    by (apply (bool_decide_unpack _); run).
  assert ((0%nat, "zero_out") ∈ slice_to_augmentation mixed_plan) as Hin
    by (apply (bool_decide_unpack _); run).
  assert (axis mixed < 3)%nat as Hax by (vm_compute; lia).
  assert (0 <= deformation_strength mixed) as Hs by (vm_compute; discriminate).
  assert (mixed_result !! RAW = Some mixed_out) as Hout by run.
  split_and!; try assumption.
  intros j k v Hv.
  apply (missing_slices_are_zero resampler mixed mixed_plan mixed_batch (request 3 4 4)
           mixed_result mixed_out 0%nat Hrun Hnd Hax Hs Hin Hout 0%nat j k v);
    [reflexivity|exact Hv].
Defined.

Lemma crop_gives_back_the_requested_region_witness :
  process resampler mixed mixed_plan mixed_batch (request 3 4 4) = (mixed_result, None) ∧
  "deformed_slice" ∈ dict_values (slice_to_augmentation mixed_plan) ∧
  0 < deformation_strength mixed ∧
  mixed_batch !! RAW = Some mixed_raw ∧
  shape3 (vol_data mixed_raw) = (3, 6, 6)%nat ∧
  ∃ raw', mixed_result !! RAW = Some raw' ∧ shape3 (vol_data raw') = (3, 4, 4)%nat.
Proof.
  assert (process resampler mixed mixed_plan mixed_batch (request 3 4 4)
          = (mixed_result, None)) as Hrun by run.
  assert ("deformed_slice" ∈ dict_values (slice_to_augmentation mixed_plan)) as Hdef
    by (apply (bool_decide_unpack _); run).
  assert (0 < deformation_strength mixed) as Hs by (vm_compute; reflexivity).
  assert (mixed_batch !! RAW = Some mixed_raw) as Hraw by run.
  split_and!; try assumption; [reflexivity|].
  destruct (crop_gives_back_the_requested_region resampler mixed mixed_plan mixed_batch
              (request 3 4 4) mixed_result mixed_raw 3 4 4 Hrun Hdef Hs Hraw eq_refl)
    as (raw' & sp & Hraw' & _ & _ & Hshape & _).
  exists raw'. split; [exact Hraw'|exact Hshape].
Defined.

Lemma deformed_slices_need_the_first_axis_witness :
  process resampler sideways sideways_plan sideways_batch (request 6 3 6)
    = (sideways_batch, Some (ValueError "could not broadcast input array")) ∧
  (1%nat, "deformed_slice") ∈ slice_to_augmentation sideways_plan ∧
  sideways_batch !! RAW = Some sideways_raw ∧
  (1 < axis_extent (shape3 (vol_data sideways_raw)) (axis sideways))%nat ∧
  axis sideways ≠ 0%nat ∧
  ∃ e, Some (ValueError "could not broadcast input array") = Some e.
Proof.
  assert (process resampler sideways sideways_plan sideways_batch (request 6 3 6)
    = (sideways_batch, Some (ValueError "could not broadcast input array"))) as Hrun by run.
  assert ((1%nat, "deformed_slice") ∈ slice_to_augmentation sideways_plan) as Hin
    by (apply (bool_decide_unpack _); run).
  assert (sideways_batch !! RAW = Some sideways_raw) as Hraw by run.
  assert (1 < axis_extent (shape3 (vol_data sideways_raw)) (axis sideways))%nat as Hc
    by (vm_compute; lia).
  assert (axis sideways ≠ 0%nat) as Hax by (vm_compute; discriminate).
  split_and!; try assumption.
  exact (deformed_slices_need_the_first_axis resampler sideways sideways_plan sideways_batch
           (request 6 3 6) _ _ sideways_raw 1%nat Hrun Hin Hraw Hc Hax).
Defined.

Lemma artifact_slices_need_a_source_with_the_voxel_size_of_the_stream_witness :
  get_total_roi_dims small_batch = Ok 3%nat ∧
  small_batch !! RAW = Some small_raw ∧
  slice_to_augmentation blending_plan = [(0%nat, "zero_out")] ++ (1%nat, "artifact") :: [] ∧
  process_loop resampler no_source blending_plan (Some [1; 1; 1]) [(0%nat, "zero_out")]
    small_raw = (small_raw_zeroed, None) ∧
  artifact_source no_source = None ∧
  process resampler no_source blending_plan small_batch (request 2 2 2)
    = (<[RAW := small_raw_zeroed]> small_batch, Some AttributeError).
Proof.
  assert (get_total_roi_dims small_batch = Ok 3%nat) as Hdims by run.
  assert (small_batch !! RAW = Some small_raw) as Hraw by run.
  assert (spec no_source !! RAW
          = Some (mkVolumeSpec None (Some [1; 1; 1]) (Some false) (Some Float32)))
    as Hsp by run.
  assert (process_loop resampler no_source blending_plan (Some [1; 1; 1])
            [(0%nat, "zero_out")] small_raw = (small_raw_zeroed, None)) as Hloop by run.
  split_and!; [assumption|assumption|reflexivity|assumption|reflexivity|].
  destruct (artifact_slices_need_a_source_with_the_voxel_size_of_the_stream resampler
              no_source blending_plan small_batch (request 2 2 2) small_raw _
              [(0%nat, "zero_out")] 1%nat [] small_raw_zeroed Hdims Hraw Hsp eq_refl Hloop)
    as [Hnone _].
  apply Hnone. reflexivity.
Defined.


Lemma a_prepared_plan_is_carried_out_witness :
  prepare scipy_lib mixed_entropy mixed (request 3 4 4) start
    = Ok (mixed_plan, mixed_prepared.1.2, mixed_prepared.2) ∧
  axis mixed = 0%nat ∧
  ("artifact" ∉ dict_values (slice_to_augmentation mixed_plan)) ∧
  roi_div (mkRoi [0; 0; 0] [3; 4; 4]) [1; 1; 1] = Ok (mkRoi [0; 0; 0] [3; 4; 4]) ∧
  get_total_roi_dims mixed_batch = Ok 3%nat ∧
  mixed_batch !! RAW = Some mixed_raw ∧
  shape3 (vol_data mixed_raw) = (3, 6, 6)%nat ∧
  ∃ batch', process nearest_at_every_order mixed mixed_plan mixed_batch (request 3 4 4)
            = (batch', None).
Proof.
  assert (prepare scipy_lib mixed_entropy mixed (request 3 4 4) start
          = Ok (mixed_plan, mixed_prepared.1.2, mixed_prepared.2)) as Hrun by run.
  assert ("artifact" ∉ dict_values (slice_to_augmentation mixed_plan)) as Hno
    by (apply (bool_decide_unpack _); run).
  assert (get_total_roi_dims mixed_batch = Ok 3%nat) as Hdims by run.
  assert (mixed_batch !! RAW = Some mixed_raw) as Hraw by run.
  split_and!; [assumption|reflexivity|assumption|reflexivity|assumption|assumption|reflexivity|].
  apply (a_prepared_plan_is_carried_out scipy_lib mixed_entropy nearest_at_every_order mixed
           (request 3 4 4) start mixed_plan mixed_prepared.1.2 mixed_prepared.2
           mixed_batch mixed_raw
           (mkVolumeSpec (Some (mkRoi [0; 0; 0] [3; 4; 4])) None None None)
           (mkRoi [0; 0; 0] [3; 4; 4])
           (mkVolumeSpec None (Some [1; 1; 1]) (Some false) (Some Float32))
           [1; 1; 1] (mkRoi [0; 0; 0] [3; 4; 4]) 3 4 Hrun);
    try assumption; try reflexivity.
  - intros k mask. apply dilation_shape.
  - intros a ys xs o Hlen. unfold nearest_at_every_order, nearest_resample.
    rewrite length_zip_with. lia.
Defined.

End FurtherRuns.

Section PredictRuns.
Import Torch TorchDemo.
Local Ltac run := vm_compute; reflexivity.

Lemma get_outputs_returns_the_requested_outputs_witness :
  get_outputs ran (OutTuple [10; 15]) request = Ok outs ∧
  NoDup (outputs ran).*2 ∧
  odict_get outs "FEATURES" = intermediate_layers ran !! "conv" ∧
  odict_get outs "PRED" = Some 10.
Proof.
  assert (get_outputs ran (OutTuple [10; 15]) request = Ok outs) as Hrun by run.
  assert (NoDup (outputs ran).*2) as Hnd by (apply (bool_decide_unpack _); run).
  destruct (get_outputs_returns_the_requested_outputs ran (OutTuple [10; 15]) request outs
              Hrun) as (_ & _ & Hexact).
  split_and!; [exact Hrun|exact Hnd| |].
  - apply (Hexact Hnd (KeyStr "conv") "FEATURES"); [left|].
    eexists; vm_compute; reflexivity.
  - pose proof (Hexact Hnd (KeyInt 0) "PRED" ltac:(right; left)
                  ltac:(eexists; vm_compute; reflexivity)) as Hint.
    change (Ok 10 = match odict_get outs "PRED" with
                    | Some t => Ok t | None => Err IndexError end) in Hint.
    destruct (odict_get outs "PRED"); congruence.
Defined.

Lemma update_batch_places_the_requested_arrays_witness :
  update_batch lib ran batch request outs = (predicted, None) ∧
  NoDup outs.*1 ∧
  predicted !! "RAW" = batch !! "RAW" ∧
  ∃ array, predicted !! "FEATURES" = Some array ∧ array_data array = 6 ∧
           roi (array_spec array) = roi asked.
Proof.
  assert (update_batch lib ran batch request outs = (predicted, None)) as Hrun by run.
  assert (NoDup outs.*1) as Hnd by (apply (bool_decide_unpack _); run).
  destruct (update_batch_places_the_requested_arrays lib ran batch request outs predicted
              None Hrun) as (Hframe & Hplaced & _).
  split_and!; [exact Hrun|exact Hnd|by apply Hframe|].
  destruct (Hplaced eq_refl Hnd "FEATURES" 6 eq_refl)
    as (own & requested & array & _ & Hreq & Harr & Hdata & Hroi & _).
  exists array. split_and!; [exact Harr|exact Hdata|].
  rewrite Hroi. vm_compute in Hreq. by injection Hreq as <-.
Defined.

Lemma predict_changes_the_requested_outputs_only_witness :
  predict lib node batch request = (ran, predicted, None) ∧
  predicted !! "RAW" = batch !! "RAW" ∧ spec ran = spec node ∧ hooks ran = hooks node.
Proof.
  assert (predict lib node batch request = (ran, predicted, None)) as Hrun by run.
  destruct (predict_changes_the_requested_outputs_only lib node ran batch request predicted
              None Hrun) as (_ & _ & _ & _ & Hhooks & Hspec & _ & Hframe).
  split_and!; [exact Hrun| |exact Hspec|exact Hhooks].
  apply Hframe. by left.
Defined.

Lemma predict_returns_what_the_hooked_layers_computed_witness :
  initialised lib node ∧ NoDup (outputs node).*2 ∧
  predict lib node batch request = (ran, predicted, None) ∧
  ∃ t array, last_output 0%nat [(0%nat, 6)] = Some t ∧
    predicted !! "FEATURES" = Some array ∧ array_data array = t.
Proof.
  assert (initialised lib node) as Hinit by run.
  assert (NoDup (outputs node).*2) as Hnd by (apply (bool_decide_unpack _); run).
  assert (predict lib node batch request = (ran, predicted, None)) as Hrun by run.
  split_and!; [exact Hinit|exact Hnd|exact Hrun|].
  destruct (predict_returns_what_the_hooked_layers_computed lib node ran batch request
              predicted Hinit Hnd Hrun) as (ins & trace & out & Hins & Hfw & Hlayers & _).
  vm_compute in Hins. injection Hins as <-.
  vm_compute in Hfw. injection Hfw as <- <-.
  destruct (Hlayers "conv" "FEATURES" ltac:(left)
              ltac:(eexists; vm_compute; reflexivity)) as (layer & t & array & Hl & Hlast & Harr & Hdata).
  vm_compute in Hl. injection Hl as <-.
  exists t, array. split_and!; [|exact Harr|exact Hdata].
  vm_compute in Hlast. by rewrite Hlast.
Defined.

Lemma predict_needs_its_inputs_in_the_batch_witness :
  predict lib node ∅ request = (node, ∅, Some (KeyError "RAW")).
Proof.
  destruct (predict_needs_its_inputs_in_the_batch lib node ∅ request) as [_ Hmissing].
  apply (Hmissing [] "x" "RAW" []); [reflexivity| |reflexivity].
  intros n v Hin. by apply elem_of_nil in Hin.
Defined.

Lemma init_registers_one_hook_per_named_layer_witness :
  Predict_init lib tt [("x", "RAW")] node_outputs node_spec = Ok node ∧
  hooks node = [(0%nat, "conv")].
Proof.
  assert (Predict_init lib tt [("x", "RAW")] node_outputs node_spec = Ok node) as Hrun by run.
  split; [exact Hrun|].
  destruct (init_registers_one_hook_per_named_layer lib tt [("x", "RAW")] node_outputs
              node_spec) as (_ & _ & Hnode).
  destruct (Hnode node Hrun) as [Hhooks _]. rewrite Hhooks. reflexivity.
Defined.

Lemma get_outputs_fails_on_a_requested_output_only_witness :
  get_outputs node (OutTuple [10; 15]) request = Err (KeyError "conv") ∧
  ∃ key k, (key, k) ∈ outputs node ∧ is_Some (request !! k).
Proof.
  assert (get_outputs node (OutTuple [10; 15]) request = Err (KeyError "conv")) as Hrun
    by run.
  split; [exact Hrun|].
  destruct (get_outputs_fails_on_a_requested_output_only node (OutTuple [10; 15]) request)
    as [_ Herr].
  destruct (Herr _ Hrun) as (key & k & Hin & Hreq & _). by exists key, k.
Defined.

End PredictRuns.
